(** * MindMapr: the graph interaction engine and its document store

    A shallow embedding of [src/MindMapr/main.py]:
    - the [Node] and [Edge] classes and the [MindMapCanvas] handlers,
    - the per-user map files and the map index ([maps_index.json]),
    - the [MindMapApp] commands that save, load, list and delete maps.

    Conventions of the embedding.
    - Python objects that are mutated and shared ([Node]) live in a heap
      and are named by a reference; [selected_item], the values of
      [canvas.nodes] and the endpoints [Edge.a], [Edge.b] are references,
      so that [target != self.selected_item] is a comparison of object
      identities, as in the source ([Node] defines no [__eq__]).
    - [Edge] objects are never mutated after [__init__]; they are stored
      by value in [canvas.edges].
    - A [dict] is a [gmap]; no property below depends on the iteration
      order of a dict.  A JSON object is a record of optional fields, an
      absent key being [None]; the values that are present have the type
      that the document format gives them.
    - Numbers (coordinates and sizes) are rationals.
    - [uuid.uuid4()] and [datetime.now()] are oracles indexed by the
      number of calls made so far.
    - Tk canvas items are natural numbers handed out by a counter; only
      the existence of an item is tracked, not its geometry.  The result
      of a Tk hit test ([find_overlapping], the [current] tag) and the
      answer of a dialog are inputs of the handler that asks for them.
    - A handler is a function from state to state, and a run of the
      application is a sequence of handler calls.  Which handlers Tk calls
      for one event of the pointer is decided by Tk.  A handler that
      raises ends where it raises, as Tk reports the error and goes on.
    - The files are maps from names to contents, and [fs_trace] records
      the writes in the order in which they are made. *)

From Stdlib Require Import QArith Ascii String Sorted.
From stdpp Require Import gmap strings list fin_maps.

Local Open Scope string_scope.
Local Open Scope list_scope.

(** ** Values *)

(** Object references, Tk item ids and numbers. *)
Abbreviation ref := nat (only parsing).
Abbreviation item := nat (only parsing).
Abbreviation number := Q (only parsing).

Definition num (z : Z) : number := inject_Z z.

(** Python truth value of a [str]: the empty string is falsy. *)
Definition truthy (s : string) : bool :=
  match s with EmptyString => false | _ => true end.

Record Node := mkNode {
  n_id : string;
  n_x : number;
  n_y : number;
  n_width : number;
  n_height : number;
  n_text : string;
  n_rect : item;
  n_text_id : item;
  n_connections : gset string
}.

Record Edge := mkEdge {
  e_id : string;
  e_a : ref;
  e_b : ref;
  e_line : item
}.

(** The persisted document.  A key that is absent from a JSON object is
    [None]. *)
Record NodeDoc := mkNodeDoc {
  nd_id : option string;
  nd_x : option number;
  nd_y : option number;
  nd_text : option string;
  nd_width : option number;
  nd_height : option number
}.

Record EdgeDoc := mkEdgeDoc {
  ed_id : option string;
  ed_a : option string;
  ed_b : option string
}.

Record Doc := mkDoc {
  doc_nodes : option (list NodeDoc);
  doc_edges : option (list EdgeDoc)
}.

(** One entry of the map index: a dict with the keys ["title"],
    ["created"] and ["modified"], each of which may be absent. *)
Record Meta := mkMeta {
  m_title : option string;
  m_created : option string;
  m_modified : option string
}.

(** Python truth value of the dict: empty is falsy. *)
Definition meta_truthy (m : Meta) : bool :=
  match m_title m, m_created m, m_modified m with
  | None, None, None => false
  | _, _, _ => true
  end.

Definition empty_meta : Meta := mkMeta None None None.

(** ** State *)

(** The handler bound to [<Button-1>] on the canvas widget. *)
Inductive Binding := OnSingle | FinishConnection.

Record Canvas := mkCanvas {
  heap : gmap ref Node;
  next_ref : ref;
  nodes : gmap string ref;
  edges : gmap string Edge;
  selected_item : option ref;
  temp_line : option item;
  items : gset item;
  next_item : item;
  button1 : Binding;
  motion_bound : bool
}.

(** A write to the storage of the document store. *)
Inductive FsOp :=
| WriteIndex (username : string) (idx : gmap string Meta)
| WriteMap (username map_id : string) (data : Doc)
| RemoveMap (username map_id : string).

(** The application: the canvas, the log pane, the session fields of
    [MindMapApp], the files on disk, and [fs_trace], the writes made so far
    in the order in which they were made. *)
Record App := mkApp {
  canvas : Canvas;
  log_text : list string;
  clock : nat;
  uuid_calls : nat;
  current_user : option string;
  current_map_id : option string;
  current_map_meta : option Meta;
  map_files : gmap (string * string) Doc;
  index_files : gmap string (gmap string Meta);
  maps_list : list string;
  status_var : string;
  fs_trace : list FsOp
}.

Definition set_heap (h : gmap ref Node) (c : Canvas) : Canvas :=
  mkCanvas h (next_ref c) (nodes c) (edges c) (selected_item c) (temp_line c)
           (items c) (next_item c) (button1 c) (motion_bound c).
Definition set_next_ref (r : ref) (c : Canvas) : Canvas :=
  mkCanvas (heap c) r (nodes c) (edges c) (selected_item c) (temp_line c)
           (items c) (next_item c) (button1 c) (motion_bound c).
Definition set_nodes (m : gmap string ref) (c : Canvas) : Canvas :=
  mkCanvas (heap c) (next_ref c) m (edges c) (selected_item c) (temp_line c)
           (items c) (next_item c) (button1 c) (motion_bound c).
Definition set_edges (m : gmap string Edge) (c : Canvas) : Canvas :=
  mkCanvas (heap c) (next_ref c) (nodes c) m (selected_item c) (temp_line c)
           (items c) (next_item c) (button1 c) (motion_bound c).
Definition set_selected_item (o : option ref) (c : Canvas) : Canvas :=
  mkCanvas (heap c) (next_ref c) (nodes c) (edges c) o (temp_line c)
           (items c) (next_item c) (button1 c) (motion_bound c).
Definition set_temp_line (o : option item) (c : Canvas) : Canvas :=
  mkCanvas (heap c) (next_ref c) (nodes c) (edges c) (selected_item c) o
           (items c) (next_item c) (button1 c) (motion_bound c).
Definition set_items (s : gset item) (c : Canvas) : Canvas :=
  mkCanvas (heap c) (next_ref c) (nodes c) (edges c) (selected_item c) (temp_line c)
           s (next_item c) (button1 c) (motion_bound c).
Definition set_next_item (i : item) (c : Canvas) : Canvas :=
  mkCanvas (heap c) (next_ref c) (nodes c) (edges c) (selected_item c) (temp_line c)
           (items c) i (button1 c) (motion_bound c).
Definition set_bindings (b : Binding) (m : bool) (c : Canvas) : Canvas :=
  mkCanvas (heap c) (next_ref c) (nodes c) (edges c) (selected_item c) (temp_line c)
           (items c) (next_item c) b m.

Definition set_canvas (c : Canvas) (a : App) : App :=
  mkApp c (log_text a) (clock a) (uuid_calls a) (current_user a) (current_map_id a)
        (current_map_meta a) (map_files a) (index_files a) (maps_list a) (status_var a) (fs_trace a).
Definition set_log_clock (l : list string) (t : nat) (a : App) : App :=
  mkApp (canvas a) l t (uuid_calls a) (current_user a) (current_map_id a)
        (current_map_meta a) (map_files a) (index_files a) (maps_list a) (status_var a) (fs_trace a).
Definition set_uuid_calls (n : nat) (a : App) : App :=
  mkApp (canvas a) (log_text a) (clock a) n (current_user a) (current_map_id a)
        (current_map_meta a) (map_files a) (index_files a) (maps_list a) (status_var a) (fs_trace a).
Definition set_session (u i : option string) (m : option Meta) (a : App) : App :=
  mkApp (canvas a) (log_text a) (clock a) (uuid_calls a) u i m
        (map_files a) (index_files a) (maps_list a) (status_var a) (fs_trace a).
Definition set_map_files (f : gmap (string * string) Doc) (a : App) : App :=
  mkApp (canvas a) (log_text a) (clock a) (uuid_calls a) (current_user a) (current_map_id a)
        (current_map_meta a) f (index_files a) (maps_list a) (status_var a) (fs_trace a).
Definition set_index_files (f : gmap string (gmap string Meta)) (a : App) : App :=
  mkApp (canvas a) (log_text a) (clock a) (uuid_calls a) (current_user a) (current_map_id a)
        (current_map_meta a) (map_files a) f (maps_list a) (status_var a) (fs_trace a).
Definition set_maps_list (l : list string) (a : App) : App :=
  mkApp (canvas a) (log_text a) (clock a) (uuid_calls a) (current_user a) (current_map_id a)
        (current_map_meta a) (map_files a) (index_files a) l (status_var a) (fs_trace a).
Definition set_status (s : string) (a : App) : App :=
  mkApp (canvas a) (log_text a) (clock a) (uuid_calls a) (current_user a) (current_map_id a)
        (current_map_meta a) (map_files a) (index_files a) (maps_list a) s (fs_trace a).

Definition set_fs_trace (t : list FsOp) (a : App) : App :=
  mkApp (canvas a) (log_text a) (clock a) (uuid_calls a) (current_user a) (current_map_id a)
        (current_map_meta a) (map_files a) (index_files a) (maps_list a) (status_var a) t.
Definition traced (op : FsOp) (a : App) : App := set_fs_trace (fs_trace a ++ [op]) a.

Definition on_canvas (f : Canvas → Canvas) (a : App) : App :=
  set_canvas (f (canvas a)) a.

(** The canvas of a freshly started application ([MindMapCanvas.__init__]).
    Tk numbers canvas items from 1, so an item id is always truthy. *)
Definition init_canvas : Canvas :=
  mkCanvas ∅ 0 ∅ ∅ None None ∅ 1 OnSingle false.

Definition init_app : App :=
  mkApp init_canvas [] 0 0 None None None ∅ ∅ [] "Please login to start." [].

(** A reference held by the program always names an allocated object; the
    default below is never reached from [init_app]. *)
Definition null_node : Node :=
  mkNode "" (num 0) (num 0) (num 0) (num 0) "" 0 0 ∅.

Definition deref (c : Canvas) (r : ref) : Node := default null_node (heap c !! r).

Definition update_node (r : ref) (f : Node → Node) (c : Canvas) : Canvas :=
  set_heap (alter f r (heap c)) c.

Definition node_add_connection (eid : string) (n : Node) : Node :=
  mkNode (n_id n) (n_x n) (n_y n) (n_width n) (n_height n) (n_text n)
         (n_rect n) (n_text_id n) ({[eid]} ∪ n_connections n).
Definition node_discard_connection (eid : string) (n : Node) : Node :=
  mkNode (n_id n) (n_x n) (n_y n) (n_width n) (n_height n) (n_text n)
         (n_rect n) (n_text_id n) (n_connections n ∖ {[eid]}).
Definition node_set_pos (x y : number) (n : Node) : Node :=
  mkNode (n_id n) x y (n_width n) (n_height n) (n_text n)
         (n_rect n) (n_text_id n) (n_connections n).
Definition node_set_size (w h : number) (n : Node) : Node :=
  mkNode (n_id n) (n_x n) (n_y n) w h (n_text n)
         (n_rect n) (n_text_id n) (n_connections n).
Definition node_set_text (t : string) (n : Node) : Node :=
  mkNode (n_id n) (n_x n) (n_y n) (n_width n) (n_height n) t
         (n_rect n) (n_text_id n) (n_connections n).

(** [canvas.create_rectangle], [create_text], [create_line]: a new item. *)
Definition create_item (c : Canvas) : item * Canvas :=
  (next_item c, set_next_item (S (next_item c)) (set_items ({[next_item c]} ∪ items c) c)).

(** [canvas.delete(item)]: deleting an item that is gone does nothing. *)
Definition delete_item (i : item) (c : Canvas) : Canvas :=
  set_items (items c ∖ {[i]}) c.

(** ** The classes and handlers of the source *)

Section Program.

(** [uuid4 k] is the value of the [k]-th call of [str(uuid.uuid4())] and
    [now_str k] the value of the [k]-th call of [now_str()]. *)
Variable uuid4 : nat → string.
Variable now_str : nat → string.

Definition fresh_uuid (a : App) : string * App :=
  (uuid4 (uuid_calls a), set_uuid_calls (S (uuid_calls a)) a).

(** [x or str(uuid.uuid4())]: the call is made only when [x] is falsy. *)
Definition or_uuid (x : option string) (a : App) : string * App :=
  match x with
  | Some s => if truthy s then (s, a) else fresh_uuid a
  | None => fresh_uuid a
  end.

(** [MindMapApp.log] *)
Definition log (msg : string) (a : App) : App :=
  set_log_clock (log_text a ++ ["[" +:+ now_str (clock a) +:+ "] " +:+ msg])
                (S (clock a)) a.

(** [Node.__init__]: returns the reference of the new object. *)
Definition Node_init (x y : number) (text : string) (nid : option string)
    (a : App) : ref * App :=
  let '(id, a) := or_uuid nid a in
  let '(rect, c) := create_item (canvas a) in
  let '(text_id, c) := create_item c in
  let r := next_ref c in
  let n := mkNode id x y (num 160) (num 52) text rect text_id ∅ in
  (r, set_canvas (set_next_ref (S r) (set_heap (<[r := n]> (heap c)) c)) a).

(** [Node.on_click] *)
Definition Node_on_click (self : ref) (a : App) : App :=
  let c := set_selected_item (Some self) (canvas a) in
  let c := match temp_line c with
           | Some l => set_temp_line None (delete_item l c)
           | None => c
           end in
  set_canvas c a.

(** [Node.on_right_click]; [reply] is the answer of the dialog. *)
Definition Node_on_right_click (self : ref) (reply : option string) (a : App) : App :=
  match reply with
  | Some new =>
      let a := on_canvas (update_node self (node_set_text new)) a in
      log ("Node '" +:+ n_id (deref (canvas a) self) +:+ "' text updated.") a
  | None => a
  end.

(** [Node.on_drag]: the event carries the pointer position.  The calls of
    [canvas.move] and [canvas.update_edge] change the geometry of items
    only. *)
Definition Node_on_drag (self : ref) (ex ey : number) (a : App) : App :=
  let n := deref (canvas a) self in
  let new_x := (ex - n_width n / num 2)%Q in
  let new_y := (ey - n_height n / num 2)%Q in
  on_canvas (update_node self (node_set_pos new_x new_y)) a.

(** [Node.serialize] *)
Definition Node_serialize (n : Node) : NodeDoc :=
  mkNodeDoc (Some (n_id n)) (Some (n_x n)) (Some (n_y n)) (Some (n_text n))
            (Some (n_width n)) (Some (n_height n)).

(** [Edge.__init__] *)
Definition Edge_init (a_node b_node : ref) (eid : option string) (a : App) : Edge * App :=
  let '(id, a) := or_uuid eid a in
  let '(line, c) := create_item (canvas a) in
  let c := update_node a_node (node_add_connection id) c in
  let c := update_node b_node (node_add_connection id) c in
  (mkEdge id a_node b_node line, set_canvas c a).

(** [Edge.serialize] *)
Definition Edge_serialize (c : Canvas) (e : Edge) : EdgeDoc :=
  mkEdgeDoc (Some (e_id e)) (Some (n_id (deref c (e_a e)))) (Some (n_id (deref c (e_b e)))).

(** [MindMapCanvas.on_double] *)
Definition on_double (ex ey : number) (a : App) : App :=
  let '(r, a) := Node_init (ex - num 80)%Q (ey - num 26)%Q "New Node" None a in
  let id := n_id (deref (canvas a) r) in
  let a := on_canvas (λ c, set_nodes (<[id := r]> (nodes c)) c) a in
  log ("Created node " +:+ id) a.

(** [MindMapCanvas.on_single]; [current] is [find_withtag("current")]. *)
Definition on_single (current : list item) (a : App) : App :=
  match current with
  | [] => on_canvas (set_selected_item None) a
  | _ => a
  end.

(** [MindMapCanvas.start_connection] *)
Definition start_connection (a : App) : App :=
  match selected_item (canvas a) with
  | None => log "No node selected to start connection." a
  | Some _ =>
      let a := on_canvas (set_bindings FinishConnection true) a in
      log "Connection mode: click target node to connect." a
  end.

(** [MindMapCanvas.follow_mouse].  Without a selection the attribute
    access raises after the old line was deleted; Tk reports the error and
    the handler ends there. *)
Definition follow_mouse (a : App) : App :=
  let c := canvas a in
  let c := match temp_line c with
           | Some l => delete_item l c
           | None => c
           end in
  match selected_item c with
  | None => set_canvas c a
  | Some _ =>
      let '(l, c) := create_item c in
      set_canvas (set_temp_line (Some l) c) a
  end.

(** The node that owns a canvas item, as the inner loop of
    [finish_connection] finds it.  An item belongs to at most one node,
    so the order in which [nodes.values()] is walked is immaterial. *)
Definition owns (c : Canvas) (it : item) (kr : string * ref) : bool :=
  let n := deref c kr.2 in
  bool_decide (it = n_rect n) || bool_decide (it = n_text_id n).

Definition node_of_item (c : Canvas) (it : item) : option ref :=
  snd <$> List.find (owns c it) (map_to_list (nodes c)).

Fixpoint hit_target (c : Canvas) (its : list item) : option ref :=
  match its with
  | [] => None
  | it :: rest =>
      match node_of_item c it with
      | Some r => Some r
      | None => hit_target c rest
      end
  end.

Definition end_connection (a : App) : App :=
  let c := canvas a in
  let c := match temp_line c with
           | Some l => set_temp_line None (delete_item l c)
           | None => c
           end in
  set_canvas (set_bindings OnSingle false c) a.

(** [MindMapCanvas.finish_connection]; [its] is the result of
    [find_overlapping].  With a target and no selection, [Edge.__init__]
    raises in [center] after the id was drawn: the handler ends there. *)
Definition finish_connection (its : list item) (a : App) : App :=
  match hit_target (canvas a) its with
  | Some target =>
      match selected_item (canvas a) with
      | Some sel =>
          if bool_decide (target ≠ sel) then
            let '(e, a) := Edge_init sel target None a in
            let a := on_canvas (λ c, set_edges (<[e_id e := e]> (edges c)) c) a in
            let a := log ("Created edge " +:+ e_id e +:+ " between "
                          +:+ n_id (deref (canvas a) (e_a e)) +:+ " and "
                          +:+ n_id (deref (canvas a) (e_b e))) a in
            end_connection a
          else end_connection (log "Connection aborted or clicked same node." a)
      | None => (fresh_uuid a).2
      end
  | None => end_connection (log "Connection aborted or clicked same node." a)
  end.

(** [MindMapCanvas.delete_edge] *)
Definition delete_edge (eid : string) (a : App) : App :=
  match edges (canvas a) !! eid with
  | None => a
  | Some e =>
      let a := on_canvas (λ c,
                 let c := update_node (e_a e) (node_discard_connection eid) c in
                 let c := update_node (e_b e) (node_discard_connection eid) c in
                 let c := delete_item (e_line e) c in
                 set_edges (delete eid (edges c)) c) a in
      log ("Deleted edge " +:+ eid) a
  end.

(** [MindMapCanvas.delete_node]; [list(node.connections)] is a snapshot
    taken before the loop. *)
Definition delete_node (node : ref) (a : App) : App :=
  let a := foldl (λ a eid, delete_edge eid a) a
                 (elements (n_connections (deref (canvas a) node))) in
  let n := deref (canvas a) node in
  let a := on_canvas (λ c,
             let c := delete_item (n_text_id n) (delete_item (n_rect n) c) in
             set_nodes (delete (n_id n) (nodes c)) c) a in
  log ("Deleted node " +:+ n_id n) a.

(** [MindMapCanvas.on_delete_key] *)
Definition on_delete_key (a : App) : App :=
  match selected_item (canvas a) with
  | Some r => on_canvas (set_selected_item None) (delete_node r a)
  | None => a
  end.

(** [MindMapCanvas.serialize]: [n.serialize()] for the values of [nodes]
    and [e.serialize()] for the values of [edges]. *)
Definition node_entry (c : Canvas) (kr : string * ref) : NodeDoc :=
  Node_serialize (deref c kr.2).

Definition edge_entry (c : Canvas) (ke : string * Edge) : EdgeDoc :=
  Edge_serialize c ke.2.

Definition serialize (c : Canvas) : Doc :=
  mkDoc (Some (node_entry c <$> map_to_list (nodes c)))
        (Some (edge_entry c <$> map_to_list (edges c))).

(** [MindMapCanvas.clear] *)
Definition clear (c : Canvas) : Canvas :=
  let c := foldl (λ c kr, let n := deref c kr.2 in
                          delete_item (n_text_id n) (delete_item (n_rect n) c))
                 c (map_to_list (nodes c)) in
  let c := foldl (λ c ke, delete_item (e_line ke.2) c) c (map_to_list (edges c)) in
  set_edges ∅ (set_nodes ∅ c).

(** One turn of the first loop of [load_from]. *)
Definition load_node (st : gmap string ref * App) (nd : NodeDoc) : gmap string ref * App :=
  let '(id_map, a) := st in
  let '(r, a) := Node_init (default (num 10) (nd_x nd)) (default (num 10) (nd_y nd))
                           (default "New Node" (nd_text nd)) (nd_id nd) a in
  let n := deref (canvas a) r in
  let a := on_canvas (update_node r (node_set_size (default (n_width n) (nd_width nd))
                                                   (default (n_height n) (nd_height nd)))) a in
  let id := n_id n in
  (<[id := r]> id_map, on_canvas (λ c, set_nodes (<[id := r]> (nodes c)) c) a).

(** [id_map.get(ed.get(k))]: a missing key looks up [None], which is the
    id of no node. *)
Definition id_map_get (id_map : gmap string ref) (k : option string) : option ref :=
  k ≫= λ s, id_map !! s.

(** One turn of the second loop of [load_from]. *)
Definition load_edge (id_map : gmap string ref) (a : App) (ed : EdgeDoc) : App :=
  match id_map_get id_map (ed_a ed), id_map_get id_map (ed_b ed) with
  | Some na, Some nb =>
      let '(e, a) := Edge_init na nb (ed_id ed) a in
      on_canvas (λ c, set_edges (<[e_id e := e]> (edges c)) c) a
  | _, _ => a
  end.

(** [MindMapCanvas.load_from] *)
Definition load_from (data : Doc) (a : App) : App :=
  let a := on_canvas clear a in
  let '(id_map, a) := foldl load_node (∅, a) (default [] (doc_nodes data)) in
  foldl (load_edge id_map) a (default [] (doc_edges data)).

(** ** The document store

    A map file is named by the user and the map id; the index of a user is
    one file.  A file that does not exist is an absent key.  Directories
    are not tracked. *)

(** [if not x] on an optional string: [None] and the empty string are
    falsy. *)
Definition nonempty (x : option string) : option string :=
  match x with
  | Some s => if truthy s then Some s else None
  | None => None
  end.

(** [ensure_user_folders] *)
Definition ensure_user_folders (username : string) (a : App) : App :=
  match index_files a !! username with
  | Some _ => a
  | None => traced (WriteIndex username ∅)
                   (set_index_files (<[username := ∅]> (index_files a)) a)
  end.

(** [load_user_maps_index] *)
Definition load_user_maps_index (username : string) (a : App) : gmap string Meta :=
  default ∅ (index_files a !! username).

(** [save_user_maps_index] *)
Definition save_user_maps_index (username : string) (idx : gmap string Meta) (a : App) : App :=
  traced (WriteIndex username idx) (set_index_files (<[username := idx]> (index_files a)) a).

(** [save_map_file] *)
Definition save_map_file (username map_id : string) (data : Doc) (a : App) : App :=
  let a := ensure_user_folders username a in
  traced (WriteMap username map_id data)
         (set_map_files (<[(username, map_id) := data]> (map_files a)) a).

(** [load_map_file] *)
Definition load_map_file (username map_id : string) (a : App) : option Doc :=
  map_files a !! (username, map_id).

(** [delete_map_file] *)
Definition delete_map_file (username map_id : string) (a : App) : App :=
  match map_files a !! (username, map_id) with
  | Some _ => traced (RemoveMap username map_id)
                     (set_map_files (delete (username, map_id) (map_files a)) a)
  | None => a
  end.

(** [sorted(..., key=modified, reverse=True)]: a stable sort, largest key
    first; entries with equal keys keep their order. *)
Definition modified_key (kv : string * Meta) : string := default "" (m_modified kv.2).

Fixpoint insert_desc (x : string * Meta) (l : list (string * Meta)) : list (string * Meta) :=
  match l with
  | [] => [x]
  | y :: l' =>
      if String.ltb (modified_key y) (modified_key x) then x :: y :: l'
      else y :: insert_desc x l'
  end.

Definition sorted_desc (l : list (string * Meta)) : list (string * Meta) :=
  foldl (λ acc x, insert_desc x acc) [] l.

(** The row of the listbox for one map. *)
Definition list_row (kv : string * Meta) : string :=
  let mid := kv.1 in
  let display := default mid (m_title kv.2) +:+ " — " +:+ default "" (m_modified kv.2) in
  mid +:+ "|" +:+ display.

(** The maps of a user in the order of the listbox. *)
Definition list_maps (username : string) (a : App) : list (string * Meta) :=
  sorted_desc (map_to_list (load_user_maps_index username a)).

(** [MindMapApp.refresh_maps_list] *)
Definition refresh_maps_list (a : App) : App :=
  match nonempty (current_user a) with
  | None => set_maps_list [] a
  | Some u => set_maps_list (list_row <$> list_maps u a) a
  end.

(** [val.split("|", 1)[0]] *)
Fixpoint split_bar_head (s : string) : string :=
  match s with
  | EmptyString => EmptyString
  | String ch rest =>
      if Ascii.eqb ch "|"%char then EmptyString else String ch (split_bar_head rest)
  end.

(** [MindMapApp.login_user] *)
Definition login_user (username : string) (a : App) : App :=
  let a := set_session (Some username) (current_map_id a) (current_map_meta a) a in
  let a := ensure_user_folders username a in
  let a := set_status ("Logged in as " +:+ username) a in
  let a := log ("User '" +:+ username +:+ "' logged in.") a in
  refresh_maps_list a.

(** [MindMapApp.logout_user] *)
Definition logout_user (a : App) : App :=
  match nonempty (current_user a) with
  | None => log "No user is logged in." a
  | Some u =>
      let a := log ("User '" +:+ u +:+ "' logged out.") a in
      let a := set_session None None (current_map_meta a) a in
      let a := set_maps_list [] a in
      let a := on_canvas clear a in
      set_status "Logged out." a
  end.

(** [MindMapApp.new_map_for_user]; [reply] is the title typed in the
    dialog, [None] when it was cancelled. *)
Definition new_map_for_user (reply : option string) (a : App) : App :=
  match nonempty (current_user a), reply with
  | Some u, Some title =>
      let a := on_canvas clear a in
      let '(mid, a) := fresh_uuid a in
      let meta := mkMeta (Some title) (Some (now_str (clock a))) (Some (now_str (S (clock a)))) in
      let a := set_log_clock (log_text a) (S (S (clock a))) a in
      let a := set_session (current_user a) (Some mid) (Some meta) a in
      let idx := load_user_maps_index u a in
      let a := save_user_maps_index u (<[mid := meta]> idx) a in
      let a := refresh_maps_list a in
      let a := log ("Created new map '" +:+ title +:+ "' (id=" +:+ mid +:+ ").") a in
      set_status ("Editing: " +:+ title) a
  | _, _ => a
  end.

(** [MindMapApp.load_map] *)
Definition load_map (map_id : string) (a : App) : App :=
  match nonempty (current_user a) with
  | None => log "Login to open maps." a
  | Some u =>
      match load_map_file u map_id a with
      | None => a
      | Some data =>
          let a := load_from data a in
          let idx := load_user_maps_index u a in
          let meta := default (mkMeta (Some "Untitled") None None) (idx !! map_id) in
          let a := set_session (current_user a) (Some map_id) (Some meta) a in
          let a := set_status ("Editing: " +:+ default "None" (m_title meta)) a in
          log ("Loaded map " +:+ map_id) a
      end
  end.

(** [MindMapApp.open_selected_map]; [sel] is the selected row. *)
Definition open_selected_map (sel : option nat) (a : App) : App :=
  match sel ≫= λ i, maps_list a !! i with
  | None => a
  | Some val => load_map (split_bar_head val) a
  end.

(** The part of [delete_selected_map] that follows the confirmation. *)
Definition delete_map (mid : string) (a : App) : App :=
  match current_user a with
  | None => a
  | Some u =>
      let a := delete_map_file u mid a in
      let idx := load_user_maps_index u a in
      let a := match idx !! mid with
               | Some _ => save_user_maps_index u (delete mid idx) a
               | None => a
               end in
      let a := refresh_maps_list a in
      log ("Deleted map " +:+ mid) a
  end.

(** [MindMapApp.delete_selected_map]; [sel] is the selected row and
    [confirm] the answer to the question.  With nobody logged in the path
    of the file cannot be built and the handler ends with the error. *)
Definition delete_selected_map (sel : option nat) (confirm : bool) (a : App) : App :=
  match sel ≫= λ i, maps_list a !! i with
  | None => a
  | Some val => if confirm then delete_map (split_bar_head val) a else a
  end.

(** [MindMapApp.open_map_dialog]; [picked] is the file chosen in the
    dialog: its path, its base name without the extension and the parsed
    content, [None] when the file could not be read. *)
Definition open_map_dialog (picked : option (string * string * option Doc)) (a : App) : App :=
  match nonempty (current_user a), picked with
  | Some u, Some (path, mid, Some data) =>
      let a := load_from data a in
      let a := set_session (current_user a) (Some mid) (current_map_meta a) a in
      let idx := load_user_maps_index u a in
      let a := match idx !! mid with
               | Some _ => a
               | None =>
                   let meta := mkMeta (Some mid) (Some (now_str (clock a)))
                                      (Some (now_str (S (clock a)))) in
                   let a := set_log_clock (log_text a) (S (S (clock a))) a in
                   save_user_maps_index u (<[mid := meta]> idx) a
               end in
      let a := refresh_maps_list a in
      log ("Opened map from " +:+ path) a
  | _, _ => a
  end.

(** The first lines of [save_map]: a map that has no id yet gets one and
    fresh metadata; [None] when the title dialog was cancelled. *)
Definition save_map_prepare (reply : option string) (a : App) : option App :=
  match nonempty (current_map_id a) with
  | Some _ => Some a
  | None =>
      match reply with
      | None => None
      | Some title =>
          let '(mid, a) := fresh_uuid a in
          let meta := mkMeta (Some title) (Some (now_str (clock a)))
                             (Some (now_str (S (clock a)))) in
          let a := set_log_clock (log_text a) (S (S (clock a))) a in
          Some (set_session (current_user a) (Some mid) (Some meta) a)
      end
  end.

(** [meta = self.current_map_meta or {}] *)
Definition meta_or_empty (m : option Meta) : Meta :=
  match m with
  | Some m => if meta_truthy m then m else empty_meta
  | None => empty_meta
  end.

(** [meta["modified"] = now_str()], then [meta["created"] = now_str()]
    when the key is missing: the metadata and the number of clock reads. *)
Definition stamp (meta : Meta) (t : nat) : Meta * nat :=
  match m_created meta with
  | Some _ => (mkMeta (m_title meta) (m_created meta) (Some (now_str t)), S t)
  | None => (mkMeta (m_title meta) (Some (now_str (S t))) (Some (now_str t)), S (S t))
  end.

(** [MindMapApp.save_map].  The dict [meta] is the object held in
    [current_map_meta] when that one is truthy, and then the assignments
    show there too; otherwise it is a new dict that the session does not
    keep. *)
Definition save_map (reply : option string) (a : App) : App :=
  match nonempty (current_user a) with
  | None => a
  | Some u =>
      match save_map_prepare reply a with
      | None => a
      | Some a =>
          let mid := default "" (current_map_id a) in
          let data := serialize (canvas a) in
          let a := save_map_file u mid data a in
          let idx := load_user_maps_index u a in
          let '(meta, t) := stamp (meta_or_empty (current_map_meta a)) (clock a) in
          let a := set_log_clock (log_text a) t a in
          let a := match current_map_meta a with
                   | Some m => if meta_truthy m
                               then set_session (current_user a) (current_map_id a) (Some meta) a
                               else a
                   | None => a
                   end in
          let a := save_user_maps_index u (<[mid := meta]> idx) a in
          let a := refresh_maps_list a in
          let a := log ("Saved map '" +:+ default "untitled" (m_title meta)
                        +:+ "' (id=" +:+ mid +:+ ")") a in
          set_status ("Saved: " +:+ default "None" (m_title meta)) a
      end
  end.

(** [MindMapApp.canvas_start_connection] *)
Definition canvas_start_connection (a : App) : App :=
  match selected_item (canvas a) with
  | None => log "Select a node first (left-click)." a
  | Some _ => start_connection a
  end.

(** [MindMapApp.delete_selected_node] *)
Definition delete_selected_node (a : App) : App :=
  match selected_item (canvas a) with
  | None => log "No node selected to delete." a
  | Some r => on_canvas (set_selected_item None) (delete_node r a)
  end.

(** The ids that the first loop of [load_from] gives to the entries of a
    list, when [k] uuids were drawn before. *)
Fixpoint assigned_ids (k : nat) (l : list NodeDoc) : list string :=
  match l with
  | [] => []
  | nd :: l' =>
      match nonempty (nd_id nd) with
      | Some s => s :: assigned_ids k l'
      | None => uuid4 k :: assigned_ids (S k) l'
      end
  end.

(** Whether both endpoints of an entry are found in [id_map]. *)
Definition resolves (id_map : gmap string ref) (ed : EdgeDoc) : bool :=
  match id_map_get id_map (ed_a ed), id_map_get id_map (ed_b ed) with
  | Some _, Some _ => true
  | _, _ => false
  end.

(** The ids that the second loop of [load_from] gives to the edges it
    creates, when [k] uuids were drawn before. *)
Fixpoint edge_ids (id_map : gmap string ref) (k : nat) (l : list EdgeDoc) : list string :=
  match l with
  | [] => []
  | ed :: l' =>
      if resolves id_map ed then
        match nonempty (ed_id ed) with
        | Some s => s :: edge_ids id_map k l'
        | None => uuid4 k :: edge_ids id_map (S k) l'
        end
      else edge_ids id_map k l'
  end.

(** ** Events

    What reaches the handlers from Tk and from the menus.  A click on the
    canvas goes to the handler that is bound to [<Button-1>] at that
    time, and a motion of the pointer goes to [follow_mouse] while
    [<Motion>] is bound.  Three commands have no event here: [export_png],
    which writes a picture to a path that the user picks, [clear_log] and
    [show_about]; none of them changes a field of the state below other
    than the log pane.  [on_exit] ends in [save_map]. *)
Inductive Event :=
| DoubleClick (ex ey : number)
| ClickNode (self : ref)
| RightClickNode (self : ref) (reply : option string)
| DragNode (self : ref) (ex ey : number)
| ClickCanvas (current overlapping : list item)
| Motion
| DeleteKey
| CmdStartConnection
| CmdDeleteSelectedNode
| CmdLogin (username : string)
| CmdLogout
| CmdNewMap (reply : option string)
| CmdOpenSelected (sel : option nat)
| CmdDeleteMap (sel : option nat) (confirm : bool)
| CmdOpenDialog (picked : option (string * string * option Doc))
| CmdSave (reply : option string).

Definition handle (ev : Event) (a : App) : App :=
  match ev with
  | DoubleClick ex ey => on_double ex ey a
  | ClickNode self => Node_on_click self a
  | RightClickNode self reply => Node_on_right_click self reply a
  | DragNode self ex ey => Node_on_drag self ex ey a
  | ClickCanvas current overlapping =>
      match button1 (canvas a) with
      | OnSingle => on_single current a
      | FinishConnection => finish_connection overlapping a
      end
  | Motion => if motion_bound (canvas a) then follow_mouse a else a
  | DeleteKey => on_delete_key a
  | CmdStartConnection => canvas_start_connection a
  | CmdDeleteSelectedNode => delete_selected_node a
  | CmdLogin username => login_user username a
  | CmdLogout => logout_user a
  | CmdNewMap reply => new_map_for_user reply a
  | CmdOpenSelected sel => open_selected_map sel a
  | CmdDeleteMap sel confirm => delete_selected_map sel confirm a
  | CmdOpenDialog picked => open_map_dialog picked a
  | CmdSave reply => save_map reply a
  end.

End Program.

(** ** The login dialog

    [users.json] maps the name of a user to the digest of the password.
    A file that is missing or cannot be read counts as an empty table
    ([load_users]); the program writes strings only. *)
Record Site := mkSite {
  users_file : option (gmap string string);
  app : App
}.

Section Login.

(** [hash_password s] is the SHA-256 digest of [s] in hexadecimal and
    [strip s] is [s.strip()]. *)
Variable hash_password : string → string.
Variable strip : string → string.
Variable now_str : nat → string.

(** [load_users] *)
Definition load_users (s : Site) : gmap string string := default ∅ (users_file s).

(** [save_users] *)
Definition save_users (users : gmap string string) (s : Site) : Site :=
  mkSite (Some users) (app s).

(** [LoginDialog.do_login] with the content of the two entries: the
    user name left in [result], [None] when the login is refused. *)
Definition do_login (username password : string) (s : Site) : option string :=
  let users := load_users s in
  let u := strip username in
  let p := hash_password password in
  match users !! u with
  | Some h => if decide (h = p) then Some u else None
  | None => None
  end.

(** [LoginDialog.do_register] *)
Definition do_register (username password : string) (s : Site) : option string * Site :=
  let users := load_users s in
  let u := strip username in
  let p := strip password in
  if negb (truthy u) || negb (truthy p) then (None, s)
  else match users !! u with
       | Some _ => (None, s)
       | None =>
           let s := save_users (<[u := hash_password p]> users) s in
           (Some u, mkSite (users_file s) (ensure_user_folders u (app s)))
       end.

(** [MindMapApp.show_login], once the dialog is closed with [result]. *)
Definition show_login (result : option string) (s : Site) : Site :=
  match result with
  | Some u => mkSite (users_file s) (login_user now_str u (app s))
  | None => s
  end.

End Login.

(** ** Observations and invariants *)

(** What the document format shows of the diagram: the nodes by id and the
    edges by id, each as it is serialized. *)
Definition node_view (c : Canvas) : gmap string NodeDoc :=
  (λ r, Node_serialize (deref c r)) <$> nodes c.

Definition edge_view (c : Canvas) : gmap string EdgeDoc :=
  Edge_serialize c <$> edges c.

(** The node object that [load_from] builds for an entry: the fields of
    the entry, with the defaults of [Node.__init__] and of the [get] calls
    for the keys that are missing. *)
Definition loaded_node (nd : NodeDoc) (id : string) (rect : item) : Node :=
  mkNode id (default (num 10) (nd_x nd)) (default (num 10) (nd_y nd))
         (default (num 160) (nd_width nd)) (default (num 52) (nd_height nd))
         (default "New Node" (nd_text nd)) rect (S rect) ∅.

(** The keys of [nodes] and [edges]: every object is stored under its own
    id ([self.nodes[n.id] = n], [self.edges[e.id] = e]), and an id is not
    the empty string ([nid or str(uuid.uuid4())]). *)
Definition keyed_nodes (c : Canvas) : Prop :=
  map_Forall (λ k r, n_id (deref c r) = k ∧ truthy k = true) (nodes c).

Definition keyed_edges (c : Canvas) : Prop :=
  map_Forall (λ k e, e_id e = k ∧ truthy k = true) (edges c).

(** Every endpoint of every edge has the id of a node of the diagram. *)
Definition resolvable (c : Canvas) : Prop :=
  map_Forall (λ _ e, is_Some (nodes c !! n_id (deref c (e_a e)))
                     ∧ is_Some (nodes c !! n_id (deref c (e_b e)))) (edges c).

(** No edge joins a node id to itself. *)
Definition distinct_endpoints (c : Canvas) : Prop :=
  map_Forall (λ _ e, n_id (deref c (e_a e)) ≠ n_id (deref c (e_b e))) (edges c).

(** The invariant of a diagram.  Every endpoint of an edge is the node
    object that [nodes] holds under the id of the endpoint; the id of an
    edge is in the [connections] of both its endpoints; and an id in the
    [connections] of a node that names an edge of the diagram names an
    edge at that node. *)
Definition endpoints_live (c : Canvas) : Prop :=
  map_Forall (λ _ e, nodes c !! n_id (deref c (e_a e)) = Some (e_a e)
                     ∧ nodes c !! n_id (deref c (e_b e)) = Some (e_b e)) (edges c).

Definition connections_complete (c : Canvas) : Prop :=
  map_Forall (λ k e, k ∈ n_connections (deref c (e_a e))
                     ∧ k ∈ n_connections (deref c (e_b e))) (edges c).

Definition at_node (c : Canvas) (r : ref) (k : string) : Prop :=
  match edges c !! k with
  | Some e => e_a e = r ∨ e_b e = r
  | None => True
  end.

#[global] Instance at_node_dec (c : Canvas) (r : ref) (k : string) : Decision (at_node c r k).
Proof. unfold at_node. destruct (edges c !! k); apply _. Defined.

Definition connections_sound (c : Canvas) : Prop :=
  map_Forall (λ r n, set_Forall (at_node c r) (n_connections n)) (heap c).

Definition diagram_invariant (c : Canvas) : Prop :=
  endpoints_live c ∧ connections_complete c ∧ connections_sound c.

(** The node object [n'] is [n] with the ids of [l] removed from its
    [connections], namely those that name an edge of [es] at [r]. *)
Definition pruned (l : list string) (es : gmap string Edge) (r : ref) (n n' : Node) : Prop :=
  Node_serialize n' = Node_serialize n
  ∧ n_rect n' = n_rect n ∧ n_text_id n' = n_text_id n
  ∧ ∀ x, x ∈ n_connections n'
         ↔ x ∈ n_connections n
           ∧ ¬ (x ∈ l ∧ ∃ e, es !! x = Some e ∧ (e_a e = r ∨ e_b e = r)).

(** Whether an id contains the separator of the listbox rows. *)
Fixpoint has_bar (s : string) : bool :=
  match s with
  | EmptyString => false
  | String ch rest => Ascii.eqb ch "|"%char || has_bar rest
  end.

(** ** Example data *)

(** Oracles for the examples: the [k]-th uuid and the [k]-th time stamp. *)
Definition digit (k : nat) : string := String (ascii_of_nat (48 + k)) "".
Definition demo_uuid (k : nat) : string := "uuid-" +:+ digit k.
Definition demo_now (k : nat) : string := "2024-05-01 10:00:0" +:+ digit k.

Definition full_node (id text : string) (x y : Z) : NodeDoc :=
  mkNodeDoc (Some id) (Some (num x)) (Some (num y)) (Some text)
            (Some (num 160)) (Some (num 52)).

Definition full_edge (id a b : string) : EdgeDoc :=
  mkEdgeDoc (Some id) (Some a) (Some b).

Definition two_nodes_doc : Doc :=
  mkDoc (Some [full_node "n1" "A" 10 10; full_node "n2" "B" 200 10]) (Some []).

Definition other_doc : Doc :=
  mkDoc (Some [full_node "n3" "C" 10 10]) (Some []).

Definition chain_doc : Doc :=
  mkDoc (Some [full_node "n1" "A" 10 10; full_node "n2" "B" 200 10;
               full_node "n3" "C" 400 10])
        (Some [full_edge "e1" "n1" "n2"; full_edge "e2" "n2" "n3"]).

(** Two nodes joined by one edge. *)
Definition linked_doc : Doc :=
  mkDoc (Some [full_node "n1" "A" 10 10; full_node "n2" "B" 200 10])
        (Some [full_edge "e1" "n1" "n2"]).

(** An edge from a node to itself. *)
Definition self_loop_doc : Doc :=
  mkDoc (Some [full_node "n1" "A" 10 10]) (Some [full_edge "e1" "n1" "n1"]).

(** An edge to a node that the document does not have. *)
Definition dangling_doc : Doc :=
  mkDoc (Some [full_node "n1" "A" 10 10; full_node "n2" "B" 200 10])
        (Some [full_edge "e1" "n1" "n2"; full_edge "e2" "n1" "ghost"]).

(** Nodes that leave keys out, and no edge list. *)
Definition sparse_doc : Doc :=
  mkDoc (Some [mkNodeDoc (Some "n1") None None None None None;
               mkNodeDoc None (Some (num 5)) None (Some "B") None (Some (num 30))])
        None.

(** The diagram of [chain_doc], loaded into a new application. *)
Definition chain_app : App := load_from demo_uuid chain_doc init_app.

(** A disk on which user ["ann"] has one saved map, ["m1"], titled
    ["Plan"]; the application has just been started. *)
Definition plan_doc : Doc := mkDoc (Some [full_node "n1" "A" 10 10]) (Some []).

Definition plan_meta : Meta :=
  mkMeta (Some "Plan") (Some "2024-04-01 09:00:00") (Some "2024-04-02 09:30:00").

Definition stored_app : App :=
  set_index_files {["ann" := {["m1" := plan_meta]}]}
    (set_map_files {[("ann", "m1") := plan_doc]} init_app).

(** A session of user ["ann"]: a new map titled ["Chain"], on which two
    nodes are created by double clicks and joined by an edge. *)
Definition session_app : App :=
  new_map_for_user demo_uuid demo_now (Some "Chain") (login_user demo_now "ann" stored_app).

Definition drawing_events : list Event :=
  [DoubleClick (num 100) (num 100); DoubleClick (num 400) (num 100); ClickNode 0;
   CmdStartConnection; Motion; Motion; ClickCanvas [] [6; 3]].

Definition drawn_app : App :=
  foldl (λ a ev, handle demo_uuid demo_now ev a) session_app drawing_events.

(** What a user may try before logging in. *)
Definition logged_out_events : list Event :=
  [DoubleClick (num 100) (num 100); CmdSave (Some "Mine"); CmdNewMap (Some "Mine");
   CmdOpenSelected (Some 0); CmdDeleteMap (Some 0) true;
   CmdOpenDialog (Some ("/tmp/m1.json", "m1", Some plan_doc)); CmdLogout].

(** A stand-in for the digest, and [strip] on strings of ASCII
    characters, whose white space is the characters 9 to 13 and 28 to 32. *)
Definition demo_hash (s : string) : string := "sha256:" +:+ s.

Definition is_space (c : ascii) : bool :=
  let n := nat_of_ascii c in
  (Nat.leb 9 n && Nat.leb n 13) || (Nat.leb 28 n && Nat.leb n 32).

Fixpoint lstrip (s : string) : string :=
  match s with
  | EmptyString => EmptyString
  | String c r => if is_space c then lstrip r else s
  end.

Fixpoint rstrip (s : string) : string :=
  match s with
  | EmptyString => EmptyString
  | String c r =>
      match rstrip r with
      | EmptyString => if is_space c then EmptyString else String c EmptyString
      | r' => String c r'
      end
  end.

Definition ascii_strip (s : string) : string := rstrip (lstrip s).

(** A new installation, and the same after ["bob"] has registered with
    blanks around the name and the password. *)
Definition new_site : Site := mkSite None init_app.

Definition bob_site : Site :=
  (do_register demo_hash ascii_strip " bob" " secret " new_site).2.

(** ** Well-formed canvases and runs *)

(** The objects of the heap are those created so far; every reference
    that the canvas holds names one of them; nodes and edges are stored
    under their own ids; the id of an edge is in the [connections] of both
    its endpoints. *)
Definition canvas_wf (c : Canvas) : Prop :=
  (∀ r, is_Some (heap c !! r) ↔ (r < next_ref c)%nat)
  ∧ map_Forall (λ _ r, (r < next_ref c)%nat) (nodes c)
  ∧ map_Forall (λ _ e, (e_a e < next_ref c)%nat ∧ (e_b e < next_ref c)%nat) (edges c)
  ∧ (∀ r, selected_item c = Some r → (r < next_ref c)%nat)
  ∧ keyed_nodes c ∧ keyed_edges c ∧ connections_complete c.

(** An event of a node can only come from a node object that exists. *)
Definition event_ok (c : Canvas) (ev : Event) : Prop :=
  match ev with
  | ClickNode self | RightClickNode self _ | DragNode self _ _ => (self < next_ref c)%nat
  | _ => True
  end.

(** [run uuid4 now_str a evs a']: the events [evs], handled in turn from
    the state [a], lead to the state [a']. *)
Inductive run (uuid4 now_str : nat → string) : App → list Event → App → Prop :=
| run_nil a : run uuid4 now_str a [] a
| run_cons a ev evs a' :
    event_ok (canvas a) ev →
    run uuid4 now_str (handle uuid4 now_str ev a) evs a' →
    run uuid4 now_str a (ev :: evs) a'.

(** ** The store as the handlers leave it *)

(** The files and the record of the writes are the same in both states. *)
Definition same_store (a a' : App) : Prop :=
  map_files a' = map_files a ∧ index_files a' = index_files a
  ∧ fs_trace a' = fs_trace a.

(** The events whose handlers call one of the writing functions of the
    store: [login_user], [new_map_for_user], [delete_selected_map],
    [open_map_dialog] and [save_map]. *)
Definition writes_store (ev : Event) : bool :=
  match ev with
  | CmdLogin _ | CmdNewMap _ | CmdDeleteMap _ _ | CmdOpenDialog _ | CmdSave _ => true
  | _ => false
  end.

Definition is_login (ev : Event) : bool :=
  match ev with
  | CmdLogin _ => true
  | _ => false
  end.

(** Every event of [evs] is possible in the state in which it arrives. *)
Fixpoint events_ok (uuid4 now_str : nat → string) (a : App) (evs : list Event) : Prop :=
  match evs with
  | [] => True
  | ev :: evs' =>
      event_ok (canvas a) ev ∧ events_ok uuid4 now_str (handle uuid4 now_str ev a) evs'
  end.

(** * Properties *)

Section Properties.

Variable uuid4 : nat → string.
Variable now_str : nat → string.

Lemma deref_update_node c r f r' :
  deref (update_node r f c) r' =
  if decide (r' = r) then from_option f null_node (heap c !! r) else deref c r'.
Proof.
  unfold deref, update_node; simpl.
  destruct (decide (r' = r)) as [->|Hne].
  - rewrite lookup_alter_eq. by destruct (heap c !! r).
  - by rewrite lookup_alter_ne.
Qed.

Lemma n_id_update_node c r f r' :
  (∀ n, n_id (f n) = n_id n) →
  n_id (deref (update_node r f c) r') = n_id (deref c r').
Proof.
  intros Hf. rewrite deref_update_node. case_decide; [subst|done].
  unfold deref. destruct (heap c !! r); simpl; auto.
Qed.

(** C9.  Dragging a node changes the position of that node object and
    nothing else: every other object, the node map and the edge map are
    the same, so the serialized edges (ids and endpoint ids) are the same
    and so is the serialized form of every other node. *)
Theorem on_drag_moves_only_that_node (a : App) (self : ref) (ex ey : number) (n : Node) :
  heap (canvas a) !! self = Some n →
  let a' := Node_on_drag self ex ey a in
  heap (canvas a') !! self
    = Some (node_set_pos (ex - n_width n / num 2)%Q (ey - n_height n / num 2)%Q n)
  ∧ (∀ r, r ≠ self → heap (canvas a') !! r = heap (canvas a) !! r)
  ∧ nodes (canvas a') = nodes (canvas a)
  ∧ edges (canvas a') = edges (canvas a)
  ∧ doc_edges (serialize (canvas a')) = doc_edges (serialize (canvas a))
  ∧ edge_view (canvas a') = edge_view (canvas a)
  ∧ (∀ k r, nodes (canvas a) !! k = Some r → r ≠ self →
       node_view (canvas a') !! k = node_view (canvas a) !! k).
Proof.
  intros Hn a'. subst a'. unfold Node_on_drag, on_canvas. simpl.
  assert (Hd : deref (canvas a) self = n) by (unfold deref; by rewrite Hn).
  rewrite Hd.
  set (f := node_set_pos _ _).
  assert (Hid : ∀ r, n_id (deref (update_node self f (canvas a)) r) = n_id (deref (canvas a) r))
    by (intros r; by apply n_id_update_node).
  assert (Hes : ∀ e, Edge_serialize (update_node self f (canvas a)) e = Edge_serialize (canvas a) e)
    by (intros e; unfold Edge_serialize; by rewrite !Hid).
  repeat split.
  - by rewrite lookup_alter_eq, Hn.
  - intros r Hr. by rewrite lookup_alter_ne.
  - f_equal. apply list_fmap_ext. intros _ ke _. apply Hes.
  - unfold edge_view. simpl. apply map_fmap_ext. intros k e _. apply Hes.
  - intros k r Hk Hr. unfold node_view. simpl. rewrite !lookup_fmap, Hk. simpl.
    rewrite deref_update_node. by case_decide.
Qed.

(** *** The document store *)

Lemma insert_desc_perm x l : insert_desc x l ≡ₚ x :: l.
Proof.
  induction l as [|y l IH]; simpl; [done|].
  destruct (String.ltb _ _); [done|].
  rewrite IH. apply Permutation_swap.
Qed.

Lemma sorted_desc_perm l : sorted_desc l ≡ₚ l.
Proof.
  unfold sorted_desc.
  assert (H : ∀ acc, foldl (λ acc x, insert_desc x acc) acc l ≡ₚ l ++ acc).
  { induction l as [|x l IH]; intros acc; simpl; [done|].
    rewrite IH, insert_desc_perm. by rewrite Permutation_middle. }
  by rewrite H, app_nil_r.
Qed.


Lemma refresh_maps_list_files (a : App) :
  map_files (refresh_maps_list a) = map_files a
  ∧ index_files (refresh_maps_list a) = index_files a
  ∧ fs_trace (refresh_maps_list a) = fs_trace a
  ∧ current_user (refresh_maps_list a) = current_user a.
Proof. unfold refresh_maps_list. by destruct (nonempty _). Qed.

Lemma load_index_refresh u (a : App) :
  load_user_maps_index u (refresh_maps_list a) = load_user_maps_index u a.
Proof. unfold load_user_maps_index. by rewrite (proj1 (proj2 (refresh_maps_list_files a))). Qed.


Lemma split_bar_head_row (mid rest : string) :
  has_bar mid = false → split_bar_head (mid +:+ "|" +:+ rest) = mid.
Proof.
  induction mid as [|ch mid IH]; simpl; [done|].
  destruct (Ascii.eqb ch "|") eqn:E; simpl; [done|].
  intros H. by rewrite IH.
Qed.

(** A map of the index whose id is free of the separator has a row in the
    refreshed listbox, and the id read back from that row is its id. *)
Lemma refreshed_row_parses (a : App) (u mid : string) (m : Meta) :
  nonempty (current_user a) = Some u →
  load_user_maps_index u a !! mid = Some m →
  has_bar mid = false →
  ∃ i val, maps_list (refresh_maps_list a) !! i = Some val ∧ split_bar_head val = mid.
Proof.
  intros Hu Hm Hb. unfold refresh_maps_list. rewrite Hu. simpl.
  assert (Hin : (mid, m) ∈ list_maps u a).
  { unfold list_maps. rewrite sorted_desc_perm. by apply elem_of_map_to_list. }
  apply list_elem_of_lookup in Hin as [i Hi].
  exists i, (list_row (mid, m)). split.
  - by rewrite list_lookup_fmap, Hi.
  - unfold list_row. simpl. by apply split_bar_head_row.
Qed.


Lemma save_map_prepare_frame (reply : option string) (a a1 : App) :
  save_map_prepare uuid4 now_str reply a = Some a1 →
  canvas a1 = canvas a ∧ current_user a1 = current_user a
  ∧ map_files a1 = map_files a ∧ index_files a1 = index_files a
  ∧ fs_trace a1 = fs_trace a
  ∧ (∀ mid, nonempty (current_map_id a) = Some mid → a1 = a).
Proof.
  unfold save_map_prepare. destruct (nonempty (current_map_id a)) eqn:E.
  - intros [= <-]. split_and!; auto.
  - destruct reply; [|done]. intros [= <-]. simpl. split_and!; auto. done.
Qed.

(** X23.  A save that goes through writes the file of the map and after it the
    index with the entry of the map; the entry carries the time of the
    save as [modified], and as [created] the value that the metadata of
    the session holds, or the time of the save when they hold none. *)
Lemma save_map_writes_body_then_index (reply : option string) (a a1 : App) (u : string) :
  nonempty (current_user a) = Some u →
  save_map_prepare uuid4 now_str reply a = Some a1 →
  let mid := default "" (current_map_id a1) in
  let session := meta_or_empty (current_map_meta a1) in
  let meta := (stamp now_str session (clock a1)).1 in
  let a' := save_map uuid4 now_str reply a in
  (∃ pre, (pre = [] ∨ pre = [WriteIndex u ∅])
     ∧ fs_trace a' = fs_trace a ++ pre
         ++ [WriteMap u mid (serialize (canvas a));
             WriteIndex u (<[mid := meta]> (load_user_maps_index u a))])
  ∧ map_files a' !! (u, mid) = Some (serialize (canvas a))
  ∧ load_user_maps_index u a' !! mid = Some meta
  ∧ m_modified meta = Some (now_str (clock a1))
  ∧ m_created meta = Some (default (now_str (S (clock a1))) (m_created session))
  ∧ m_title meta = m_title session.
Proof.
  intros Hu Hp mid session meta a'. subst a'. unfold save_map. rewrite Hu, Hp.
  destruct (save_map_prepare_frame _ _ _ Hp) as (Hc & Hcu & Hmf & Hif & Hft & _).
  fold mid. fold session.
  assert (Hst : stamp now_str session (clock a1) = (meta, (stamp now_str session (clock a1)).2))
    by (unfold meta; by destruct (stamp _ _ _)).
  set (a2 := save_map_file u mid (serialize (canvas a1)) a1).
  assert (Hidx : load_user_maps_index u a2 = load_user_maps_index u a).
  { unfold a2, save_map_file, ensure_user_folders, load_user_maps_index. rewrite Hif.
    destruct (index_files a !! u) eqn:E; simpl; [by rewrite Hif, E|].
    by rewrite lookup_insert_eq. }
  assert (Htr : ∃ pre, (pre = [] ∨ pre = [WriteIndex u ∅])
       ∧ fs_trace a2 = fs_trace a ++ pre ++ [WriteMap u mid (serialize (canvas a))]).
  { unfold a2, save_map_file, ensure_user_folders. rewrite Hif, Hc.
    destruct (index_files a !! u); simpl; rewrite Hft.
    - exists []. by split; [left|].
    - exists [WriteIndex u ∅]. split; [by right|]. by rewrite <- app_assoc. }
  assert (Hm2 : map_files a2 !! (u, mid) = Some (serialize (canvas a))).
  { unfold a2, save_map_file. simpl. by rewrite lookup_insert_eq, Hc. }
  assert (Hcl : clock a2 = clock a1 ∧ current_map_meta a2 = current_map_meta a1).
  { unfold a2, save_map_file, ensure_user_folders. by destruct (index_files a1 !! u). }
  destruct Hcl as [Hcl Hmm]. rewrite Hidx, Hmm, Hcl. fold session. rewrite Hst.
  set (a3 := set_log_clock _ _ a2).
  set (a4 := match current_map_meta a3 with Some _ => _ | None => a3 end).
  assert (H4 : map_files a4 = map_files a2 ∧ index_files a4 = index_files a2
               ∧ fs_trace a4 = fs_trace a2).
  { unfold a4. destruct (current_map_meta a3) as [m|]; [|done]. by destruct (meta_truthy m). }
  destruct H4 as (H4m & H4i & H4t).
  set (a5 := save_user_maps_index u _ a4).
  destruct (refresh_maps_list_files a5) as (Hrm & Hri & Hrt & _).
  simpl. split_and!.
  - destruct Htr as (pre & Hpre & Htr). exists pre. split; [done|].
    rewrite Hrt. unfold a5. simpl. rewrite H4t, Htr. by rewrite <- !app_assoc.
  - rewrite Hrm. unfold a5. simpl. by rewrite H4m.
  - unfold load_user_maps_index. simpl. rewrite Hri. unfold a5. simpl.
    by rewrite lookup_insert_eq; simpl; rewrite lookup_insert_eq.
  - unfold meta, stamp. by destruct (m_created session).
  - unfold meta, stamp. by destruct (m_created session).
  - unfold meta, stamp. by destruct (m_created session).
Qed.

(** *** Connecting two nodes *)

Lemma hit_target_ext (c c' : Canvas) (its : list item) :
  nodes c = nodes c' → heap c = heap c' → hit_target c its = hit_target c' its.
Proof.
  intros Hn Hh. induction its as [|it its IH]; simpl; [done|].
  unfold node_of_item, owns, deref. by rewrite Hn, Hh, IH.
Qed.

Lemma or_uuid_None (a : App) :
  or_uuid uuid4 None a = (uuid4 (uuid_calls a), set_uuid_calls (S (uuid_calls a)) a).
Proof. done. Qed.

(** The outcome of [finish_connection] when the click hits a node other
    than the selected one. *)
Lemma finish_connection_creates (its : list item) (a : App) (sel target : ref) :
  selected_item (canvas a) = Some sel →
  hit_target (canvas a) its = Some target →
  target ≠ sel →
  let eid := uuid4 (uuid_calls a) in
  let a' := finish_connection uuid4 now_str its a in
  edges (canvas a') = <[eid := mkEdge eid sel target (next_item (canvas a))]> (edges (canvas a))
  ∧ nodes (canvas a') = nodes (canvas a)
  ∧ heap (canvas a')
    = alter (node_add_connection eid) target
        (alter (node_add_connection eid) sel (heap (canvas a)))
  ∧ selected_item (canvas a') = Some sel
  ∧ temp_line (canvas a') = None
  ∧ (∀ l, temp_line (canvas a) = Some l → l ∉ items (canvas a'))
  ∧ button1 (canvas a') = OnSingle
  ∧ motion_bound (canvas a') = false.
Proof.
  intros Hsel Hhit Hne eid a'. subst a'. unfold finish_connection.
  rewrite Hhit, Hsel. rewrite bool_decide_eq_true_2 by done.
  unfold Edge_init. rewrite or_uuid_None. simpl.
  unfold end_connection. simpl.
  destruct (temp_line (canvas a)) as [l|] eqn:Hl; simpl; split_and!; try done.
  intros l' Heq. simplify_eq. rewrite elem_of_difference, elem_of_singleton. tauto.
Qed.

(** The outcome of [finish_connection] when the click hits no node or the
    selected node: the diagram is as before. *)
Lemma finish_connection_aborts (its : list item) (a : App) :
  hit_target (canvas a) its = None
  ∨ (is_Some (hit_target (canvas a) its)
     ∧ hit_target (canvas a) its = selected_item (canvas a)) →
  let a' := finish_connection uuid4 now_str its a in
  edges (canvas a') = edges (canvas a)
  ∧ nodes (canvas a') = nodes (canvas a)
  ∧ heap (canvas a') = heap (canvas a)
  ∧ log_text a' = log_text a
       ++ ["[" +:+ now_str (clock a) +:+ "] " +:+ "Connection aborted or clicked same node."]
  ∧ temp_line (canvas a') = None
  ∧ button1 (canvas a') = OnSingle.
Proof.
  intros H a'. subst a'. unfold finish_connection.
  destruct H as [Hn | [[t Ht] He]].
  - rewrite Hn. unfold end_connection. simpl.
    by destruct (temp_line (canvas a)) eqn:E; simpl; rewrite ?E.
  - rewrite Ht in He |- *. rewrite <- He.
    rewrite bool_decide_eq_false_2 by (intros Hx; by apply Hx).
    unfold end_connection. simpl.
    by destruct (temp_line (canvas a)) eqn:E; simpl; rewrite ?E.
Qed.

Lemma follow_mouse_frame (a : App) :
  let a' := follow_mouse a in
  heap (canvas a') = heap (canvas a) ∧ nodes (canvas a') = nodes (canvas a)
  ∧ edges (canvas a') = edges (canvas a)
  ∧ selected_item (canvas a') = selected_item (canvas a)
  ∧ button1 (canvas a') = button1 (canvas a)
  ∧ motion_bound (canvas a') = motion_bound (canvas a)
  ∧ uuid_calls a' = uuid_calls a.
Proof.
  unfold follow_mouse.
  destruct (temp_line (canvas a)); simpl;
    by destruct (selected_item (canvas a)) eqn:E; simpl; rewrite ?E.
Qed.

Lemma follow_mouse_iter_frame (k : nat) (a : App) :
  let a' := Nat.iter k follow_mouse a in
  heap (canvas a') = heap (canvas a) ∧ nodes (canvas a') = nodes (canvas a)
  ∧ edges (canvas a') = edges (canvas a)
  ∧ selected_item (canvas a') = selected_item (canvas a)
  ∧ button1 (canvas a') = button1 (canvas a)
  ∧ motion_bound (canvas a') = motion_bound (canvas a)
  ∧ uuid_calls a' = uuid_calls a.
Proof.
  induction k as [|k IH]; simpl; [done|].
  destruct (follow_mouse_frame (Nat.iter k follow_mouse a)) as (-> & -> & -> & -> & -> & -> & ->).
  exact IH.
Qed.

(** A click on a node selects it and removes the provisional line; the
    diagram and the bindings of the canvas are as before. *)
Lemma Node_on_click_selects (self : ref) (a : App) :
  let a' := Node_on_click self a in
  selected_item (canvas a') = Some self
  ∧ temp_line (canvas a') = None
  ∧ (∀ l, temp_line (canvas a) = Some l → l ∉ items (canvas a'))
  ∧ nodes (canvas a') = nodes (canvas a)
  ∧ edges (canvas a') = edges (canvas a)
  ∧ heap (canvas a') = heap (canvas a)
  ∧ button1 (canvas a') = button1 (canvas a).
Proof.
  clear uuid4 now_str. unfold Node_on_click. simpl.
  destruct (temp_line (canvas a)) as [l|] eqn:E; simpl; split_and!; try done.
  intros l' Heq. simplify_eq. rewrite elem_of_difference, elem_of_singleton. tauto.
Qed.

Lemma hit_target_in_nodes (c : Canvas) (its : list item) (r : ref) :
  hit_target c its = Some r → ∃ k, nodes c !! k = Some r.
Proof.
  induction its as [|it its IH]; simpl; [done|].
  destruct (node_of_item c it) as [r'|] eqn:E; [|done].
  intros Heq. simplify_eq. unfold node_of_item in E.
  destruct (List.find (owns c it) (map_to_list (nodes c))) as [[k r']|] eqn:F; [|done].
  simpl in E. simplify_eq. apply List.find_some in F as [Hin _].
  exists k. apply elem_of_map_to_list. by apply list_elem_of_In.
Qed.

(** X6.  With a selection that is a node of the diagram, [finish_connection]
    decides as the contract of edge creation asks: the click has to hit a
    node of the diagram whose id is not the id of the selected node. *)
Lemma finish_connection_live_selection (its : list item) (a : App) (sel : ref) :
  keyed_nodes (canvas a) →
  selected_item (canvas a) = Some sel →
  nodes (canvas a) !! n_id (deref (canvas a) sel) = Some sel →
  let a' := finish_connection uuid4 now_str its a in
  match hit_target (canvas a) its with
  | Some target =>
      nodes (canvas a) !! n_id (deref (canvas a) target) = Some target
      ∧ if decide (n_id (deref (canvas a) target) = n_id (deref (canvas a) sel))
        then edges (canvas a') = edges (canvas a) ∧ heap (canvas a') = heap (canvas a)
        else edges (canvas a')
             = <[uuid4 (uuid_calls a) :=
                   mkEdge (uuid4 (uuid_calls a)) sel target (next_item (canvas a))]>
                 (edges (canvas a))
  | None => edges (canvas a') = edges (canvas a) ∧ heap (canvas a') = heap (canvas a)
  end.
Proof.
  intros Kn Hsel Hlive a'.
  destruct (hit_target (canvas a) its) as [target|] eqn:Hhit.
  - destruct (hit_target_in_nodes _ _ _ Hhit) as [k Hk].
    destruct (Kn k target Hk) as [Hid _].
    split; [by rewrite Hid|].
    case_decide as Hd.
    + assert (target = sel) as ->.
      { rewrite <- Hid, Hd, Hlive in Hk. congruence. }
      destruct (finish_connection_aborts its a) as (He & _ & Hh & _).
      { right. rewrite Hhit, Hsel. split; [by eexists|done]. }
      done.
    + assert (Hne : target ≠ sel) by (intros ->; done).
      by destruct (finish_connection_creates its a sel target Hsel Hhit Hne) as (He & _).
  - destruct (finish_connection_aborts its a) as (He & _ & Hh & _); [by left|done].
Qed.

(** C2.  After [start_connection] with the node [src] selected and any
    number of pointer motions, the canvas is in connecting mode, and a
    click that hits a node [target] other than [src] adds one edge from
    [src] to [target] under a new id, registers the id with both nodes,
    removes the provisional line and binds the idle handlers again. *)
Theorem connecting_click_creates_edge (a : App) (k : nat) (its : list item) (src target : ref) :
  selected_item (canvas a) = Some src →
  hit_target (canvas a) its = Some target →
  target ≠ src →
  let connecting := Nat.iter k follow_mouse (start_connection now_str a) in
  let eid := uuid4 (uuid_calls a) in
  let a' := finish_connection uuid4 now_str its connecting in
  button1 (canvas connecting) = FinishConnection
  ∧ (∃ line, edges (canvas a') = <[eid := mkEdge eid src target line]> (edges (canvas a)))
  ∧ (edges (canvas a) !! eid = None →
       size (edges (canvas a')) = S (size (edges (canvas a))))
  ∧ nodes (canvas a') = nodes (canvas a)
  ∧ heap (canvas a')
    = alter (node_add_connection eid) target
        (alter (node_add_connection eid) src (heap (canvas a)))
  ∧ temp_line (canvas a') = None
  ∧ (∀ l, temp_line (canvas connecting) = Some l → l ∉ items (canvas a'))
  ∧ button1 (canvas a') = OnSingle
  ∧ motion_bound (canvas a') = false.
Proof.
  intros Hsel Hhit Hne connecting eid a'.
  destruct (follow_mouse_iter_frame k (start_connection now_str a))
    as (Hh & Hn & He & Hs & Hb & Hm & Hu).
  fold connecting in Hh, Hn, He, Hs, Hb, Hm, Hu.
  assert (Hst : heap (canvas (start_connection now_str a)) = heap (canvas a)
                ∧ nodes (canvas (start_connection now_str a)) = nodes (canvas a)
                ∧ edges (canvas (start_connection now_str a)) = edges (canvas a)
                ∧ selected_item (canvas (start_connection now_str a)) = Some src
                ∧ button1 (canvas (start_connection now_str a)) = FinishConnection
                ∧ uuid_calls (start_connection now_str a) = uuid_calls a).
  { unfold start_connection. by rewrite Hsel. }
  destruct Hst as (Hh0 & Hn0 & He0 & Hs0 & Hb0 & Hu0).
  rewrite Hh0 in Hh. rewrite Hn0 in Hn. rewrite He0 in He. rewrite Hs0 in Hs.
  rewrite Hb0 in Hb. rewrite Hu0 in Hu.
  assert (Hhit' : hit_target (canvas connecting) its = Some target)
    by (by rewrite (hit_target_ext _ (canvas a))).
  destruct (finish_connection_creates its connecting src target Hs Hhit' Hne)
    as (Fe & Fn & Fh & _ & Ft & Fl & Fb & Fm).
  fold a' in Fe, Fn, Fh, Ft, Fl, Fb, Fm.
  rewrite Hu, He in Fe. rewrite Hn in Fn. rewrite Hu, Hh in Fh. fold eid in Fe, Fh.
  split_and!; try done.
  - eauto.
  - intros Hfresh. rewrite Fe. by apply map_size_insert_None.
Qed.

(** *** Loading a document *)

Lemma or_uuid_eq (x : option string) (a : App) :
  or_uuid uuid4 x a
  = (default (uuid4 (uuid_calls a)) (nonempty x),
     match nonempty x with
     | Some _ => a
     | None => set_uuid_calls (S (uuid_calls a)) a
     end).
Proof. unfold or_uuid, nonempty, fresh_uuid. destruct x as [s|]; [|done]. by destruct (truthy s). Qed.

Lemma or_uuid_frame (x : option string) (a : App) :
  canvas (or_uuid uuid4 x a).2 = canvas a
  ∧ log_text (or_uuid uuid4 x a).2 = log_text a
  ∧ uuid_calls (or_uuid uuid4 x a).2
    = match nonempty x with Some _ => uuid_calls a | None => S (uuid_calls a) end.
Proof. rewrite or_uuid_eq. simpl. by destruct (nonempty x). Qed.

Lemma load_node_eq (m : gmap string ref) (a : App) (nd : NodeDoc) :
  let c := canvas a in
  let id := default (uuid4 (uuid_calls a)) (nonempty (nd_id nd)) in
  let r := next_ref c in
  load_node uuid4 (m, a) nd
  = (<[id := r]> m,
     set_canvas
       (mkCanvas (<[r := loaded_node nd id (next_item c)]> (heap c)) (S r)
                 (<[id := r]> (nodes c)) (edges c) (selected_item c) (temp_line c)
                 ({[S (next_item c)]} ∪ ({[next_item c]} ∪ items c))
                 (S (S (next_item c))) (button1 c) (motion_bound c))
       (or_uuid uuid4 (nd_id nd) a).2).
Proof.
  intros c id r. subst c id r. unfold load_node, Node_init.
  rewrite or_uuid_eq.
  destruct (nonempty (nd_id nd)); simpl;
    unfold on_canvas, update_node, deref; simpl;
    rewrite !lookup_insert_eq; simpl; by rewrite alter_insert_eq.
Qed.

Lemma load_edge_eq (m : gmap string ref) (a : App) (ed : EdgeDoc) :
  let c := canvas a in
  let id := default (uuid4 (uuid_calls a)) (nonempty (ed_id ed)) in
  load_edge uuid4 m a ed
  = match id_map_get m (ed_a ed), id_map_get m (ed_b ed) with
    | Some x, Some y =>
        set_canvas
          (mkCanvas (alter (node_add_connection id) y
                       (alter (node_add_connection id) x (heap c)))
                    (next_ref c) (nodes c)
                    (<[id := mkEdge id x y (next_item c)]> (edges c))
                    (selected_item c) (temp_line c)
                    ({[next_item c]} ∪ items c) (S (next_item c))
                    (button1 c) (motion_bound c))
          (or_uuid uuid4 (ed_id ed) a).2
    | _, _ => a
    end.
Proof.
  intros c id. subst c id. unfold load_edge, Edge_init.
  destruct (id_map_get m (ed_a ed)) as [x|]; [|done].
  destruct (id_map_get m (ed_b ed)) as [y|]; [|done].
  rewrite or_uuid_eq. by destruct (nonempty (ed_id ed)).
Qed.

Lemma assigned_ids_cons (k : nat) (nd : NodeDoc) (l : list NodeDoc) (a : App) :
  uuid_calls a = k →
  assigned_ids uuid4 k (nd :: l)
  = default (uuid4 k) (nonempty (nd_id nd))
    :: assigned_ids uuid4 (uuid_calls (or_uuid uuid4 (nd_id nd) a).2) l.
Proof.
  intros <-. destruct (or_uuid_frame (nd_id nd) a) as (_ & _ & ->).
  simpl. by destruct (nonempty (nd_id nd)).
Qed.

(** The first loop of [load_from], from any state. *)
Lemma load_nodes_spec (l : list NodeDoc) (m : gmap string ref) (a : App) :
  let st := foldl (load_node uuid4) (m, a) l in
  let ids := assigned_ids uuid4 (uuid_calls a) l in
  (next_ref (canvas a) ≤ next_ref (canvas st.2))%nat
  ∧ (∀ r, (r < next_ref (canvas a))%nat →
       heap (canvas st.2) !! r = heap (canvas a) !! r)
  ∧ (∀ k, k ∉ ids →
       nodes (canvas st.2) !! k = nodes (canvas a) !! k ∧ st.1 !! k = m !! k)
  ∧ (∀ k, k ∈ ids →
       ∃ r n, nodes (canvas st.2) !! k = Some r ∧ st.1 !! k = Some r
              ∧ (next_ref (canvas a) ≤ r < next_ref (canvas st.2))%nat
              ∧ heap (canvas st.2) !! r = Some n ∧ n_id n = k)
  ∧ edges (canvas st.2) = edges (canvas a)
  ∧ log_text st.2 = log_text a
  ∧ selected_item (canvas st.2) = selected_item (canvas a).
Proof.
  revert m a. induction l as [|nd l IH]; intros m a st ids.
  { subst st ids. simpl. split_and!; try done.
    intros k Hk. by apply elem_of_nil in Hk. }
  subst st ids. change (foldl (load_node uuid4) (m, a) (nd :: l)) with (foldl (load_node uuid4) (load_node uuid4 (m, a) nd) l). rewrite load_node_eq.
  set (id := default _ (nonempty (nd_id nd))).
  set (r := next_ref (canvas a)).
  match goal with |- context [foldl _ (?m1, ?a1) l] => set (M1 := m1); set (A1 := a1) end.
  rewrite (assigned_ids_cons _ nd l a eq_refl). fold id.
  destruct (or_uuid_frame (nd_id nd) a) as (Hc & Hlog & Hu).
  assert (HuA : uuid_calls A1 = uuid_calls (or_uuid uuid4 (nd_id nd) a).2) by done.
  rewrite <- HuA.
  destruct (IH M1 A1) as (I1 & I2 & I3 & I4 & I5 & I6 & I7).
  set (st := foldl (load_node uuid4) (M1, A1) l) in *.
  assert (Hnr : next_ref (canvas A1) = S r) by done.
  assert (Hh : heap (canvas A1) = <[r := loaded_node nd id (next_item (canvas a))]> (heap (canvas a)))
    by done.
  assert (Hn : nodes (canvas A1) = <[id := r]> (nodes (canvas a))) by done.
  rewrite Hnr in I1, I2, I4.
  split_and!.
  - lia.
  - intros r' Hr'. rewrite I2 by lia. rewrite Hh. apply lookup_insert_ne. lia.
  - intros k Hk. apply not_elem_of_cons in Hk as [Hne Hk].
    destruct (I3 k Hk) as [-> ->]. rewrite Hn. unfold M1.
    by rewrite !lookup_insert_ne.
  - intros k Hk.
    destruct (decide (k ∈ assigned_ids uuid4 (uuid_calls A1) l)) as [Hin|Hnin].
    + destruct (I4 k Hin) as (r' & n & H1 & H2 & H3 & H4 & H5).
      exists r', n. split_and!; try done; lia.
    + apply elem_of_cons in Hk as [->|Hk]; [|done].
      destruct (I3 id Hnin) as [Ha Hb].
      exists r, (loaded_node nd id (next_item (canvas a))). split_and!.
      * etrans; [exact Ha|]. by rewrite Hn, lookup_insert_eq.
      * etrans; [exact Hb|]. unfold M1. by rewrite lookup_insert_eq.
      * done.
      * lia.
      * rewrite I2 by lia. by rewrite Hh, lookup_insert_eq.
      * done.
  - by rewrite I5.
  - by rewrite I6.
  - by rewrite I7.
Qed.

Lemma foldl_items_only {A} (f : Canvas → A → Canvas) (l : list A) (c : Canvas) :
  (∀ c x, ∃ s, f c x = set_items s c) → ∃ s, foldl f c l = set_items s c.
Proof.
  intros Hf. revert c. induction l as [|x l IH]; intros c; simpl.
  - exists (items c). by destruct c.
  - destruct (Hf c x) as [s ->]. destruct (IH (set_items s c)) as [s' ->]. by exists s'.
Qed.

Lemma clear_frame (c : Canvas) :
  heap (clear c) = heap c ∧ next_ref (clear c) = next_ref c
  ∧ nodes (clear c) = ∅ ∧ edges (clear c) = ∅
  ∧ selected_item (clear c) = selected_item c
  ∧ temp_line (clear c) = temp_line c.
Proof.
  unfold clear.
  destruct (foldl_items_only
              (λ c kr, delete_item (n_text_id (deref c kr.2))
                         (delete_item (n_rect (deref c kr.2)) c))
              (map_to_list (nodes c)) c) as [s ->].
  { intros c' x. by eexists. }
  destruct (foldl_items_only (λ c' (ke : string * Edge), delete_item (e_line ke.2) c')
              (map_to_list (edges (set_items s c))) (set_items s c)) as [s' ->].
  { intros c' x. by eexists. }
  done.
Qed.

(** The second loop of [load_from], from any state. *)
Lemma load_edges_spec (m : gmap string ref) (l : list EdgeDoc) (a : App) :
  let a' := foldl (load_edge uuid4 m) a l in
  let ids := edge_ids uuid4 m (uuid_calls a) l in
  nodes (canvas a') = nodes (canvas a)
  ∧ log_text a' = log_text a
  ∧ selected_item (canvas a') = selected_item (canvas a)
  ∧ (∀ r, Node_serialize <$> heap (canvas a') !! r = Node_serialize <$> heap (canvas a) !! r)
  ∧ (∀ k, k ∉ ids → edges (canvas a') !! k = edges (canvas a) !! k)
  ∧ (∀ k, k ∈ ids →
       ∃ e ka kb, edges (canvas a') !! k = Some e ∧ e_id e = k
                  ∧ m !! ka = Some (e_a e) ∧ m !! kb = Some (e_b e)).
Proof.
  revert a. induction l as [|ed l IH]; intros a a' ids.
  { subst a' ids. simpl. split_and!; try done. intros k Hk. by apply elem_of_nil in Hk. }
  subst a' ids.
  change (foldl (load_edge uuid4 m) a (ed :: l))
    with (foldl (load_edge uuid4 m) (load_edge uuid4 m a ed) l).
  destruct (IH (load_edge uuid4 m a ed)) as (I1 & I2 & I3 & I4 & I5 & I6).
  revert I1 I2 I3 I4 I5 I6.
  rewrite load_edge_eq. simpl edge_ids. unfold resolves.
  destruct (or_uuid_frame (ed_id ed) a) as (Hc & Hlog & Hu).
  destruct (id_map_get m (ed_a ed)) as [x|] eqn:Hx; [|done].
  destruct (id_map_get m (ed_b ed)) as [y|] eqn:Hy; [|done].
  set (id := default _ (nonempty (ed_id ed))).
  match goal with |- context [foldl _ ?a1 l] => set (A1 := a1) end.
  assert (Hids : (match nonempty (ed_id ed) with
           | Some s => s :: edge_ids uuid4 m (uuid_calls a) l
           | None => uuid4 (uuid_calls a) :: edge_ids uuid4 m (S (uuid_calls a)) l
           end) = id :: edge_ids uuid4 m (uuid_calls A1) l).
  { unfold id. change (uuid_calls A1) with (uuid_calls (or_uuid uuid4 (ed_id ed) a).2).
    rewrite Hu. by destruct (nonempty (ed_id ed)). }
  rewrite Hids.
  intros I1 I2 I3 I4 I5 I6. split_and!.
  - by rewrite I1.
  - by rewrite I2.
  - by rewrite I3.
  - intros r. rewrite I4. change (heap (canvas A1))
      with (alter (node_add_connection id) y
              (alter (node_add_connection id) x (heap (canvas a)))).
    rewrite !lookup_alter. repeat case_decide; subst;
      by destruct (heap (canvas a) !! _).
  - intros k Hk. apply not_elem_of_cons in Hk as [Hne Hk].
    rewrite I5 by done.
    change (edges (canvas A1)) with (<[id := mkEdge id x y (next_item (canvas a))]> (edges (canvas a))).
    by rewrite lookup_insert_ne.
  - intros k Hk.
    destruct (decide (k ∈ edge_ids uuid4 m (uuid_calls A1) l)) as [Hin|Hnin]; [by apply I6|].
    apply elem_of_cons in Hk as [->|Hk]; [|done].
    destruct (ed_a ed) as [ka|]; [|done]. destruct (ed_b ed) as [kb|]; [|done].
    exists (mkEdge id x y (next_item (canvas a))), ka, kb. split_and!; [|done..].
    rewrite I5 by done.
    change (edges (canvas A1)) with (<[id := mkEdge id x y (next_item (canvas a))]> (edges (canvas a))).
    by rewrite lookup_insert_eq.
Qed.

Lemma load_from_eq (data : Doc) (a : App) :
  let st := foldl (load_node uuid4) (∅, on_canvas clear a) (default [] (doc_nodes data)) in
  load_from uuid4 data a = foldl (load_edge uuid4 st.1) st.2 (default [] (doc_edges data)).
Proof. unfold load_from. by destruct (foldl _ _ _). Qed.

(** The state of the first loop of [load_from] after one more entry. *)
Lemma load_nodes_entry (l1 l2 : list NodeDoc) (nd : NodeDoc) (st0 : gmap string ref * App) :
  let st1 := foldl (load_node uuid4) st0 l1 in
  let r := next_ref (canvas st1.2) in
  let id := default (uuid4 (uuid_calls st1.2)) (nonempty (nd_id nd)) in
  let later := assigned_ids uuid4 (uuid_calls (or_uuid uuid4 (nd_id nd) st1.2).2) l2 in
  let st := foldl (load_node uuid4) st0 (l1 ++ nd :: l2) in
  heap (canvas st.2) !! r = Some (loaded_node nd id (next_item (canvas st1.2)))
  ∧ is_Some (nodes (canvas st.2) !! id)
  ∧ (id ∉ later → nodes (canvas st.2) !! id = Some r ∧ st.1 !! id = Some r).
Proof.
  intros st1 r id later st. subst st. rewrite foldl_app. fold st1.
  change (foldl (load_node uuid4) st1 (nd :: l2))
    with (foldl (load_node uuid4) (load_node uuid4 st1 nd) l2).
  rewrite (surjective_pairing st1), load_node_eq. fold r. fold id.
  match goal with |- context [foldl _ (?m1, ?a1) l2] => set (M1 := m1); set (A1 := a1) end.
  destruct (load_nodes_spec l2 M1 A1) as (_ & I2 & I3 & I4 & _).
  change (uuid_calls A1) with (uuid_calls (or_uuid uuid4 (nd_id nd) st1.2).2) in I3, I4.
  fold later in I3, I4.
  change (next_ref (canvas A1)) with (S r) in I2.
  split_and!.
  - rewrite I2 by lia. apply lookup_insert_eq.
  - destruct (decide (id ∈ later)) as [Hin|Hnin].
    + destruct (I4 id Hin) as (r' & n & Hx & _). exists r'. exact Hx.
    + destruct (I3 id Hnin) as [Hx _]. exists r.
      etrans; [exact Hx|]. apply lookup_insert_eq.
  - intros Hnin. destruct (I3 id Hnin) as [Hx Hy].
    split; (etrans; [eassumption|]); apply lookup_insert_eq.
Qed.

(** C10.  [load_from] is a total function of the document, and every
    entry of the node list yields a node object.  The object has the id of
    the entry (a new uuid when the entry has none), and for each of [x],
    [y], [text], [width] and [height] the value of the entry or, when the
    key is missing, 10, 10, ["New Node"], 160 and 52.  Its id is a key of
    [nodes] when the load ends, and it is the node under that key unless a
    later entry of the list has the same id. *)
Theorem load_from_node_defaults (data : Doc) (a : App) (l1 l2 : list NodeDoc) (nd : NodeDoc) :
  doc_nodes data = Some (l1 ++ nd :: l2) →
  let st1 := foldl (load_node uuid4) (∅, on_canvas clear a) l1 in
  let r := next_ref (canvas st1.2) in
  let id := default (uuid4 (uuid_calls st1.2)) (nonempty (nd_id nd)) in
  let later := assigned_ids uuid4 (uuid_calls (or_uuid uuid4 (nd_id nd) st1.2).2) l2 in
  let a' := load_from uuid4 data a in
  (∃ n, heap (canvas a') !! r = Some n
        ∧ Node_serialize n
          = mkNodeDoc (Some id)
                      (Some (default (num 10) (nd_x nd)))
                      (Some (default (num 10) (nd_y nd)))
                      (Some (default "New Node" (nd_text nd)))
                      (Some (default (num 160) (nd_width nd)))
                      (Some (default (num 52) (nd_height nd))))
  ∧ is_Some (nodes (canvas a') !! id)
  ∧ (id ∉ later → nodes (canvas a') !! id = Some r).
Proof.
  intros Hd st1 r id later a'. subst a'. rewrite load_from_eq, Hd. simpl default.
  destruct (load_nodes_entry l1 l2 nd (∅, on_canvas clear a)) as (Hh & Hs & Hl).
  fold st1 r id later in Hh, Hs, Hl.
  set (st := foldl (load_node uuid4) (∅, on_canvas clear a) (l1 ++ nd :: l2)) in *.
  destruct (load_edges_spec st.1 (default [] (doc_edges data)) st.2)
    as (En & _ & _ & Eh & _).
  rewrite En. split_and!; [|done|by intros H; apply Hl].
  specialize (Eh r). rewrite Hh in Eh. simpl in Eh.
  destruct (heap (canvas (foldl _ _ _)) !! r) as [n|] eqn:E; [|done].
  exists n. split; [done|]. by apply (inj Some).
Qed.

Lemma load_edge_unresolved (m : gmap string ref) (a : App) (ed : EdgeDoc) :
  resolves m ed = false → load_edge uuid4 m a ed = a.
Proof.
  unfold resolves, load_edge.
  destruct (id_map_get m (ed_a ed)); [|done].
  by destruct (id_map_get m (ed_b ed)).
Qed.

(** After the first loop of [load_from], [id_map] and [nodes] are the
    same map; its keys are the ids given to the entries, and each key is
    the id of the object it names. *)
Lemma load_nodes_id_map (l : list NodeDoc) (a : App) :
  let st := foldl (load_node uuid4) (∅, on_canvas clear a) l in
  st.1 = nodes (canvas st.2)
  ∧ (∀ k, k ∈ assigned_ids uuid4 (uuid_calls a) l ↔ is_Some (st.1 !! k))
  ∧ (∀ k r, st.1 !! k = Some r → ∃ n, heap (canvas st.2) !! r = Some n ∧ n_id n = k).
Proof.
  intros st.
  destruct (load_nodes_spec l ∅ (on_canvas clear a)) as (_ & _ & I3 & I4 & _).
  fold st in I3, I4. change (uuid_calls (on_canvas clear a)) with (uuid_calls a) in I3, I4.
  destruct (clear_frame (canvas a)) as (_ & _ & Hn & _).
  change (nodes (canvas (on_canvas clear a))) with (nodes (clear (canvas a))) in I3.
  rewrite Hn in I3.
  split_and!.
  - apply map_eq. intros k.
    destruct (decide (k ∈ assigned_ids uuid4 (uuid_calls a) l)) as [Hin|Hnin].
    + destruct (I4 k Hin) as (r & n & H1 & H2 & _). congruence.
    + destruct (I3 k Hnin) as [H1 H2]. congruence.
  - intros k. split.
    + intros Hin. destruct (I4 k Hin) as (r & n & _ & H2 & _). by exists r.
    + intros [r Hr]. destruct (decide (k ∈ assigned_ids uuid4 (uuid_calls a) l)); [done|].
      destruct (I3 k n) as [_ H2]. rewrite lookup_empty in H2. congruence.
  - intros k r Hr.
    destruct (decide (k ∈ assigned_ids uuid4 (uuid_calls a) l)) as [Hin|Hnin].
    + destruct (I4 k Hin) as (r' & n & _ & H2 & _ & H4 & H5).
      exists n. split; [|done]. congruence.
    + destruct (I3 k Hnin) as [_ H2]. rewrite lookup_empty in H2. congruence.
Qed.

(** The state of the second loop of [load_from] after one more entry
    whose endpoints resolve. *)
Lemma load_edges_entry (m : gmap string ref) (e1 e2 : list EdgeDoc) (ed : EdgeDoc)
    (a0 : App) (x y : ref) :
  id_map_get m (ed_a ed) = Some x →
  id_map_get m (ed_b ed) = Some y →
  let a1 := foldl (load_edge uuid4 m) a0 e1 in
  let id := default (uuid4 (uuid_calls a1)) (nonempty (ed_id ed)) in
  let later := edge_ids uuid4 m (uuid_calls (or_uuid uuid4 (ed_id ed) a1).2) e2 in
  let a' := foldl (load_edge uuid4 m) a0 (e1 ++ ed :: e2) in
  is_Some (edges (canvas a') !! id)
  ∧ (id ∉ later →
       edges (canvas a') !! id = Some (mkEdge id x y (next_item (canvas a1)))).
Proof.
  intros Hx Hy a1 id later a'. subst a'. rewrite foldl_app. fold a1.
  change (foldl (load_edge uuid4 m) a1 (ed :: e2))
    with (foldl (load_edge uuid4 m) (load_edge uuid4 m a1 ed) e2).
  rewrite load_edge_eq, Hx, Hy. fold id.
  match goal with |- context [foldl _ ?a2 e2] => set (A2 := a2) end.
  destruct (load_edges_spec m e2 A2) as (_ & _ & _ & _ & I5 & I6).
  change (uuid_calls A2) with (uuid_calls (or_uuid uuid4 (ed_id ed) a1).2) in I5, I6.
  fold later in I5, I6.
  assert (He : edges (canvas A2) !! id = Some (mkEdge id x y (next_item (canvas a1))))
    by apply lookup_insert_eq.
  split.
  - destruct (decide (id ∈ later)) as [Hin|Hnin].
    + destruct (I6 id Hin) as (e & ? & ? & Hx' & _). by exists e.
    + eexists. etrans; [exact (I5 id Hnin)|exact He].
  - intros Hnin. etrans; [exact (I5 id Hnin)|exact He].
Qed.

Lemma id_map_get_Some (m : gmap string ref) (k : string) :
  id_map_get m (Some k) = m !! k.
Proof. done. Qed.

(** An entry of the edge list whose endpoints are ids of the node list
    is in the diagram after the load, with these endpoints, unless a later
    entry that is kept has the same id. *)
Lemma load_from_edge_entry (data : Doc) (a : App) (f1 f2 : list EdgeDoc) (ed : EdgeDoc)
    (ka kb : string) :
  doc_edges data = Some (f1 ++ ed :: f2) →
  ed_a ed = Some ka → ed_b ed = Some kb →
  let st := foldl (load_node uuid4) (∅, on_canvas clear a) (default [] (doc_nodes data)) in
  is_Some (st.1 !! ka) → is_Some (st.1 !! kb) →
  let a1 := foldl (load_edge uuid4 st.1) st.2 f1 in
  let id := default (uuid4 (uuid_calls a1)) (nonempty (ed_id ed)) in
  let later := edge_ids uuid4 st.1 (uuid_calls (or_uuid uuid4 (ed_id ed) a1).2) f2 in
  let a' := load_from uuid4 data a in
  is_Some (edges (canvas a') !! id)
  ∧ (id ∉ later →
       edge_view (canvas a') !! id = Some (mkEdgeDoc (Some id) (Some ka) (Some kb))).
Proof.
  intros Hd Ha Hb st [x Hx] [y Hy] a1 id later a'. subst a'.
  rewrite load_from_eq, Hd. simpl default. fold st.
  destruct (load_edges_entry st.1 f1 f2 ed st.2 x y) as [Hs Hl].
  { by rewrite Ha. } { by rewrite Hb. }
  fold a1 id later in Hs, Hl. split; [done|].
  intros Hnin. unfold edge_view. rewrite lookup_fmap, (Hl Hnin). simpl.
  unfold Edge_serialize. simpl.
  destruct (load_nodes_id_map (default [] (doc_nodes data)) a) as (_ & _ & Hk).
  fold st in Hk.
  destruct (load_edges_spec st.1 (f1 ++ ed :: f2) st.2) as (_ & _ & _ & Eh & _).
  assert (Hid : ∀ k r, st.1 !! k = Some r →
            n_id (deref (canvas (foldl (load_edge uuid4 st.1) st.2 (f1 ++ ed :: f2))) r) = k).
  { intros k r Hr. destruct (Hk k r Hr) as (n & Hn & <-).
    specialize (Eh r). rewrite Hn in Eh. unfold deref.
    destruct (heap _ !! r) as [n'|]; [|done]. simpl in *.
    assert (E : Node_serialize n' = Node_serialize n) by (by apply (inj Some)).
    by injection E. }
  by rewrite (Hid _ _ Hx), (Hid _ _ Hy).
Qed.

(** C6, the drop being silent.  An entry of the edge list with an endpoint that is not
    an id of the node list is dropped: the load gives the state that it
    gives for the document without the entry.  No line is written to the
    log.  Every entry of the node list has its id in [nodes], and every
    entry of the edge list whose endpoints resolve is an edge of the
    diagram with these endpoints, unless a later kept entry has its id. *)
Theorem load_from_drops_unresolved_edge (data : Doc) (a : App)
    (e1 e2 : list EdgeDoc) (ed : EdgeDoc) :
  doc_edges data = Some (e1 ++ ed :: e2) →
  let nds := default [] (doc_nodes data) in
  let st := foldl (load_node uuid4) (∅, on_canvas clear a) nds in
  resolves st.1 ed = false →
  let a' := load_from uuid4 data a in
  a' = load_from uuid4 (mkDoc (doc_nodes data) (Some (e1 ++ e2))) a
  ∧ log_text a' = log_text a
  ∧ nodes (canvas a') = st.1
  ∧ (∀ k, k ∈ assigned_ids uuid4 (uuid_calls a) nds ↔ is_Some (nodes (canvas a') !! k))
  ∧ (∀ f1 f2 ed' ka kb,
       e1 ++ ed :: e2 = f1 ++ ed' :: f2 →
       ed_a ed' = Some ka → ed_b ed' = Some kb →
       is_Some (st.1 !! ka) → is_Some (st.1 !! kb) →
       let a1 := foldl (load_edge uuid4 st.1) st.2 f1 in
       let id := default (uuid4 (uuid_calls a1)) (nonempty (ed_id ed')) in
       is_Some (edges (canvas a') !! id)
       ∧ (id ∉ edge_ids uuid4 st.1 (uuid_calls (or_uuid uuid4 (ed_id ed') a1).2) f2 →
            edge_view (canvas a') !! id = Some (mkEdgeDoc (Some id) (Some ka) (Some kb)))).
Proof.
  intros Hd nds st Hres a'.
  destruct (load_nodes_id_map nds a) as (Hm & Hids & _). fold st in Hm, Hids.
  destruct (load_nodes_spec nds ∅ (on_canvas clear a)) as (_ & _ & _ & _ & _ & Hlog & _).
  fold st in Hlog.
  destruct (load_edges_spec st.1 (e1 ++ ed :: e2) st.2) as (En & El & _).
  assert (Ha' : a' = foldl (load_edge uuid4 st.1) st.2 (e1 ++ ed :: e2)).
  { unfold a'. rewrite load_from_eq, Hd. done. }
  split_and!.
  - rewrite Ha', !load_from_eq. simpl. fold nds. fold st.
    rewrite !foldl_app. simpl. by rewrite load_edge_unresolved.
  - rewrite Ha', El. exact Hlog.
  - by rewrite Ha', En.
  - intros k. rewrite Ha', En, <- Hm. apply Hids.
  - intros f1 f2 ed' ka kb Heq Hka Hkb Hsa Hsb.
    apply (load_from_edge_entry data a f1 f2 ed' ka kb); try done.
    by rewrite Hd, Heq.
Qed.

(** *** Saving and loading again *)

Lemma assigned_ids_serialized (c : Canvas) (p : list (string * ref)) (k : nat) :
  Forall (λ kr, n_id (deref c kr.2) = kr.1 ∧ truthy kr.1 = true) p →
  assigned_ids uuid4 k (node_entry c <$> p) = p.*1.
Proof.
  induction 1 as [|[k' r] p [Hid Ht] _ IH]; simpl; [done|].
  simpl in Hid, Ht. rewrite Hid, Ht. f_equal. exact IH.
Qed.

Lemma edge_ids_serialized (c : Canvas) (m : gmap string ref) (p : list (string * Edge))
    (k : nat) (x : string) :
  Forall (λ ke, e_id ke.2 = ke.1 ∧ truthy ke.1 = true) p →
  x ∈ edge_ids uuid4 m k (edge_entry c <$> p) → x ∈ p.*1.
Proof.
  induction 1 as [|[k' e] p [Hid Ht] _ IH]; simpl; [done|].
  simpl in Hid, Ht. destruct (resolves m _).
  - rewrite Hid, Ht. rewrite !elem_of_cons. intros [->|Hx]; [by left|right; by apply IH].
  - intros Hx. rewrite elem_of_cons. right. by apply IH.
Qed.

Lemma map_to_list_split `{Countable K} {A} (m : gmap K A) (k : K) (v : A) :
  m !! k = Some v →
  ∃ p1 p2, map_to_list m = p1 ++ (k, v) :: p2 ∧ k ∉ p2.*1.
Proof.
  intros Hm. apply elem_of_map_to_list in Hm.
  apply list_elem_of_split in Hm as (p1 & p2 & Heq).
  exists p1, p2. split; [done|].
  pose proof (NoDup_fst_map_to_list m) as Hnd.
  rewrite Heq, fmap_app, fmap_cons in Hnd.
  apply NoDup_app in Hnd as (_ & _ & Hnd). by apply NoDup_cons in Hnd as [? _].
Qed.

Lemma nonempty_truthy (o : option string) (s : string) :
  nonempty o = Some s → truthy s = true.
Proof.
  unfold nonempty. destruct o as [s'|]; [|done].
  destruct (truthy s') eqn:E; [|done]. by intros [= <-].
Qed.

Lemma assigned_ids_truthy (l : list NodeDoc) (k : nat) (x : string) :
  (∀ i, truthy (uuid4 i) = true) → x ∈ assigned_ids uuid4 k l → truthy x = true.
Proof.
  intros Hu. revert k. induction l as [|nd l IH]; intros k; simpl.
  { intros H. by apply elem_of_nil in H. }
  destruct (nonempty (nd_id nd)) as [s|] eqn:E; rewrite elem_of_cons;
    (intros [->|Hin]; [|by eapply IH]).
  - by eapply nonempty_truthy.
  - apply Hu.
Qed.

Lemma edge_ids_truthy (m : gmap string ref) (l : list EdgeDoc) (k : nat) (x : string) :
  (∀ i, truthy (uuid4 i) = true) → x ∈ edge_ids uuid4 m k l → truthy x = true.
Proof.
  intros Hu. revert k. induction l as [|ed l IH]; intros k; simpl.
  { intros H. by apply elem_of_nil in H. }
  destruct (resolves m ed); [|by apply IH].
  destruct (nonempty (ed_id ed)) as [s|] eqn:E; rewrite elem_of_cons;
    (intros [->|Hin]; [|by eapply IH]).
  - by eapply nonempty_truthy.
  - apply Hu.
Qed.

(** X7.  Every diagram that [load_from] builds stores its objects under their
    own ids, and the endpoints of its edges are nodes of the diagram: it
    meets the conditions of the round trip below, whatever the document. *)
Lemma load_from_keyed (data : Doc) (a : App) :
  (∀ i, truthy (uuid4 i) = true) →
  let c := canvas (load_from uuid4 data a) in
  keyed_nodes c ∧ keyed_edges c ∧ endpoints_live c ∧ resolvable c.
Proof.
  intros Hu c. subst c. rewrite load_from_eq.
  set (nds := default [] (doc_nodes data)). set (eds := default [] (doc_edges data)).
  destruct (load_nodes_id_map nds a) as (Hm & Hids & Hk).
  destruct (load_nodes_spec nds ∅ (on_canvas clear a)) as (_ & _ & _ & _ & Hed & _).
  set (st := foldl (load_node uuid4) (∅, on_canvas clear a) nds) in *.
  destruct (load_edges_spec st.1 eds st.2) as (En & _ & _ & Eh & E5 & E6).
  set (a' := foldl (load_edge uuid4 st.1) st.2 eds) in *.
  assert (Hid : ∀ k r, st.1 !! k = Some r → n_id (deref (canvas a') r) = k).
  { intros k r Hr. destruct (Hk k r Hr) as (n & Hn & <-).
    specialize (Eh r). rewrite Hn in Eh. unfold deref.
    destruct (heap (canvas a') !! r) as [n'|]; [|done]. simpl in *.
    assert (E : Node_serialize n' = Node_serialize n) by (by apply (inj Some)).
    by injection E. }
  assert (Hempty : edges (canvas st.2) = ∅).
  { rewrite Hed. change (edges (canvas (on_canvas clear a))) with (edges (clear (canvas a))).
    by destruct (clear_frame (canvas a)) as (_ & _ & _ & -> & _). }
  assert (Hedge : ∀ k e, edges (canvas a') !! k = Some e →
            e_id e = k ∧ truthy k = true
            ∧ ∃ ka kb, st.1 !! ka = Some (e_a e) ∧ st.1 !! kb = Some (e_b e)).
  { intros k e He.
    destruct (decide (k ∈ edge_ids uuid4 st.1 (uuid_calls st.2) eds)) as [Hin|Hnin].
    - destruct (E6 k Hin) as (e' & ka & kb & He' & Hid' & Ha & Hb).
      rewrite He in He'. simplify_eq.
      split_and!; [done|by eapply edge_ids_truthy|by exists ka, kb].
    - rewrite (E5 k Hnin), Hempty, lookup_empty in He. done. }
  split_and!.
  - intros k r Hr. rewrite En, <- Hm in Hr. split; [by apply Hid|].
    apply (assigned_ids_truthy nds (uuid_calls a)); [done|]. apply Hids. by eexists.
  - intros k e He. destruct (Hedge k e He) as (? & ? & _). done.
  - intros k e He. destruct (Hedge k e He) as (_ & _ & ka & kb & Ha & Hb).
    rewrite En, <- Hm. by rewrite (Hid _ _ Ha), (Hid _ _ Hb).
  - intros k e He. destruct (Hedge k e He) as (_ & _ & ka & kb & Ha & Hb).
    rewrite En, <- Hm. rewrite (Hid _ _ Ha), (Hid _ _ Hb). split; by eexists.
Qed.


(** *** Deleting a node *)

Lemma delete_edge_absent (eid : string) (a : App) :
  edges (canvas a) !! eid = None → delete_edge now_str eid a = a.
Proof. unfold delete_edge. by intros ->. Qed.

Lemma delete_edge_present (eid : string) (e : Edge) (a : App) :
  edges (canvas a) !! eid = Some e →
  let a' := delete_edge now_str eid a in
  nodes (canvas a') = nodes (canvas a)
  ∧ selected_item (canvas a') = selected_item (canvas a)
  ∧ edges (canvas a') = delete eid (edges (canvas a))
  ∧ heap (canvas a')
    = alter (node_discard_connection eid) (e_b e)
        (alter (node_discard_connection eid) (e_a e) (heap (canvas a))).
Proof. unfold delete_edge. by intros ->. Qed.

Lemma pruned_nil (es : gmap string Edge) (r : ref) (n : Node) : pruned [] es r n n.
Proof.
  clear uuid4 now_str.
  unfold pruned. split_and!; try done. intros x. split; [|tauto].
  intros Hx. split; [done|]. intros [H _]. by apply elem_of_nil in H.
Qed.

Lemma lookup_discard2 (h : gmap ref Node) (eid : string) (ra rb r : ref) :
  option_Forall2
    (λ n n1, Node_serialize n1 = Node_serialize n
             ∧ n_rect n1 = n_rect n ∧ n_text_id n1 = n_text_id n
             ∧ ∀ x, x ∈ n_connections n1
                    ↔ x ∈ n_connections n ∧ ¬ (x = eid ∧ (ra = r ∨ rb = r)))
    (h !! r)
    (alter (node_discard_connection eid) rb (alter (node_discard_connection eid) ra h) !! r).
Proof.
  clear uuid4 now_str.
  rewrite !lookup_alter.
  destruct (decide (rb = r)) as [->|Hb]; destruct (decide (ra = r)) as [->|Ha];
    destruct (h !! r) as [n|]; simpl; constructor;
    (split_and!; [done..|]); intros x; simpl;
    rewrite ?elem_of_difference, ?elem_of_singleton; intuition congruence.
Qed.

(** The loop of [delete_node] over a list of edge ids. *)
Lemma delete_edges_spec (l : list string) (a : App) :
  let a' := foldl (λ a eid, delete_edge now_str eid a) a l in
  nodes (canvas a') = nodes (canvas a)
  ∧ selected_item (canvas a') = selected_item (canvas a)
  ∧ (∀ k, edges (canvas a') !! k
          = if decide (k ∈ l) then None else edges (canvas a) !! k)
  ∧ (∀ r, option_Forall2 (pruned l (edges (canvas a)) r)
            (heap (canvas a) !! r) (heap (canvas a') !! r)).
Proof.
  clear uuid4.
  revert a. induction l as [|eid l IH]; intros a a'; subst a'.
  { simpl. split_and!; try done.
    intros r. destruct (heap (canvas a) !! r); constructor. apply pruned_nil. }
  change (foldl (λ a eid, delete_edge now_str eid a) a (eid :: l))
    with (foldl (λ a eid, delete_edge now_str eid a) (delete_edge now_str eid a) l).
  destruct (IH (delete_edge now_str eid a)) as (I1 & I2 & I3 & I4).
  destruct (edges (canvas a) !! eid) as [e|] eqn:He.
  - destruct (delete_edge_present eid e a He) as (D1 & D2 & D3 & D4).
    rewrite D1 in I1. rewrite D2 in I2. split_and!; [done..| |].
    + intros k. rewrite I3, D3.
      destruct (decide (k = eid)) as [->|Hne].
      * rewrite lookup_delete_eq. rewrite (decide_True (P := eid ∈ eid :: l)) by left.
        by case_decide.
      * rewrite lookup_delete_ne by done.
        destruct (decide (k ∈ l)) as [Hin|Hnin].
        -- by rewrite decide_True by (by right).
        -- rewrite decide_False; [done|]. intros H.
           apply elem_of_cons in H as [?|?]; done.
    + intros r. specialize (I4 r). rewrite D3, D4 in I4.
      pose proof (lookup_discard2 (heap (canvas a)) eid (e_a e) (e_b e) r) as Hd.
      destruct Hd as [n n1 (S1 & S2 & S3 & S4)|]; [|inversion I4; constructor].
      inversion I4 as [? n' (P1 & P2 & P3 & P4)|]; subst.
      constructor. unfold pruned. split_and!; [congruence..|].
      intros x. rewrite P4, S4.
      destruct (decide (x = eid)) as [->|Hne].
      * rewrite lookup_delete_eq. split.
        -- intros [[Hx Hnot] _]. split; [done|].
           intros [_ (e' & He' & Hor)]. rewrite He in He'. simplify_eq. tauto.
        -- intros [Hx Hnot]. split_and!; [done| |].
           ++ intros [_ Hor]. apply Hnot. split; [left|]. eauto.
           ++ intros [_ (e' & He' & _)]. done.
      * rewrite lookup_delete_ne by done. rewrite elem_of_cons. tauto.
  - rewrite (delete_edge_absent eid a He) in I1, I2, I3, I4 |- *.
    split_and!; [done..| |].
    + intros k. rewrite I3.
      destruct (decide (k ∈ l)) as [Hin|Hnin].
      * by rewrite decide_True by (by right).
      * destruct (decide (k = eid)) as [->|Hne].
        -- by rewrite decide_True by left.
        -- rewrite decide_False; [done|]. intros H.
           apply elem_of_cons in H as [?|?]; done.
    + intros r. specialize (I4 r).
      destruct I4 as [n n' (P1 & P2 & P3 & P4)|]; constructor.
      unfold pruned. split_and!; [done..|].
      intros x. rewrite P4, elem_of_cons.
      split; intros [Hx Hnot]; (split; [done|]); intros [Hin Hex]; apply Hnot.
      * split; [|done]. destruct Hin as [->|]; [|done].
        destruct Hex as (e' & He' & _). congruence.
      * split; [by right|done].
Qed.

Lemma delete_edges_absent (l : list string) (a : App) :
  (∀ k, k ∈ l → edges (canvas a) !! k = None) →
  foldl (λ a eid, delete_edge now_str eid a) a l = a.
Proof.
  induction l as [|eid l IH]; intros H; simpl; [done|].
  rewrite delete_edge_absent by (apply H; left). apply IH.
  intros k Hk. apply H. by right.
Qed.

Lemma delete_node_canvas (r : ref) (a : App) :
  let a1 := foldl (λ a eid, delete_edge now_str eid a) a
              (elements (n_connections (deref (canvas a) r))) in
  let a' := delete_node now_str r a in
  nodes (canvas a') = delete (n_id (deref (canvas a1) r)) (nodes (canvas a1))
  ∧ edges (canvas a') = edges (canvas a1)
  ∧ heap (canvas a') = heap (canvas a1)
  ∧ selected_item (canvas a') = selected_item (canvas a1).
Proof. done. Qed.

Lemma pruned_deref (l : list string) (c c' : Canvas) (r : ref) :
  option_Forall2 (pruned l (edges c) r) (heap c !! r) (heap c' !! r) →
  pruned l (edges c) r (deref c r) (deref c' r).
Proof.
  clear uuid4 now_str.
  unfold deref. intros [n n' H|]; simpl; [done|].
  unfold pruned. split_and!; [done..|]. intros x. split; [|tauto].
  intros Hx. by apply not_elem_of_empty in Hx.
Qed.

(** Deleting a node a second time changes neither nodes nor edges nor
    node objects, whatever the state. *)
Lemma delete_node_idempotent (r : ref) (a : App) :
  let a' := delete_node now_str r a in
  let a'' := delete_node now_str r a' in
  nodes (canvas a'') = nodes (canvas a')
  ∧ edges (canvas a'') = edges (canvas a')
  ∧ heap (canvas a'') = heap (canvas a').
Proof.
  clear uuid4. intros a' a''.
  destruct (delete_node_canvas r a) as (Cn & Ce & Ch & _). fold a' in Cn, Ce, Ch.
  set (l := elements (n_connections (deref (canvas a) r))) in *.
  set (a1 := foldl (λ a eid, delete_edge now_str eid a) a l) in *.
  destruct (delete_edges_spec l a) as (_ & _ & F3 & F4). fold a1 in F3, F4.
  assert (Hpr : pruned l (edges (canvas a)) r (deref (canvas a) r) (deref (canvas a') r)).
  { unfold deref at 2. rewrite Ch. by apply pruned_deref. }
  destruct Hpr as (Hser & _ & _ & Hconn).
  assert (Hnone : ∀ k, k ∈ elements (n_connections (deref (canvas a') r)) →
                       edges (canvas a') !! k = None).
  { intros k Hk. apply elem_of_elements, Hconn in Hk as [Hk _].
    rewrite Ce, F3. rewrite decide_True; [done|]. by apply elem_of_elements. }
  destruct (delete_node_canvas r a') as (Cn' & Ce' & Ch' & _). fold a'' in Cn', Ce', Ch'.
  rewrite (delete_edges_absent _ _ Hnone) in Cn', Ce', Ch'.
  split_and!; [|done..].
  rewrite Cn'. apply delete_id. rewrite Cn.
  replace (deref (canvas a1) r) with (deref (canvas a') r)
    by (unfold deref; by rewrite Ch).
  apply lookup_delete_eq.
Qed.

(** The cascade in a diagram in which every node object of the heap
    registers only edges that are at it, as after the first load of a
    map: deleting a node object that the diagram holds under its id
    removes the node, removes exactly the edges named in its
    [connections] and takes their ids out of the [connections] of both
    their endpoints; no edge that is left has the node as an endpoint,
    neither the object nor its id.  Deleting a node object whose id the
    diagram does not have leaves nodes, edges and node objects as they
    are, and so does deleting a node a second time.  The case of an
    object whose id the diagram has for another object is the scenario of
    C3 below. *)
Theorem delete_node_cascades (a : App) (r : ref) (n : Node) :
  heap (canvas a) !! r = Some n →
  diagram_invariant (canvas a) →
  let a' := delete_node now_str r a in
  (nodes (canvas a) !! n_id n = Some r →
     nodes (canvas a') = delete (n_id n) (nodes (canvas a))
     ∧ (∀ k, edges (canvas a') !! k
             = if decide (k ∈ n_connections n) then None else edges (canvas a) !! k)
     ∧ (∀ k e, k ∈ n_connections n → edges (canvas a) !! k = Some e →
          (k ∉ n_connections (deref (canvas a') (e_a e)))
          ∧ (k ∉ n_connections (deref (canvas a') (e_b e))))
     ∧ (∀ k e, edges (canvas a') !! k = Some e →
          e_a e ≠ r ∧ e_b e ≠ r
          ∧ n_id (deref (canvas a') (e_a e)) ≠ n_id n
          ∧ n_id (deref (canvas a') (e_b e)) ≠ n_id n))
  ∧ (nodes (canvas a) !! n_id n = None →
     nodes (canvas a') = nodes (canvas a)
     ∧ edges (canvas a') = edges (canvas a)
     ∧ heap (canvas a') = heap (canvas a))
  ∧ (let a'' := delete_node now_str r a' in
     nodes (canvas a'') = nodes (canvas a')
     ∧ edges (canvas a'') = edges (canvas a')
     ∧ heap (canvas a'') = heap (canvas a')).
Proof.
  clear uuid4.
  intros Hn (Live & Compl & Sound) a'.
  assert (Hd : deref (canvas a) r = n) by (unfold deref; by rewrite Hn).
  destruct (delete_node_canvas r a) as (Cn & Ce & Ch & _). fold a' in Cn, Ce, Ch.
  rewrite Hd in Cn, Ce, Ch.
  set (l := elements (n_connections n)) in *.
  set (a1 := foldl (λ a eid, delete_edge now_str eid a) a l) in *.
  destruct (delete_edges_spec l a) as (F1 & _ & F3 & F4). fold a1 in F1, F3, F4.
  assert (Hpr : ∀ x, pruned l (edges (canvas a)) x (deref (canvas a) x) (deref (canvas a') x)).
  { intros x. unfold deref at 2. rewrite Ch. by apply pruned_deref. }
  assert (Hid : ∀ x, n_id (deref (canvas a') x) = n_id (deref (canvas a) x)).
  { intros x. destruct (Hpr x) as (E & _). by injection E. }
  assert (Hin : ∀ k, k ∈ l ↔ k ∈ n_connections n) by (intros k; apply elem_of_elements).
  split.
  - intros Hpresent. split_and!.
    + rewrite Cn, F1. f_equal.
      replace (deref (canvas a1) r) with (deref (canvas a') r)
        by (unfold deref; by rewrite Ch).
      by rewrite Hid, Hd.
    + intros k. rewrite Ce, F3. destruct (decide (k ∈ l)) as [H|H].
      * by rewrite decide_True by (by apply Hin).
      * rewrite decide_False; [done|]. intros H'. by apply H, Hin.
    + intros k e Hk He.
      destruct (Hpr (e_a e)) as (_ & _ & _ & Pa).
      destruct (Hpr (e_b e)) as (_ & _ & _ & Pb).
      rewrite Pa, Pb. split; intros [_ Hnot]; apply Hnot; (split; [by apply Hin|]); eauto.
    + intros k e He. rewrite Ce, F3 in He.
      destruct (decide (k ∈ l)) as [|Hnl]; [done|].
      destruct (Compl k e He) as [Ca Cb]. destruct (Live k e He) as [La Lb].
      assert (Ha : e_a e ≠ r) by (intros E; apply Hnl, Hin; by rewrite <- Hd, <- E).
      assert (Hb : e_b e ≠ r) by (intros E; apply Hnl, Hin; by rewrite <- Hd, <- E).
      split_and!; [done..| |]; rewrite Hid; intros E.
      * rewrite E, Hpresent in La. congruence.
      * rewrite E, Hpresent in Lb. congruence.
  - split; [|apply delete_node_idempotent]. intros Habsent.
    assert (Hnone : ∀ k, k ∈ l → edges (canvas a) !! k = None).
    { intros k Hk. apply Hin in Hk.
      pose proof (Sound r n Hn k Hk) as Hat. unfold at_node in Hat.
      destruct (edges (canvas a) !! k) as [e|] eqn:He; [|done].
      destruct (Live k e He) as [La Lb].
      destruct Hat as [E|E]; rewrite E, Hd, Habsent in *; congruence. }
    assert (Ha1 : a1 = a) by (by apply delete_edges_absent).
    rewrite Ha1 in Cn, Ce, Ch. rewrite Hd in Cn.
    split_and!; [|done..]. rewrite Cn. by apply delete_id.
Qed.

End Properties.

(** * Further properties of the handlers *)

Section Runs.

Variable uuid4 : nat → string.
Variable now_str : nat → string.

(** A uuid is a string of 36 characters. *)
Hypothesis uuid4_truthy : ∀ i, truthy (uuid4 i) = true.

(** *** The well-formedness of the canvas is kept *)

Lemma canvas_wf_ext (c c' : Canvas) :
  heap c' = heap c → next_ref c' = next_ref c → nodes c' = nodes c →
  edges c' = edges c → selected_item c' = selected_item c →
  canvas_wf c → canvas_wf c'.
Proof.
  clear. unfold canvas_wf, keyed_nodes, keyed_edges, connections_complete, deref.
  by intros -> -> -> -> ->.
Qed.

Lemma canvas_wf_select (c : Canvas) (o : option ref) :
  (∀ r, o = Some r → (r < next_ref c)%nat) →
  canvas_wf c → canvas_wf (set_selected_item o c).
Proof.
  clear. unfold canvas_wf, keyed_nodes, keyed_edges, connections_complete, deref. simpl.
  intros Ho (H1 & H2 & H3 & _ & H5 & H6 & H7). by split_and!.
Qed.

(** Objects may lose ids from their [connections] when the edges of these
    ids go, and nodes and edges may go. *)
Lemma canvas_wf_shrink (c c' : Canvas) :
  next_ref c' = next_ref c →
  nodes c' ⊆ nodes c → edges c' ⊆ edges c →
  (∀ r, selected_item c' = Some r → (r < next_ref c)%nat) →
  (∀ r, option_Forall2
          (λ n n', n_id n' = n_id n
                   ∧ ∀ x, x ∈ n_connections n →
                          x ∈ n_connections n' ∨ edges c' !! x = None)
          (heap c !! r) (heap c' !! r)) →
  canvas_wf c → canvas_wf c'.
Proof.
  clear. intros Hr Hn He Hs Hh (W1 & W2 & W3 & W4 & W5 & W6 & W7).
  assert (Hid : ∀ r, n_id (deref c' r) = n_id (deref c r)).
  { intros r. unfold deref. destruct (Hh r) as [n n' [E _]|]; simpl; done. }
  unfold canvas_wf. rewrite Hr. split_and!.
  - intros r. rewrite <- W1. destruct (Hh r); split; intros [? ?]; done || by eexists.
  - intros k r Hk. apply (W2 k). by eapply lookup_weaken.
  - intros k e Hk. apply (W3 k). by eapply lookup_weaken.
  - done.
  - intros k r Hk. rewrite Hid. apply (W5 k). by eapply lookup_weaken.
  - intros k e Hk. apply (W6 k). by eapply lookup_weaken.
  - intros k e Hk. pose proof (lookup_weaken _ _ _ _ Hk He) as Hk0.
    destruct (W7 k e Hk0) as [Ha Hb]. unfold deref in *.
    split.
    + destruct (Hh (e_a e)) as [n n' [_ Hc]|]; simpl in *; [|done].
      destruct (Hc k Ha) as [?|Hx]; [done|]. rewrite Hk in Hx. done.
    + destruct (Hh (e_b e)) as [n n' [_ Hc]|]; simpl in *; [|done].
      destruct (Hc k Hb) as [?|Hx]; [done|]. rewrite Hk in Hx. done.
Qed.

(** Objects may be rewritten as long as their id stays and their
    [connections] do not shrink. *)
Lemma canvas_wf_update_node (c : Canvas) (r : ref) (f : Node → Node) :
  (∀ n, n_id (f n) = n_id n) →
  (∀ n x, x ∈ n_connections n → x ∈ n_connections (f n)) →
  canvas_wf c → canvas_wf (update_node r f c).
Proof.
  clear. intros Hid Hc W. apply (canvas_wf_shrink c); simpl; try done.
  - destruct W as (_ & _ & _ & W4 & _). exact W4.
  - intros r0. rewrite lookup_alter. case_decide; subst;
      destruct (heap c !! r0); simpl; constructor; split; auto.
Qed.

(** A new edge between two objects, as [Edge.__init__] and the
    assignment to [edges] leave the canvas. *)
Lemma canvas_wf_add_edge (c c' : Canvas) (id : string) (x y : ref) (line : item) :
  heap c' = alter (node_add_connection id) y (alter (node_add_connection id) x (heap c)) →
  next_ref c' = next_ref c → nodes c' = nodes c →
  edges c' = <[id := mkEdge id x y line]> (edges c) →
  selected_item c' = selected_item c →
  (x < next_ref c)%nat → (y < next_ref c)%nat → truthy id = true →
  canvas_wf c → canvas_wf c'.
Proof.
  clear. intros Hh Hr Hn He Hs Hx Hy Ht (W1 & W2 & W3 & W4 & W5 & W6 & W7).
  assert (Hd : ∀ r, n_id (deref c' r) = n_id (deref c r)
                    ∧ (∀ k, k ∈ n_connections (deref c r) → k ∈ n_connections (deref c' r))
                    ∧ ((r = x ∨ r = y) → id ∈ n_connections (deref c' r))).
  { intros r. unfold deref. rewrite Hh, !lookup_alter.
    assert (Hsome : r = x ∨ r = y → is_Some (heap c !! r))
      by (intros [->| ->]; by apply W1).
    destruct (decide (y = r)) as [->|Hyr]; destruct (decide (x = r)) as [->|Hxr];
      destruct (heap c !! r) as [n|]; simpl; split_and!; try done;
      try (intros k; rewrite ?elem_of_union; tauto);
      try (intros _; rewrite ?elem_of_union, elem_of_singleton; tauto);
      try (intros Hor; destruct Hsome as [? ?]; done);
      try (intros [?|?]; congruence). }
  unfold canvas_wf, keyed_nodes, keyed_edges, connections_complete.
  rewrite Hr, Hn, He, Hs. split_and!; try done.
  - intros r. rewrite <- W1, Hh, !lookup_alter_is_Some. done.
  - intros k e. rewrite lookup_insert. case_decide; [|by apply W3].
    intros [= <-]. done.
  - intros k r Hk. destruct (Hd r) as (-> & _). by apply W5.
  - intros k e. rewrite lookup_insert. case_decide; [|by apply W6].
    intros [= <-]. by subst.
  - intros k e. rewrite lookup_insert. case_decide.
    + intros [= <-]. subst k. simpl. split; apply Hd; auto.
    + intros Hk. destruct (W7 k e Hk). split; by apply Hd.
Qed.

(** A new node object stored under its id, as [Node.__init__] and the
    assignment to [nodes] leave the canvas. *)
Lemma canvas_wf_add_node (c c' : Canvas) (n : Node) :
  heap c' = <[next_ref c := n]> (heap c) →
  next_ref c' = S (next_ref c) →
  nodes c' = <[n_id n := next_ref c]> (nodes c) →
  edges c' = edges c → selected_item c' = selected_item c →
  truthy (n_id n) = true →
  canvas_wf c → canvas_wf c'.
Proof.
  clear. intros Hh Hr Hn He Hs Ht (W1 & W2 & W3 & W4 & W5 & W6 & W7).
  assert (Hd : ∀ r, (r < next_ref c)%nat → deref c' r = deref c r).
  { intros r Hlt. unfold deref. rewrite Hh, lookup_insert_ne; [done|lia]. }
  unfold canvas_wf. rewrite Hr, Hs. split_and!.
  - intros r. rewrite Hh, lookup_insert. case_decide.
    + subst. split; [lia|by eexists].
    + rewrite W1. lia.
  - rewrite Hn. intros k r. rewrite lookup_insert. case_decide.
    + intros [= <-]. lia.
    + intros Hk. pose proof (W2 k r Hk). simpl in *. lia.
  - rewrite He. intros k e Hk. destruct (W3 k e Hk). lia.
  - intros r Hr'. pose proof (W4 r Hr'). lia.
  - unfold keyed_nodes. rewrite Hn. intros k r. rewrite lookup_insert. case_decide.
    + intros [= <-]. subst k. unfold deref. by rewrite Hh, lookup_insert_eq.
    + intros Hk. rewrite Hd; [by apply W5|]. exact (W2 k r Hk).
  - unfold keyed_edges. by rewrite He.
  - unfold connections_complete. rewrite He. intros k e Hk.
    destruct (W3 k e Hk). rewrite !Hd by done. by apply W7.
Qed.

Lemma canvas_wf_clear (c : Canvas) : canvas_wf c → canvas_wf (clear c).
Proof.
  clear. intros W. destruct (clear_frame c) as (Hh & Hr & Hn & He & Hs & _).
  apply (canvas_wf_shrink c); try done.
  - rewrite Hn. apply map_empty_subseteq.
  - rewrite He. apply map_empty_subseteq.
  - rewrite Hs. by destruct W as (_ & _ & _ & W4 & _).
  - intros r. rewrite Hh. destruct (heap c !! r); constructor. split; auto.
Qed.

Lemma on_double_wf (ex ey : number) (a : App) :
  canvas_wf (canvas a) → canvas_wf (canvas (on_double uuid4 now_str ex ey a)).
Proof.
  intros W.
  eapply (canvas_wf_add_node (canvas a) _
            (mkNode (uuid4 (uuid_calls a)) (ex - num 80)%Q (ey - num 26)%Q (num 160) (num 52)
                    "New Node" (next_item (canvas a)) (S (next_item (canvas a))) ∅));
    try done.
  - unfold on_double, Node_init, deref. simpl. rewrite lookup_insert_eq. done.
  - apply uuid4_truthy.
Qed.

Lemma Node_on_click_wf (self : ref) (a : App) :
  (self < next_ref (canvas a))%nat →
  canvas_wf (canvas a) → canvas_wf (canvas (Node_on_click self a)).
Proof.
  clear. intros Hs W. unfold Node_on_click. simpl.
  apply (canvas_wf_ext (set_selected_item (Some self) (canvas a))).
  1-5: by destruct (temp_line (canvas a)).
  apply canvas_wf_select; [|done]. by intros r [= <-].
Qed.

Lemma Node_on_right_click_wf (self : ref) (reply : option string) (a : App) :
  canvas_wf (canvas a) → canvas_wf (canvas (Node_on_right_click now_str self reply a)).
Proof.
  clear uuid4 uuid4_truthy. intros W. destruct reply; [|done]. simpl.
  by apply canvas_wf_update_node.
Qed.

Lemma Node_on_drag_wf (self : ref) (ex ey : number) (a : App) :
  canvas_wf (canvas a) → canvas_wf (canvas (Node_on_drag self ex ey a)).
Proof. clear. intros W. simpl. by apply canvas_wf_update_node. Qed.

Lemma on_single_wf (current : list item) (a : App) :
  canvas_wf (canvas a) → canvas_wf (canvas (on_single current a)).
Proof.
  clear. intros W. destruct current; [|done]. simpl. by apply canvas_wf_select.
Qed.

Lemma start_connection_wf (a : App) :
  canvas_wf (canvas a) → canvas_wf (canvas (canvas_start_connection now_str a)).
Proof.
  clear uuid4 uuid4_truthy. intros W. unfold canvas_start_connection, start_connection.
  by destruct (selected_item (canvas a)) eqn:E; simpl; rewrite ?E.
Qed.

Lemma follow_mouse_wf (a : App) :
  canvas_wf (canvas a) → canvas_wf (canvas (follow_mouse a)).
Proof.
  clear. intros W. apply (canvas_wf_ext (canvas a)); [..|done];
    unfold follow_mouse; destruct (temp_line (canvas a)); simpl;
    by destruct (selected_item (canvas a)) eqn:E; simpl; rewrite ?E.
Qed.

Lemma finish_connection_wf (its : list item) (a : App) :
  canvas_wf (canvas a) → canvas_wf (canvas (finish_connection uuid4 now_str its a)).
Proof.
  intros W. unfold finish_connection.
  destruct (hit_target (canvas a) its) as [target|] eqn:Hhit.
  - destruct (selected_item (canvas a)) as [sel|] eqn:Hsel; [|done].
    case_bool_decide as Hne.
    + destruct (hit_target_in_nodes _ _ _ Hhit) as [k Hk].
      pose proof W as (W1 & W2 & W3 & W4 & W5).
      apply (canvas_wf_add_edge (canvas a) _ (uuid4 (uuid_calls a)) sel target
               (next_item (canvas a)));
        try (unfold Edge_init, end_connection; simpl;
             by destruct (temp_line (canvas a)) eqn:E; simpl; rewrite ?E, ?Hsel).
      * by apply W4.
      * exact (W2 k target Hk).
    + apply (canvas_wf_ext (canvas a)); [..|done];
        unfold end_connection; simpl;
        by destruct (temp_line (canvas a)) eqn:E; simpl; rewrite ?E, ?Hsel.
  - apply (canvas_wf_ext (canvas a)); [..|done];
      unfold end_connection; simpl;
      by destruct (temp_line (canvas a)) eqn:E; simpl; rewrite ?E.
Qed.

Lemma delete_edge_wf (eid : string) (a : App) :
  canvas_wf (canvas a) → canvas_wf (canvas (delete_edge now_str eid a)).
Proof.
  clear uuid4 uuid4_truthy. intros W. unfold delete_edge.
  destruct (edges (canvas a) !! eid) as [e|] eqn:He; [|done]. simpl.
  apply (canvas_wf_shrink (canvas a)); simpl; try done.
  - apply delete_subseteq.
  - by destruct W as (_ & _ & _ & W4 & _).
  - intros r. pose proof (lookup_discard2 (heap (canvas a)) eid (e_a e) (e_b e) r) as Hd.
    destruct Hd as [n n1 (S1 & _ & _ & S4)|]; constructor.
    split; [by injection S1|]. intros x Hx.
    destruct (decide (x = eid)) as [->|Hne]; [right; apply lookup_delete_eq|].
    left. apply S4. split; [done|]. by intros [? _].
Qed.

Lemma delete_edges_wf (l : list string) (a : App) :
  canvas_wf (canvas a) →
  canvas_wf (canvas (foldl (λ a eid, delete_edge now_str eid a) a l)).
Proof.
  clear uuid4 uuid4_truthy. revert a. induction l as [|eid l IH]; intros a W; simpl; [done|].
  by apply IH, delete_edge_wf.
Qed.

Lemma delete_node_wf (r : ref) (a : App) :
  canvas_wf (canvas a) → canvas_wf (canvas (delete_node now_str r a)).
Proof.
  clear uuid4 uuid4_truthy. intros W. unfold delete_node. simpl.
  set (a1 := foldl _ a _).
  assert (W1 : canvas_wf (canvas a1)) by (by apply delete_edges_wf).
  apply (canvas_wf_shrink (canvas a1)); simpl; try done.
  - apply delete_subseteq.
  - by destruct W1 as (_ & _ & _ & W4 & _).
  - intros r0. destruct (heap (canvas a1) !! r0); constructor. split; auto.
Qed.

Lemma load_node_wf (m : gmap string ref) (a : App) (nd : NodeDoc) :
  canvas_wf (canvas a) →
  map_Forall (λ _ r, (r < next_ref (canvas a))%nat) m →
  let st := load_node uuid4 (m, a) nd in
  canvas_wf (canvas st.2) ∧ map_Forall (λ _ r, (r < next_ref (canvas st.2))%nat) st.1.
Proof.
  intros W Hm st. subst st. rewrite load_node_eq. simpl. split.
  - eapply (canvas_wf_add_node (canvas a) _
              (loaded_node nd (default (uuid4 (uuid_calls a)) (nonempty (nd_id nd)))
                           (next_item (canvas a)))); try done.
    simpl. destruct (nonempty (nd_id nd)) eqn:E; simpl;
      [by eapply nonempty_truthy|apply uuid4_truthy].
  - intros k r. rewrite lookup_insert. case_decide.
    + intros [= <-]. lia.
    + intros Hk. pose proof (Hm k r Hk). simpl in *. lia.
Qed.

Lemma load_nodes_wf (l : list NodeDoc) (m : gmap string ref) (a : App) :
  canvas_wf (canvas a) →
  map_Forall (λ _ r, (r < next_ref (canvas a))%nat) m →
  let st := foldl (load_node uuid4) (m, a) l in
  canvas_wf (canvas st.2) ∧ map_Forall (λ _ r, (r < next_ref (canvas st.2))%nat) st.1.
Proof.
  revert m a. induction l as [|nd l IH]; intros m a W Hm; [done|].
  destruct (load_node_wf m a nd W Hm) as [W' Hm'].
  change (foldl (load_node uuid4) (m, a) (nd :: l))
    with (foldl (load_node uuid4) (load_node uuid4 (m, a) nd) l).
  rewrite (surjective_pairing (load_node uuid4 (m, a) nd)). by apply IH.
Qed.

Lemma load_edge_wf (m : gmap string ref) (a : App) (ed : EdgeDoc) :
  canvas_wf (canvas a) →
  map_Forall (λ _ r, (r < next_ref (canvas a))%nat) m →
  canvas_wf (canvas (load_edge uuid4 m a ed))
  ∧ next_ref (canvas (load_edge uuid4 m a ed)) = next_ref (canvas a).
Proof.
  intros W Hm. rewrite load_edge_eq.
  destruct (id_map_get m (ed_a ed)) as [x|] eqn:Hx; [|done].
  destruct (id_map_get m (ed_b ed)) as [y|] eqn:Hy; [|done].
  simpl. split; [|done].
  destruct (ed_a ed) as [ka|]; [|done]. destruct (ed_b ed) as [kb|]; [|done].
  eapply (canvas_wf_add_edge (canvas a)); try done.
  - exact (Hm ka x Hx).
  - exact (Hm kb y Hy).
  - destruct (nonempty (ed_id ed)) eqn:E; simpl;
      [by eapply nonempty_truthy|apply uuid4_truthy].
Qed.

Lemma load_edges_wf (m : gmap string ref) (l : list EdgeDoc) (a : App) :
  canvas_wf (canvas a) →
  map_Forall (λ _ r, (r < next_ref (canvas a))%nat) m →
  canvas_wf (canvas (foldl (load_edge uuid4 m) a l)).
Proof.
  revert a. induction l as [|ed l IH]; intros a W Hm; [done|].
  destruct (load_edge_wf m a ed W Hm) as [W' Hr].
  change (foldl (load_edge uuid4 m) a (ed :: l))
    with (foldl (load_edge uuid4 m) (load_edge uuid4 m a ed) l).
  apply IH; [done|]. by rewrite Hr.
Qed.

Lemma load_from_wf (data : Doc) (a : App) :
  canvas_wf (canvas a) → canvas_wf (canvas (load_from uuid4 data a)).
Proof.
  intros W. rewrite load_from_eq.
  destruct (load_nodes_wf (default [] (doc_nodes data)) ∅ (on_canvas clear a)) as [W' Hm].
  - simpl. by apply canvas_wf_clear.
  - apply map_Forall_empty.
  - by apply load_edges_wf.
Qed.

Lemma refresh_maps_list_canvas (a : App) : canvas (refresh_maps_list a) = canvas a.
Proof. clear. unfold refresh_maps_list. by destruct (nonempty _). Qed.

Lemma ensure_user_folders_canvas (u : string) (a : App) :
  canvas (ensure_user_folders u a) = canvas a.
Proof. clear. unfold ensure_user_folders. by destruct (index_files a !! u). Qed.

Lemma login_user_canvas (u : string) (a : App) :
  canvas (login_user now_str u a) = canvas a.
Proof.
  clear uuid4 uuid4_truthy. unfold login_user. rewrite refresh_maps_list_canvas. simpl.
  by rewrite ensure_user_folders_canvas.
Qed.

Lemma save_map_canvas (reply : option string) (a : App) :
  canvas (save_map uuid4 now_str reply a) = canvas a.
Proof.
  clear uuid4_truthy. unfold save_map.
  destruct (nonempty (current_user a)) as [u|]; [|done].
  destruct (save_map_prepare uuid4 now_str reply a) as [a1|] eqn:Hp; [|done].
  destruct (save_map_prepare_frame _ _ _ _ _ Hp) as (Hc & _).
  destruct (stamp now_str _ _) as [meta t]. simpl.
  rewrite refresh_maps_list_canvas. simpl.
  destruct (current_map_meta _) as [m|]; simpl.
  - destruct (meta_truthy m); simpl; by rewrite ensure_user_folders_canvas.
  - by rewrite ensure_user_folders_canvas.
Qed.

Lemma delete_selected_map_canvas (sel : option nat) (confirm : bool) (a : App) :
  canvas (delete_selected_map now_str sel confirm a) = canvas a.
Proof.
  clear uuid4 uuid4_truthy. unfold delete_selected_map.
  destruct (sel ≫= _) as [val|]; [|done]. destruct confirm; [|done].
  unfold delete_map. destruct (current_user a) as [u|]; [|done]. simpl.
  rewrite refresh_maps_list_canvas.
  destruct (_ !! split_bar_head val); simpl;
    unfold delete_map_file; by destruct (map_files a !! _).
Qed.

Lemma load_map_wf (map_id : string) (a : App) :
  canvas_wf (canvas a) → canvas_wf (canvas (load_map uuid4 now_str map_id a)).
Proof.
  intros W. unfold load_map. destruct (nonempty (current_user a)) as [u|]; [|done].
  destruct (load_map_file u map_id a) as [data|]; [|done]. simpl.
  by apply load_from_wf.
Qed.

Lemma open_map_dialog_wf (picked : option (string * string * option Doc)) (a : App) :
  canvas_wf (canvas a) → canvas_wf (canvas (open_map_dialog uuid4 now_str picked a)).
Proof.
  intros W. unfold open_map_dialog. destruct (nonempty (current_user a)) as [u|]; [|done].
  destruct picked as [[[path mid] [data|]]|]; try done. simpl.
  rewrite refresh_maps_list_canvas.
  destruct (_ !! mid); simpl; by apply load_from_wf.
Qed.

(** Every handler keeps the canvas well formed. *)
Lemma handle_keeps_canvas_wf (ev : Event) (a : App) :
  canvas_wf (canvas a) → event_ok (canvas a) ev →
  canvas_wf (canvas (handle uuid4 now_str ev a)).
Proof.
  intros W Hok. destruct ev; simpl.
  - by apply on_double_wf.
  - by apply Node_on_click_wf.
  - by apply Node_on_right_click_wf.
  - by apply Node_on_drag_wf.
  - destruct (button1 (canvas a)); [by apply on_single_wf|by apply finish_connection_wf].
  - destruct (motion_bound (canvas a)); [by apply follow_mouse_wf|done].
  - unfold on_delete_key. destruct (selected_item (canvas a)); [|done]. simpl.
    apply canvas_wf_select; [done|]. by apply delete_node_wf.
  - by apply start_connection_wf.
  - unfold delete_selected_node. destruct (selected_item (canvas a)); [|done]. simpl.
    apply canvas_wf_select; [done|]. by apply delete_node_wf.
  - by rewrite login_user_canvas.
  - unfold logout_user. destruct (nonempty (current_user a)); [|done]. simpl.
    by apply canvas_wf_clear.
  - unfold new_map_for_user. destruct (nonempty (current_user a)); [|done].
    destruct reply; [|done]. simpl. rewrite refresh_maps_list_canvas. simpl.
    by apply canvas_wf_clear.
  - unfold open_selected_map. destruct (sel ≫= _); [|done]. by apply load_map_wf.
  - by rewrite delete_selected_map_canvas.
  - by apply open_map_dialog_wf.
  - by rewrite save_map_canvas.
Qed.

Lemma run_keeps_canvas_wf (a a' : App) (evs : list Event) :
  run uuid4 now_str a evs a' → canvas_wf (canvas a) → canvas_wf (canvas a').
Proof.
  induction 1 as [a|a ev evs a' Hok _ IH]; intros W; [done|].
  by apply IH, handle_keeps_canvas_wf.
Qed.

(** X1.  Whatever the user does after the start of the application, the
    canvas stays well formed: all references name existing node objects,
    nodes and edges are stored under their own non-empty ids, and every
    edge is registered in the [connections] of both its endpoints. *)
Theorem reachable_canvas_wf (a a' : App) (evs : list Event) :
  canvas a = init_canvas →
  run uuid4 now_str a evs a' →
  canvas_wf (canvas a').
Proof.
  intros Hinit Hrun. apply (run_keeps_canvas_wf a a' evs Hrun). rewrite Hinit.
  unfold canvas_wf, keyed_nodes, keyed_edges, connections_complete. simpl.
  split_and!; try apply map_Forall_empty; try done.
  intros r. rewrite lookup_empty. split; [by intros [? ?]|lia].
Qed.

(** X2.  On a well-formed canvas, [delete_node] leaves no edge that has
    the deleted node object as an endpoint, and every edge that is left
    was there before with the same endpoints. *)
Theorem delete_node_leaves_no_edge_at_node (a : App) (r : ref) :
  canvas_wf (canvas a) →
  let a' := delete_node now_str r a in
  ∀ k e, edges (canvas a') !! k = Some e →
         e_a e ≠ r ∧ e_b e ≠ r ∧ edges (canvas a) !! k = Some e.
Proof.
  clear uuid4 uuid4_truthy. intros (_ & _ & _ & _ & _ & _ & Compl) a' k e He.
  destruct (delete_node_canvas now_str r a) as (_ & Ce & _). fold a' in Ce.
  destruct (delete_edges_spec now_str
              (elements (n_connections (deref (canvas a) r))) a) as (_ & _ & F3 & _).
  rewrite Ce, F3 in He.
  destruct (decide (k ∈ elements (n_connections (deref (canvas a) r)))) as [|Hnin]; [done|].
  destruct (Compl k e He) as [Ca Cb].
  split_and!; [| |done]; intros E; apply Hnin, elem_of_elements; by rewrite <- E.
Qed.

(** X3.  The document that [serialize] builds from a well-formed canvas
    has one entry for each node and one for each edge, every entry carries
    all its keys, and no two node entries and no two edge entries have the
    same id. *)
Theorem serialize_entries_distinct (c : Canvas) :
  canvas_wf c →
  ∃ nds eds, serialize c = mkDoc (Some nds) (Some eds)
    ∧ length nds = size (nodes c) ∧ length eds = size (edges c)
    ∧ nd_id <$> nds = Some <$> (map_to_list (nodes c)).*1
    ∧ ed_id <$> eds = Some <$> (map_to_list (edges c)).*1
    ∧ NoDup (nd_id <$> nds) ∧ NoDup (ed_id <$> eds)
    ∧ Forall (λ nd, is_Some (nd_x nd) ∧ is_Some (nd_y nd) ∧ is_Some (nd_text nd)
                    ∧ is_Some (nd_width nd) ∧ is_Some (nd_height nd)) nds
    ∧ Forall (λ ed, is_Some (ed_a ed) ∧ is_Some (ed_b ed)) eds.
Proof.
  clear. intros (_ & _ & _ & _ & Kn & Ke & _).
  exists (node_entry c <$> map_to_list (nodes c)), (edge_entry c <$> map_to_list (edges c)).
  assert (Hn : nd_id <$> (node_entry c <$> map_to_list (nodes c))
               = Some <$> (map_to_list (nodes c)).*1).
  { rewrite <- !list_fmap_compose. apply list_fmap_ext. intros i [k r] Hi. simpl.
    f_equal. apply (Kn k r). apply elem_of_map_to_list.
    apply list_elem_of_lookup. by exists i. }
  assert (He : ed_id <$> (edge_entry c <$> map_to_list (edges c))
               = Some <$> (map_to_list (edges c)).*1).
  { rewrite <- !list_fmap_compose. apply list_fmap_ext. intros i [k e] Hi. simpl.
    f_equal. apply (Ke k e). apply elem_of_map_to_list.
    apply list_elem_of_lookup. by exists i. }
  split_and!; try done.
  - by rewrite length_fmap, length_map_to_list.
  - by rewrite length_fmap, length_map_to_list.
  - rewrite Hn. apply (NoDup_fmap_2 Some), NoDup_fst_map_to_list.
  - rewrite He. apply (NoDup_fmap_2 Some), NoDup_fst_map_to_list.
  - apply Forall_fmap, Forall_forall. intros [k r] _. simpl. split_and!; by eexists.
  - apply Forall_fmap, Forall_forall. intros [k e] _. simpl. split; by eexists.
Qed.

(** *** The canvas handlers *)

(** X4.  In connecting mode a click that hits no node, or hits the
    selected node itself, creates nothing: nodes, edges and node objects
    are as before [start_connection], the provisional line is removed, the
    idle handlers are bound again and the abort is logged. *)
Theorem connecting_click_elsewhere_aborts (a : App) (k : nat) (its : list item) (src : ref) :
  selected_item (canvas a) = Some src →
  hit_target (canvas a) its = None ∨ hit_target (canvas a) its = Some src →
  let connecting := Nat.iter k follow_mouse (start_connection now_str a) in
  let a' := finish_connection uuid4 now_str its connecting in
  edges (canvas a') = edges (canvas a)
  ∧ nodes (canvas a') = nodes (canvas a)
  ∧ heap (canvas a') = heap (canvas a)
  ∧ selected_item (canvas a') = Some src
  ∧ temp_line (canvas a') = None
  ∧ (∀ l, temp_line (canvas connecting) = Some l → l ∉ items (canvas a'))
  ∧ button1 (canvas a') = OnSingle
  ∧ motion_bound (canvas a') = false
  ∧ log_text a' = log_text connecting
       ++ ["[" +:+ now_str (clock connecting) +:+ "] "
           +:+ "Connection aborted or clicked same node."].
Proof.
  clear uuid4_truthy. intros Hsel Hhit connecting a'.
  destruct (follow_mouse_iter_frame k (start_connection now_str a))
    as (Hh & Hn & He & Hs & _).
  fold connecting in Hh, Hn, He, Hs.
  assert (Hst : heap (canvas (start_connection now_str a)) = heap (canvas a)
                ∧ nodes (canvas (start_connection now_str a)) = nodes (canvas a)
                ∧ edges (canvas (start_connection now_str a)) = edges (canvas a)
                ∧ selected_item (canvas (start_connection now_str a)) = Some src).
  { unfold start_connection. by rewrite Hsel. }
  destruct Hst as (Hh0 & Hn0 & He0 & Hs0).
  rewrite Hh0 in Hh. rewrite Hn0 in Hn. rewrite He0 in He. rewrite Hs0 in Hs.
  assert (Hhit' : hit_target (canvas connecting) its = None
                  ∨ hit_target (canvas connecting) its = Some src)
    by (by rewrite (hit_target_ext _ (canvas a))).
  subst a'. unfold finish_connection.
  destruct Hhit' as [-> | ->]; rewrite ?Hs, ?bool_decide_eq_false_2 by (intros Hx; by apply Hx);
    unfold end_connection; simpl;
    destruct (temp_line (canvas connecting)) as [l|] eqn:E; simpl;
    split_and!; try done;
    intros l' Heq; simplify_eq; rewrite elem_of_difference, elem_of_singleton; tauto.
Qed.

(** X5.  Pointer motion in connecting mode keeps one provisional line:
    after any number of motions (at least one) the canvas shows the items
    it showed before, without the former provisional line, and one new
    line; nodes, edges and the selection are untouched. *)
Theorem follow_mouse_keeps_one_line (a : App) (k : nat) (src : ref) :
  selected_item (canvas a) = Some src →
  (∀ i, i ∈ items (canvas a) → (i < next_item (canvas a))%nat) →
  let a' := Nat.iter (S k) follow_mouse a in
  ∃ l, temp_line (canvas a') = Some l
       ∧ (l ∉ items (canvas a))
       ∧ (∀ i, i ∈ items (canvas a')
               ↔ i = l ∨ (i ∈ items (canvas a) ∧ temp_line (canvas a) ≠ Some i))
       ∧ nodes (canvas a') = nodes (canvas a)
       ∧ edges (canvas a') = edges (canvas a)
       ∧ selected_item (canvas a') = Some src.
Proof.
  clear. intros Hsel Hb a'. subst a'.
  assert (Hstep : ∀ b, selected_item (canvas b) = Some src →
            canvas (follow_mouse b)
            = set_temp_line (Some (next_item (canvas b)))
                (set_next_item (S (next_item (canvas b)))
                   (set_items ({[next_item (canvas b)]}
                               ∪ (items (canvas b)
                                  ∖ (if temp_line (canvas b) is Some l then {[l]} else ∅)))
                      (canvas b)))).
  { intros b Hb'. unfold follow_mouse.
    destruct (temp_line (canvas b)) as [l|] eqn:E; simpl; rewrite Hb'; simpl; [done|].
    by rewrite difference_empty_L. }
  induction k as [|k IH].
  - simpl. rewrite (Hstep a Hsel). simpl. exists (next_item (canvas a)).
    split_and!; try done.
    + intros Hin. apply Hb in Hin. lia.
    + intros i. rewrite elem_of_union, elem_of_singleton, elem_of_difference.
      destruct (temp_line (canvas a)) as [l|].
      * rewrite elem_of_singleton. split; intros [?|[? ?]]; auto; right; split; congruence.
      * split; intros [?|[? ?]]; auto. right. split; [done|]. apply not_elem_of_empty.
  - destruct IH as (l & Ht & Hl & Hi & Hn & He & Hs).
    set (b := Nat.iter (S k) follow_mouse a) in *.
    change (Nat.iter (S (S k)) follow_mouse a) with (follow_mouse b).
    assert (Hnext : (next_item (canvas a) ≤ l)%nat ∧ (l < next_item (canvas b))%nat).
    { clear Hi Hl. subst b. revert l Ht. clear -Hstep Hsel.
      assert (Hsk : ∀ j, selected_item (canvas (Nat.iter j follow_mouse a)) = Some src).
      { induction j as [|j IHj]; simpl; [done|].
        destruct (follow_mouse_frame (Nat.iter j follow_mouse a)) as (_ & _ & _ & -> & _).
        done. }
      induction k as [|k IHk]; intros l.
      - simpl. rewrite (Hstep a Hsel). simpl. intros [= <-]. lia.
      - change (Nat.iter (S (S k)) follow_mouse a)
          with (follow_mouse (Nat.iter (S k) follow_mouse a)).
        rewrite (Hstep _ (Hsk (S k))). simpl. intros [= <-].
        destruct (temp_line (canvas (Nat.iter (S k) follow_mouse a))) as [l0|] eqn:E.
        + destruct (IHk l0 eq_refl) as [H1 H2].
          change (Nat.iter (S k) follow_mouse a)
            with (follow_mouse (Nat.iter k follow_mouse a)) in H2. lia.
        + exfalso. revert E. change (Nat.iter (S k) follow_mouse a)
            with (follow_mouse (Nat.iter k follow_mouse a)).
          by rewrite (Hstep _ (Hsk k)). }
    rewrite (Hstep b Hs). simpl. rewrite Ht. exists (next_item (canvas b)).
    split_and!; try done.
    + intros Hin. apply Hb in Hin. lia.
    + intros i. rewrite elem_of_union, elem_of_singleton, elem_of_difference,
        elem_of_singleton, Hi.
      split.
      * intros [?|[[?|[? ?]] ?]]; auto; done.
      * intros [->|[Hin Hne]]; [by left|]. right. split; [by right|].
        intros ->. by apply Hl.
Qed.

(** X8.  A double click adds one node under a new id: the document
    view gains the entry of a node of size 160 by 52 with the text
    ["New Node"] whose centre is the pointer, the node object is new and
    registers no edge, and every other node, every edge and the selection
    are as before. *)
Theorem on_double_adds_centred_node (ex ey : number) (a : App) :
  canvas_wf (canvas a) →
  let a' := on_double uuid4 now_str ex ey a in
  let id := uuid4 (uuid_calls a) in
  node_view (canvas a')
  = <[id := mkNodeDoc (Some id) (Some (ex - num 80)%Q) (Some (ey - num 26)%Q)
                      (Some "New Node") (Some (num 160)) (Some (num 52))]>
      (node_view (canvas a))
  ∧ edge_view (canvas a') = edge_view (canvas a)
  ∧ selected_item (canvas a') = selected_item (canvas a)
  ∧ (∀ r n, heap (canvas a) !! r = Some n → heap (canvas a') !! r = Some n)
  ∧ ∃ r n, nodes (canvas a') !! id = Some r
           ∧ heap (canvas a') !! r = Some n
           ∧ heap (canvas a) !! r = None
           ∧ n_connections n = ∅
           ∧ (n_x n + n_width n / num 2 == ex)%Q
           ∧ (n_y n + n_height n / num 2 == ey)%Q.
Proof.
  clear uuid4_truthy. intros (W1 & W2 & W3 & _) a' id.
  set (r := next_ref (canvas a)).
  set (n := mkNode id (ex - num 80)%Q (ey - num 26)%Q (num 160) (num 52)
                   "New Node" (next_item (canvas a)) (S (next_item (canvas a))) ∅).
  assert (Hh : heap (canvas a') = <[r := n]> (heap (canvas a))) by done.
  assert (Hn : nodes (canvas a') = <[id := r]> (nodes (canvas a))).
  { unfold a', on_double, Node_init, deref. simpl. by rewrite lookup_insert_eq. }
  assert (He : edges (canvas a') = edges (canvas a)) by done.
  assert (Hfresh : heap (canvas a) !! r = None).
  { destruct (heap (canvas a) !! r) eqn:E; [|done].
    assert (Hlt : (r < next_ref (canvas a))%nat) by (apply W1; by eexists).
    unfold r in Hlt. lia. }
  assert (Hd : ∀ r0, (r0 < next_ref (canvas a))%nat →
                     deref (canvas a') r0 = deref (canvas a) r0).
  { intros r0 Hlt. unfold deref. rewrite Hh, lookup_insert_ne; [done|unfold r; lia]. }
  split_and!.
  - unfold node_view. rewrite Hn, fmap_insert. f_equal.
    + unfold deref. by rewrite Hh, lookup_insert_eq.
    + apply map_fmap_ext. intros k r0 Hk. simpl. rewrite Hd; [done|]. exact (W2 k r0 Hk).
  - unfold edge_view. rewrite He. apply map_fmap_ext. intros k e Hk.
    destruct (W3 k e Hk) as [Ha Hb]. unfold Edge_serialize. by rewrite !Hd.
  - done.
  - intros r0 n0 Hr0. rewrite Hh, lookup_insert_ne; [done|].
    intros <-. by rewrite Hfresh in Hr0.
  - exists r, n. split_and!.
    + by rewrite Hn, lookup_insert_eq.
    + by rewrite Hh, lookup_insert_eq.
    + done.
    + done.
    + simpl. unfold num. field.
    + simpl. unfold num. field.
Qed.

(** X9.  Renaming a node of the diagram changes the text of its entry in
    the document view and nothing else there: the other entries and all
    edges are as before, also when the new text is empty; a cancelled
    dialog changes nothing at all. *)
Theorem right_click_renames_that_node (self : ref) (k new : string) (a : App) :
  canvas_wf (canvas a) →
  nodes (canvas a) !! k = Some self →
  let n := deref (canvas a) self in
  let a' := Node_on_right_click now_str self (Some new) a in
  node_view (canvas a')
  = <[k := mkNodeDoc (Some k) (Some (n_x n)) (Some (n_y n)) (Some new)
                     (Some (n_width n)) (Some (n_height n))]> (node_view (canvas a))
  ∧ edge_view (canvas a') = edge_view (canvas a)
  ∧ nodes (canvas a') = nodes (canvas a)
  ∧ edges (canvas a') = edges (canvas a)
  ∧ selected_item (canvas a') = selected_item (canvas a)
  ∧ log_text a' = log_text a ++ ["[" +:+ now_str (clock a) +:+ "] "
                                 +:+ "Node '" +:+ k +:+ "' text updated."]
  ∧ Node_on_right_click now_str self None a = a.
Proof.
  clear uuid4 uuid4_truthy. intros (W1 & W2 & W3 & _ & W5 & _) Hk n a'.
  destruct (W5 k self Hk) as [Hid _].
  assert (Hsome : is_Some (heap (canvas a) !! self)) by (apply W1; exact (W2 k self Hk)).
  destruct Hsome as [n0 Hn0].
  assert (Hn : n = n0) by (unfold n, deref; by rewrite Hn0).
  assert (Hd : ∀ r, deref (canvas a') r
                    = if decide (r = self) then node_set_text new n else deref (canvas a) r).
  { intros r. unfold a', deref. simpl. rewrite lookup_alter.
    destruct (decide (r = self)) as [->|E].
    - by rewrite decide_True, Hn0, Hn.
    - by rewrite decide_False by congruence. }
  assert (Hidr : ∀ r, n_id (deref (canvas a') r) = n_id (deref (canvas a) r)).
  { intros r. rewrite Hd. case_decide; [by subst|done]. }
  split_and!; try done.
  - unfold node_view. change (nodes (canvas a')) with (nodes (canvas a)).
    apply map_eq. intros k0. rewrite lookup_insert, !lookup_fmap. case_decide as E.
    + subst k0. rewrite Hk. simpl. rewrite Hd, decide_True by done.
      unfold Node_serialize. simpl. fold n in Hid. by rewrite Hid.
    + destruct (nodes (canvas a) !! k0) as [r|] eqn:E0; [|done]. simpl.
      rewrite Hd. case_decide as E1; [|done]. subst r.
      destruct (W5 k0 self E0) as [Hid0 _]. congruence.
  - unfold edge_view. change (edges (canvas a')) with (edges (canvas a)).
    apply map_fmap_ext. intros k0 e _. unfold Edge_serialize. by rewrite !Hidr.
  - unfold a'. simpl. unfold deref. simpl. rewrite lookup_alter_eq, Hn0. simpl.
    rewrite <- Hid. unfold deref. by rewrite Hn0.
Qed.

(** X10.  The node that a click in connecting mode hits is a node of the
    diagram that owns one of the overlapping items, as its rectangle or as
    its text; no node is hit exactly when no node of the diagram owns any
    of them. *)
Theorem hit_target_owner (c : Canvas) (its : list item) :
  match hit_target c its with
  | Some r => ∃ it k, it ∈ its ∧ nodes c !! k = Some r
                      ∧ (it = n_rect (deref c r) ∨ it = n_text_id (deref c r))
  | None => ∀ it k r, it ∈ its → nodes c !! k = Some r
                      → it ≠ n_rect (deref c r) ∧ it ≠ n_text_id (deref c r)
  end.
Proof.
  clear. induction its as [|it its IH]; simpl.
  - intros it k r Hin. by apply elem_of_nil in Hin.
  - unfold node_of_item.
    destruct (List.find (owns c it) (map_to_list (nodes c))) as [[k r]|] eqn:F; simpl.
    + apply List.find_some in F as [Hin Ho].
      exists it, k. split_and!; [by left| |].
      * apply elem_of_map_to_list. by apply list_elem_of_In.
      * unfold owns in Ho. simpl in Ho. apply orb_prop in Ho as [Ho|Ho];
          apply bool_decide_eq_true in Ho; auto.
    + destruct (hit_target c its) as [r|].
      * destruct IH as (it' & k & Hin & Hk & Ho). exists it', k.
        split_and!; [by right|done..].
      * intros it' k r Hin Hk. apply elem_of_cons in Hin as [->|Hin]; [|by eapply IH].
        pose proof (List.find_none _ _ F (k, r)) as Hno.
        unfold owns in Hno. simpl in Hno.
        assert (Hx : bool_decide (it = n_rect (deref c r))
                     || bool_decide (it = n_text_id (deref c r)) = false).
        { apply Hno. apply list_elem_of_In. by apply elem_of_map_to_list. }
        apply orb_false_elim in Hx as [H1 H2].
        apply bool_decide_eq_false in H1, H2. done.
Qed.

Lemma clear_nodes_items (l : list (string * ref)) (c : Canvas) :
  let c' := foldl (λ c kr, let n := deref c kr.2 in
                           delete_item (n_text_id n) (delete_item (n_rect n) c)) c l in
  heap c' = heap c ∧ edges c' = edges c
  ∧ ∀ i, i ∈ items c'
         ↔ i ∈ items c ∧ ∀ kr, kr ∈ l → i ≠ n_rect (deref c kr.2)
                                         ∧ i ≠ n_text_id (deref c kr.2).
Proof.
  clear. revert c. induction l as [|kr l IH]; intros c; simpl.
  - split_and!; [done..|]. intros i. split; [|tauto].
    intros Hi. split; [done|]. intros kr Hin. by apply elem_of_nil in Hin.
  - set (c1 := delete_item (n_text_id (deref c kr.2)) (delete_item (n_rect (deref c kr.2)) c)).
    destruct (IH c1) as (Hh & He & Hi). split_and!; [exact Hh|exact He|].
    intros i.
    assert (Hd : ∀ r, deref c1 r = deref c r) by done.
    assert (Hc1 : i ∈ items c1 ↔ i ∈ items c ∧ i ≠ n_rect (deref c kr.2)
                                  ∧ i ≠ n_text_id (deref c kr.2)).
    { unfold c1. simpl. rewrite !elem_of_difference, !elem_of_singleton. tauto. }
    split.
    + intros H. apply Hi in H as [Hin Hl]. apply Hc1 in Hin as (Hin & H1 & H2).
      split; [done|]. intros kr' Hkr.
      apply elem_of_cons in Hkr as [->|Hkr]; [done|].
      rewrite <- !Hd. by apply Hl.
    + intros [Hin Hl]. apply Hi. split.
      * apply Hc1. split; [done|]. apply Hl. by left.
      * intros kr' Hkr. rewrite !Hd. apply Hl. by right.
Qed.

Lemma clear_edges_items (l : list (string * Edge)) (c : Canvas) :
  let c' := foldl (λ c (ke : string * Edge), delete_item (e_line ke.2) c) c l in
  ∀ i, i ∈ items c' ↔ i ∈ items c ∧ ∀ ke, ke ∈ l → i ≠ e_line ke.2.
Proof.
  clear. revert c. induction l as [|ke l IH]; intros c; simpl.
  - intros i. split; [|tauto].
    intros Hi. split; [done|]. intros ke Hin. by apply elem_of_nil in Hin.
  - intros i. rewrite (IH (delete_item (e_line ke.2) c) i). simpl.
    rewrite elem_of_difference, elem_of_singleton. split.
    + intros [[Hin H1] Hl]. split; [done|]. intros ke' Hke.
      apply elem_of_cons in Hke as [->|Hke]; [done|]. by apply Hl.
    + intros [Hin Hl]. split_and!; [done|apply Hl; by left|].
      intros ke' Hke. apply Hl. by right.
Qed.

(** X11.  Clearing the canvas empties the diagram and removes from the
    canvas exactly the items of its nodes and edges.  The node objects, the
    selection and the provisional line are left as they are: a node that
    was selected stays selected after it has left the diagram. *)
Theorem clear_removes_diagram_items (c : Canvas) :
  nodes (clear c) = ∅ ∧ edges (clear c) = ∅
  ∧ (∀ i, i ∈ items (clear c)
          ↔ i ∈ items c
            ∧ (∀ k r, nodes c !! k = Some r
                      → i ≠ n_rect (deref c r) ∧ i ≠ n_text_id (deref c r))
            ∧ (∀ k e, edges c !! k = Some e → i ≠ e_line e))
  ∧ heap (clear c) = heap c
  ∧ selected_item (clear c) = selected_item c
  ∧ temp_line (clear c) = temp_line c.
Proof.
  clear. destruct (clear_frame c) as (Hh & _ & Hn & He & Hs & Ht).
  split_and!; try done.
  intros i. unfold clear. simpl.
  destruct (clear_nodes_items (map_to_list (nodes c)) c) as (_ & He1 & Hi1).
  set (c1 := foldl _ c (map_to_list (nodes c))) in *.
  rewrite (clear_edges_items (map_to_list (edges c1)) c1 i), Hi1, He1.
  split.
  - intros [[Hin H1] H2]. split_and!; [done| |].
    + intros k r Hk. apply (H1 (k, r)). by apply elem_of_map_to_list.
    + intros k e Hk. apply (H2 (k, e)). by apply elem_of_map_to_list.
  - intros (Hin & H1 & H2). split_and!; [done| |].
    + intros [k r] Hk. apply (H1 k r). by apply elem_of_map_to_list.
    + intros [k e] Hk. apply (H2 k e). by apply elem_of_map_to_list.
Qed.

(** *** The store and the session *)

Lemma ascii_compare_trans (c1 c2 c3 : ascii) (o : comparison) :
  Ascii.compare c1 c2 = o → Ascii.compare c2 c3 = o → Ascii.compare c1 c3 = o.
Proof.
  clear. unfold Ascii.compare. destruct o; intros H1 H2.
  - apply N.compare_eq_iff in H1, H2. apply N.compare_eq_iff. congruence.
  - apply N.compare_lt_iff in H1, H2. apply N.compare_lt_iff. by etrans.
  - apply N.compare_gt_iff in H1, H2. apply N.compare_gt_iff. by etrans.
Qed.

Lemma string_leb_trans (s1 s2 s3 : string) :
  String.leb s1 s2 = true → String.leb s2 s3 = true → String.leb s1 s3 = true.
Proof.
  clear. unfold String.leb. revert s2 s3.
  induction s1 as [|c1 s1 IH]; intros [|c2 s2] [|c3 s3]; simpl; try done.
  destruct (Ascii.compare c1 c2) eqn:E12; destruct (Ascii.compare c2 c3) eqn:E23;
    try done.
  - rewrite (ascii_compare_trans _ _ _ _ E12 E23). apply IH.
  - apply Ascii.compare_eq_iff in E12. subst. by rewrite E23.
  - apply Ascii.compare_eq_iff in E23. subst. by rewrite E12.
  - by rewrite (ascii_compare_trans _ _ _ _ E12 E23).
Qed.

Lemma string_ltb_leb (s1 s2 : string) :
  (String.ltb s1 s2 = true → String.leb s1 s2 = true)
  ∧ (String.ltb s1 s2 = false → String.leb s2 s1 = true).
Proof.
  clear. unfold String.ltb, String.leb. rewrite (String.compare_antisym s2 s1).
  by destruct (String.compare s1 s2).
Qed.

Lemma insert_desc_sorted (x : string * Meta) (l : list (string * Meta)) :
  StronglySorted (λ p q, String.leb (modified_key q) (modified_key p) = true) l →
  StronglySorted (λ p q, String.leb (modified_key q) (modified_key p) = true)
                 (insert_desc x l).
Proof.
  clear. induction 1 as [|y l Hs IH Hy]; simpl.
  - repeat constructor.
  - destruct (String.ltb (modified_key y) (modified_key x)) eqn:E.
    + apply string_ltb_leb in E. constructor; [by constructor|].
      constructor; [done|]. eapply Forall_impl; [exact Hy|].
      intros z Hz. simpl in Hz. by eapply string_leb_trans.
    + apply string_ltb_leb in E. constructor; [done|].
      rewrite insert_desc_perm. by constructor.
Qed.

(** X12.  The listing of a user shows the maps of the index of the user,
    each of them once, ordered by their [modified] stamp with the latest
    first; a map without the stamp counts as the oldest. *)
Theorem list_maps_newest_first (u : string) (a : App) :
  list_maps u a ≡ₚ map_to_list (load_user_maps_index u a)
  ∧ NoDup (list_maps u a).*1
  ∧ StronglySorted (λ p q, String.leb (modified_key q) (modified_key p) = true)
                   (list_maps u a).
Proof.
  clear. unfold list_maps. split_and!.
  - apply sorted_desc_perm.
  - rewrite sorted_desc_perm. apply NoDup_fst_map_to_list.
  - unfold sorted_desc.
    assert (H : ∀ l acc,
              StronglySorted (λ p q, String.leb (modified_key q) (modified_key p) = true) acc →
              StronglySorted (λ p q, String.leb (modified_key q) (modified_key p) = true)
                             (foldl (λ acc x, insert_desc x acc) acc l)).
    { induction l as [|x l IH]; intros acc Hacc; simpl; [done|].
      apply IH. by apply insert_desc_sorted. }
    apply H. constructor.
Qed.

Lemma delete_edge_session (eid : string) (a : App) :
  same_store a (delete_edge now_str eid a)
  ∧ current_user (delete_edge now_str eid a) = current_user a.
Proof. clear. unfold delete_edge. by destruct (edges (canvas a) !! eid). Qed.

Lemma delete_edges_session (l : list string) (a : App) :
  same_store a (foldl (λ a eid, delete_edge now_str eid a) a l)
  ∧ current_user (foldl (λ a eid, delete_edge now_str eid a) a l) = current_user a.
Proof.
  clear. revert a. induction l as [|eid l IH]; intros a; [done|].
  change (foldl (λ a eid, delete_edge now_str eid a) a (eid :: l))
    with (foldl (λ a eid, delete_edge now_str eid a) (delete_edge now_str eid a) l).
  destruct (IH (delete_edge now_str eid a)) as ((H1 & H2 & H3) & H4).
  destruct (delete_edge_session eid a) as ((E1 & E2 & E3) & E4).
  unfold same_store. rewrite H1, H2, H3, H4. done.
Qed.

Lemma delete_node_session (r : ref) (a : App) :
  same_store a (delete_node now_str r a)
  ∧ current_user (delete_node now_str r a) = current_user a.
Proof.
  clear. unfold delete_node.
  destruct (delete_edges_session (elements (n_connections (deref (canvas a) r))) a)
    as (H & Hu).
  done.
Qed.

Lemma load_from_session (data : Doc) (a : App) :
  same_store a (load_from uuid4 data a)
  ∧ current_user (load_from uuid4 data a) = current_user a
  ∧ current_map_id (load_from uuid4 data a) = current_map_id a
  ∧ current_map_meta (load_from uuid4 data a) = current_map_meta a
  ∧ clock (load_from uuid4 data a) = clock a.
Proof.
  clear. rewrite load_from_eq.
  assert (Hn : ∀ l st,
            let st' := foldl (load_node uuid4) st l in
            same_store st.2 st'.2 ∧ current_user st'.2 = current_user st.2
            ∧ current_map_id st'.2 = current_map_id st.2
            ∧ current_map_meta st'.2 = current_map_meta st.2
            ∧ clock st'.2 = clock st.2).
  { induction l as [|nd l IH]; intros st; [done|].
    change (foldl (load_node uuid4) st (nd :: l))
      with (foldl (load_node uuid4) (load_node uuid4 st nd) l).
    destruct (IH (load_node uuid4 st nd)) as ((H1 & H2 & H3) & H4 & H5 & H6 & H7).
    unfold same_store. simpl. rewrite H1, H2, H3, H4, H5, H6, H7.
    rewrite (surjective_pairing st), load_node_eq, or_uuid_eq. simpl.
    by destruct (nonempty (nd_id nd)). }
  assert (He : ∀ m l b,
            let b' := foldl (load_edge uuid4 m) b l in
            same_store b b' ∧ current_user b' = current_user b
            ∧ current_map_id b' = current_map_id b
            ∧ current_map_meta b' = current_map_meta b
            ∧ clock b' = clock b).
  { intros m. induction l as [|ed l IH]; intros b; [done|].
    change (foldl (load_edge uuid4 m) b (ed :: l))
      with (foldl (load_edge uuid4 m) (load_edge uuid4 m b ed) l).
    destruct (IH (load_edge uuid4 m b ed)) as ((H1 & H2 & H3) & H4 & H5 & H6 & H7).
    unfold same_store. simpl. rewrite H1, H2, H3, H4, H5, H6, H7.
    rewrite load_edge_eq, or_uuid_eq.
    destruct (id_map_get m (ed_a ed)); [|done].
    destruct (id_map_get m (ed_b ed)); [|done].
    by destruct (nonempty (ed_id ed)). }
  set (st := foldl (load_node uuid4) (∅, on_canvas clear a) (default [] (doc_nodes data))).
  destruct (He st.1 (default [] (doc_edges data)) st.2) as ((H1 & H2 & H3) & H4 & H5 & H6 & H7).
  destruct (Hn (default [] (doc_nodes data)) (∅, on_canvas clear a))
    as ((G1 & G2 & G3) & G4 & G5 & G6 & G7).
  fold st in G1, G2, G3, G4, G5, G6, G7.
  unfold same_store. simpl. rewrite H1, H2, H3, H4, H5, H6, H7, G1, G2, G3, G4, G5, G6, G7.
  done.
Qed.

(** The handlers that call none of the writing functions. *)
Lemma handle_no_write (ev : Event) (a : App) :
  writes_store ev = false →
  same_store a (handle uuid4 now_str ev a)
  ∧ (ev ≠ CmdLogout → current_user (handle uuid4 now_str ev a) = current_user a).
Proof.
  clear uuid4_truthy. destruct ev; simpl; try done; intros _.
  - by destruct reply.
  - destruct (button1 (canvas a)).
    + by destruct current.
    + unfold finish_connection.
      destruct (hit_target (canvas a) overlapping); [|done].
      destruct (selected_item (canvas a)); [|done].
      by case_bool_decide.
  - destruct (motion_bound (canvas a)); [|done].
    unfold follow_mouse. destruct (temp_line (canvas a)); simpl;
      by destruct (selected_item (canvas a)).
  - unfold on_delete_key. destruct (selected_item (canvas a)) as [r|]; [|done].
    destruct (delete_node_session r a) as (H & Hu). done.
  - unfold canvas_start_connection, start_connection.
    by destruct (selected_item (canvas a)).
  - unfold delete_selected_node. destruct (selected_item (canvas a)) as [r|]; [|done].
    destruct (delete_node_session r a) as (H & Hu). done.
  - unfold logout_user. by destruct (nonempty (current_user a)).
  - unfold open_selected_map. destruct (sel ≫= _) as [val|]; [|done].
    unfold load_map. destruct (nonempty (current_user a)) as [u|]; [|done].
    destruct (load_map_file u (split_bar_head val) a) as [data|]; [|done].
    destruct (load_from_session data a) as (H & Hu & _). done.
Qed.

(** With nobody logged in, only a login changes the store. *)
Lemma handle_logged_out (ev : Event) (a : App) :
  current_user a = None → is_login ev = false →
  same_store a (handle uuid4 now_str ev a)
  ∧ current_user (handle uuid4 now_str ev a) = None.
Proof.
  clear uuid4_truthy. intros Hu Hl.
  destruct (writes_store ev) eqn:Hw.
  - destruct ev; try done; simpl.
    + unfold new_map_for_user. by rewrite Hu.
    + unfold delete_selected_map. destruct (sel ≫= _); [|done].
      destruct confirm; [|done]. unfold delete_map. by rewrite Hu.
    + unfold open_map_dialog. by rewrite Hu.
    + unfold save_map. by rewrite Hu.
  - destruct (handle_no_write ev a Hw) as [Hs Hc]. split; [done|].
    destruct ev; try (by rewrite Hc).
    simpl. unfold logout_user. by rewrite Hu.
Qed.

(** X13.  Working on the diagram never touches the store: creating,
    selecting, renaming, moving, connecting and deleting nodes, logging
    out and opening a map from the list leave every file as it is and
    write nothing.  Only a login, a new map, a deletion of a map, the open
    dialog and a save reach the writing functions. *)
Theorem editing_never_writes_store (ev : Event) (a : App) :
  writes_store ev = false →
  let a' := handle uuid4 now_str ev a in
  map_files a' = map_files a ∧ index_files a' = index_files a
  ∧ fs_trace a' = fs_trace a.
Proof. clear uuid4_truthy. intros Hw. by destruct (handle_no_write ev a Hw). Qed.

(** X14.  While nobody is logged in nothing is written: whatever is
    done before the next login, the files are those of the start and the
    session stays logged out. *)
Theorem logged_out_run_keeps_store (a a' : App) (evs : list Event) :
  current_user a = None →
  Forall (λ ev, is_login ev = false) evs →
  run uuid4 now_str a evs a' →
  map_files a' = map_files a ∧ index_files a' = index_files a
  ∧ fs_trace a' = fs_trace a ∧ current_user a' = None.
Proof.
  clear uuid4_truthy. intros Hu Hev Hrun. revert Hu Hev.
  induction Hrun as [a|a ev evs a' Hok Hrun IH]; intros Hu Hev; [done|].
  apply Forall_cons in Hev as [Hl Hev].
  destruct (handle_logged_out ev a Hu Hl) as ((H1 & H2 & H3) & Hu').
  destruct (IH Hu' Hev) as (I1 & I2 & I3 & I4).
  rewrite I1, I2, I3. done.
Qed.

(** X15.  A new map is entered in the index of the user and in the
    listing, with its title and the time of its creation, and becomes the
    map of the session on an empty canvas; no map file is written for it.
    Opening it from the list before it was saved finds no file and changes
    nothing. *)
Theorem new_map_is_listed_without_file (title u : string) (a : App) :
  nonempty (current_user a) = Some u →
  let mid := uuid4 (uuid_calls a) in
  let meta := mkMeta (Some title) (Some (now_str (clock a)))
                     (Some (now_str (S (clock a)))) in
  let a' := new_map_for_user uuid4 now_str (Some title) a in
  has_bar mid = false →
  map_files a !! (u, mid) = None →
  current_map_id a' = Some mid ∧ current_map_meta a' = Some meta
  ∧ load_user_maps_index u a' = <[mid := meta]> (load_user_maps_index u a)
  ∧ map_files a' = map_files a
  ∧ fs_trace a' = fs_trace a ++ [WriteIndex u (<[mid := meta]> (load_user_maps_index u a))]
  ∧ nodes (canvas a') = ∅ ∧ edges (canvas a') = ∅
  ∧ ∃ i, maps_list a' !! i = Some (list_row (mid, meta))
         ∧ open_selected_map uuid4 now_str (Some i) a' = a'.
Proof.
  clear uuid4_truthy. intros Hu mid meta a' Hbar Hfile.
  assert (Hidx : load_user_maps_index u a' = <[mid := meta]> (load_user_maps_index u a)).
  { unfold a', new_map_for_user. rewrite Hu. unfold load_user_maps_index. simpl.
    unfold refresh_maps_list. simpl. destruct (nonempty (current_user a)); simpl;
      by rewrite lookup_insert_eq. }
  assert (Hfiles : map_files a' = map_files a).
  { unfold a', new_map_for_user. rewrite Hu. simpl.
    unfold refresh_maps_list. simpl. by destruct (nonempty (current_user a)). }
  assert (Huser : current_user a' = current_user a).
  { unfold a', new_map_for_user. rewrite Hu. simpl.
    unfold refresh_maps_list. simpl. by destruct (nonempty (current_user a)). }
  assert (Hlist : maps_list a'
                  = list_row <$> sorted_desc (map_to_list (<[mid := meta]> (load_user_maps_index u a)))).
  { unfold a', new_map_for_user. rewrite Hu. simpl.
    unfold refresh_maps_list. simpl. rewrite Hu. simpl.
    unfold list_maps, load_user_maps_index. simpl. by rewrite lookup_insert_eq. }
  destruct (clear_frame (canvas a)) as (_ & _ & Hn & He & _).
  split_and!.
  - unfold a', new_map_for_user. rewrite Hu. simpl.
    unfold refresh_maps_list. simpl. by destruct (nonempty (current_user a)).
  - unfold a', new_map_for_user. rewrite Hu. simpl.
    unfold refresh_maps_list. simpl. by destruct (nonempty (current_user a)).
  - done.
  - done.
  - unfold a', new_map_for_user. rewrite Hu. simpl.
    unfold refresh_maps_list. simpl. by destruct (nonempty (current_user a)).
  - unfold a', new_map_for_user. rewrite Hu. simpl.
    unfold refresh_maps_list. simpl. by destruct (nonempty (current_user a)).
  - unfold a', new_map_for_user. rewrite Hu. simpl.
    unfold refresh_maps_list. simpl. by destruct (nonempty (current_user a)).
  - assert (Hin : (mid, meta) ∈ sorted_desc (map_to_list (<[mid := meta]> (load_user_maps_index u a)))).
    { rewrite sorted_desc_perm. apply elem_of_map_to_list. apply lookup_insert_eq. }
    apply list_elem_of_lookup in Hin as [i Hi]. exists i. split.
    + by rewrite Hlist, list_lookup_fmap, Hi.
    + unfold open_selected_map. simpl. rewrite Hlist, list_lookup_fmap, Hi. simpl.
      unfold list_row. simpl. rewrite split_bar_head_row by done.
      unfold load_map. rewrite Huser, Hu. unfold load_map_file.
      by rewrite Hfiles, Hfile.
Qed.

(** Loading what [serialize] wrote, in any state of the application. *)
Lemma load_serialized_views (a b : App) :
  keyed_nodes (canvas a) → keyed_edges (canvas a) → resolvable (canvas a) →
  let b' := load_from uuid4 (serialize (canvas a)) b in
  node_view (canvas b') = node_view (canvas a)
  ∧ edge_view (canvas b') = edge_view (canvas a).
Proof.
  clear uuid4_truthy. intros Kn Ke Res b'. subst b'.
  assert (Hdn : doc_nodes (serialize (canvas a))
                = Some (node_entry (canvas a) <$> map_to_list (nodes (canvas a)))) by done.
  assert (Hde : doc_edges (serialize (canvas a))
                = Some (edge_entry (canvas a) <$> map_to_list (edges (canvas a)))) by done.
  assert (FKn : ∀ p p', map_to_list (nodes (canvas a)) = p' ++ p →
            Forall (λ kr, n_id (deref (canvas a) kr.2) = kr.1 ∧ truthy kr.1 = true) p).
  { intros p p' Hp. apply Forall_forall. intros [k r] Hin.
    assert (Hin' : (k, r) ∈ map_to_list (nodes (canvas a)))
      by (rewrite Hp; apply elem_of_app; by right).
    apply elem_of_map_to_list in Hin'. exact (Kn k r Hin'). }
  assert (FKe : ∀ p p', map_to_list (edges (canvas a)) = p' ++ p →
            Forall (λ ke, e_id ke.2 = ke.1 ∧ truthy ke.1 = true) p).
  { intros p p' Hp. apply Forall_forall. intros [k e] Hin.
    assert (Hin' : (k, e) ∈ map_to_list (edges (canvas a)))
      by (rewrite Hp; apply elem_of_app; by right).
    apply elem_of_map_to_list in Hin'. exact (Ke k e Hin'). }
  pose proof (load_nodes_id_map uuid4 (node_entry (canvas a) <$> map_to_list (nodes (canvas a))) b)
    as (Hm & Hids & _).
  rewrite assigned_ids_serialized in Hids by (by apply (FKn _ [])).
  set (st := foldl (load_node uuid4) (∅, on_canvas clear b)
               (node_entry (canvas a) <$> map_to_list (nodes (canvas a)))) in *.
  assert (Hkeys : ∀ k, is_Some (st.1 !! k) ↔ is_Some (nodes (canvas a) !! k)).
  { intros k. rewrite <- Hids, list_elem_of_fmap. split.
    - intros [[k' r] [-> Hin]]. apply elem_of_map_to_list in Hin. by exists r.
    - intros [r Hr]. exists (k, r). split; [done|]. by apply elem_of_map_to_list. }
  assert (Hb' : load_from uuid4 (serialize (canvas a)) b
                = foldl (load_edge uuid4 st.1) st.2
                    (edge_entry (canvas a) <$> map_to_list (edges (canvas a)))).
  { rewrite load_from_eq. by rewrite Hdn, Hde. }
  pose proof (load_edges_spec uuid4 st.1
                (edge_entry (canvas a) <$> map_to_list (edges (canvas a))) st.2)
    as (En & _ & _ & Eh & E5 & _).
  rewrite <- Hb' in En, Eh, E5.
  split; apply map_eq; intros k.
  - unfold node_view at 2. rewrite lookup_fmap.
    destruct (nodes (canvas a) !! k) as [r0|] eqn:Hk; simpl.
    + destruct (map_to_list_split _ _ _ Hk) as (p1 & p2 & Hsplit & Hnin).
      destruct (Kn k r0 Hk) as [Hid Ht].
      pose proof (load_nodes_entry uuid4 (node_entry (canvas a) <$> p1)
                    (node_entry (canvas a) <$> p2)
                    (node_entry (canvas a) (k, r0)) (∅, on_canvas clear b)) as Hnd.
      simpl in Hnd. rewrite Hid, Ht in Hnd. simpl in Hnd.
      rewrite <- fmap_cons, <- fmap_app, <- Hsplit in Hnd. fold st in Hnd.
      destruct Hnd as (Hheap & _ & Hnode).
      rewrite assigned_ids_serialized in Hnode
        by (apply (FKn _ (p1 ++ [(k, r0)])); by rewrite <- app_assoc).
      destruct (Hnode Hnin) as [Hnk _].
      unfold node_view. rewrite lookup_fmap, En, Hnk. simpl. f_equal.
      match type of Hheap with ?h !! ?r = Some ?n =>
        specialize (Eh r); rewrite Hheap in Eh end.
      unfold deref at 1.
      destruct (heap (canvas (load_from uuid4 (serialize (canvas a)) b)) !! _) as [n|];
        [|done].
      simpl in *. assert (E : Node_serialize n = Node_serialize (loaded_node
                     (node_entry (canvas a) (k, r0)) k
                     (next_item (canvas (foldl (load_node uuid4) (∅, on_canvas clear b)
                                           (node_entry (canvas a) <$> p1)).2))))
        by (by apply (inj Some)).
      rewrite E. unfold Node_serialize, loaded_node, node_entry. simpl. by rewrite Hid.
    + unfold node_view. rewrite lookup_fmap, En, <- Hm.
      destruct (st.1 !! k) eqn:E; [|done].
      assert (is_Some (nodes (canvas a) !! k)) as [? ?] by (apply Hkeys; eauto).
      congruence.
  - unfold edge_view at 2. rewrite lookup_fmap.
    destruct (edges (canvas a) !! k) as [e0|] eqn:Hk; simpl.
    + destruct (map_to_list_split _ _ _ Hk) as (p1 & p2 & Hsplit & Hnin).
      destruct (Ke k e0 Hk) as [Hid Ht].
      destruct (Res k e0 Hk) as [Ra Rb].
      pose proof (load_from_edge_entry uuid4 (serialize (canvas a)) b
                    (edge_entry (canvas a) <$> p1) (edge_entry (canvas a) <$> p2)
                    (edge_entry (canvas a) (k, e0))
                    (n_id (deref (canvas a) (e_a e0))) (n_id (deref (canvas a) (e_b e0))))
        as Hed.
      simpl in Hed. rewrite Hid, Ht in Hed. simpl in Hed.
      destruct Hed as (_ & Hedge).
      { by rewrite Hsplit, fmap_app. }
      { done. } { done. }
      { by apply Hkeys. }
      { by apply Hkeys. }
      rewrite Hedge.
      * unfold Edge_serialize. by rewrite Hid.
      * intros Hin. apply edge_ids_serialized in Hin; [done|].
        apply (FKe _ (p1 ++ [(k, e0)])). by rewrite <- app_assoc.
    + unfold edge_view. rewrite lookup_fmap, E5.
      * pose proof (load_nodes_spec uuid4
                      (node_entry (canvas a) <$> map_to_list (nodes (canvas a)))
                      ∅ (on_canvas clear b)) as (_ & _ & _ & _ & Hed & _).
        fold st in Hed. rewrite Hed.
        destruct (clear_frame (canvas b)) as (_ & _ & _ & Hce & _).
        change (edges (canvas (on_canvas clear b))) with (edges (clear (canvas b))).
        by rewrite Hce, lookup_empty.
      * intros Hin. apply edge_ids_serialized in Hin; [|by apply (FKe _ [])].
        apply list_elem_of_fmap in Hin as [[k' e] [-> Hin]].
        apply elem_of_map_to_list in Hin. simpl in Hk. congruence.
Qed.


(** The files after a save that goes through. *)
Lemma save_map_files (reply : option string) (a a1 : App) (u : string) :
  nonempty (current_user a) = Some u →
  save_map_prepare uuid4 now_str reply a = Some a1 →
  let mid := default "" (current_map_id a1) in
  let meta := (stamp now_str (meta_or_empty (current_map_meta a1)) (clock a1)).1 in
  let a' := save_map uuid4 now_str reply a in
  map_files a' = <[(u, mid) := serialize (canvas a)]> (map_files a)
  ∧ load_user_maps_index u a' = <[mid := meta]> (load_user_maps_index u a)
  ∧ (∀ u', u' ≠ u → index_files a' !! u' = index_files a !! u')
  ∧ canvas a' = canvas a
  ∧ current_user a' = current_user a
  ∧ current_map_id a' = current_map_id a1.
Proof.
  clear uuid4_truthy. intros Hu Hp mid meta a'. subst a'. unfold save_map. rewrite Hu, Hp.
  destruct (save_map_prepare_frame _ _ _ _ _ Hp) as (Hc & Hcu & Hmf & Hif & Hft & _).
  fold mid.
  set (session := meta_or_empty (current_map_meta a1)) in *.
  assert (Hst : stamp now_str session (clock a1) = (meta, (stamp now_str session (clock a1)).2))
    by (unfold meta; by destruct (stamp _ _ _)).
  set (a2 := save_map_file u mid (serialize (canvas a1)) a1).
  assert (H2 : load_user_maps_index u a2 = load_user_maps_index u a
               ∧ map_files a2 = <[(u, mid) := serialize (canvas a)]> (map_files a)
               ∧ (∀ u', u' ≠ u → index_files a2 !! u' = index_files a !! u')
               ∧ clock a2 = clock a1 ∧ current_map_meta a2 = current_map_meta a1
               ∧ canvas a2 = canvas a ∧ current_user a2 = current_user a
               ∧ current_map_id a2 = current_map_id a1).
  { unfold a2, save_map_file, ensure_user_folders, load_user_maps_index. rewrite Hif.
    destruct (index_files a !! u) eqn:E; simpl; rewrite ?Hif, ?Hmf, ?Hc, ?E, ?lookup_insert_eq;
      split_and!; try done.
    intros u' Hne. by rewrite lookup_insert_ne. }
  destruct H2 as (Hidx & Hm2 & Ho2 & Hcl & Hmm & Hc2 & Hu2 & Hi2).
  rewrite Hidx, Hmm, Hcl. fold session. rewrite Hst.
  set (a3 := set_log_clock _ _ a2).
  set (a4 := match current_map_meta a3 with Some _ => _ | None => a3 end).
  assert (H4 : map_files a4 = map_files a2 ∧ index_files a4 = index_files a2
               ∧ canvas a4 = canvas a2 ∧ current_user a4 = current_user a2
               ∧ current_map_id a4 = current_map_id a2).
  { unfold a4. destruct (current_map_meta a3) as [m|]; [|done]. by destruct (meta_truthy m). }
  destruct H4 as (H4m & H4i & H4c & H4u & H4d).
  set (a5 := save_user_maps_index u _ a4).
  destruct (refresh_maps_list_files a5) as (Hrm & Hri & _ & Hru).
  assert (Hrc : canvas (refresh_maps_list a5) = canvas a5
                ∧ current_map_id (refresh_maps_list a5) = current_map_id a5).
  { unfold refresh_maps_list. by destruct (nonempty (current_user a5)). }
  destruct Hrc as [Hrc Hrd].
  simpl. split_and!.
  - rewrite Hrm. unfold a5. simpl. by rewrite H4m.
  - unfold load_user_maps_index. simpl. rewrite Hri. unfold a5. simpl.
    by rewrite lookup_insert_eq.
  - intros u' Hne. rewrite Hri. unfold a5. simpl.
    rewrite lookup_insert_ne by done. rewrite H4i. by apply Ho2.
  - rewrite Hrc. unfold a5. simpl. by rewrite H4c.
  - rewrite Hru. unfold a5. simpl. by rewrite H4u.
  - rewrite Hrd. unfold a5. simpl. by rewrite H4d.
Qed.

(** X16.  What was saved comes back: after a save that goes through,
    loading the map of that id, at any later time at which its file is
    still the one written, gives a diagram with the nodes and edges that
    the canvas had when it was saved, and makes the map the map of the
    session. *)
Theorem save_then_load_restores_diagram (reply : option string) (a a1 b : App) (u : string) :
  nonempty (current_user a) = Some u →
  save_map_prepare uuid4 now_str reply a = Some a1 →
  keyed_nodes (canvas a) → keyed_edges (canvas a) → resolvable (canvas a) →
  let mid := default "" (current_map_id a1) in
  let a' := save_map uuid4 now_str reply a in
  nonempty (current_user b) = Some u →
  map_files b !! (u, mid) = map_files a' !! (u, mid) →
  let b' := load_map uuid4 now_str mid b in
  node_view (canvas b') = node_view (canvas a)
  ∧ edge_view (canvas b') = edge_view (canvas a)
  ∧ current_map_id b' = Some mid
  ∧ map_files b' = map_files b ∧ index_files b' = index_files b.
Proof.
  clear uuid4_truthy. intros Hu Hp Kn Ke Res mid a' Hub Hfile b'.
  destruct (save_map_files reply a a1 u Hu Hp) as (Hm & _).
  fold mid a' in Hm. rewrite Hm, lookup_insert_eq in Hfile.
  subst b'. unfold load_map. rewrite Hub. unfold load_map_file. rewrite Hfile.
  destruct (load_serialized_views a b Kn Ke Res) as [Hn He].
  destruct (load_from_session (serialize (canvas a)) b) as ((S1 & S2 & _) & _).
  done.
Qed.

(** X17.  A map that was opened from the list keeps its title and its
    time of creation when it is saved again: the save replaces the file
    by the diagram of the canvas and, in the index entry, only the time of
    modification; the other entries of the index and the indexes of other
    users are as before. *)
Theorem save_after_load_keeps_title_and_created (reply : option string) (a : App)
    (u mid c : string) (data : Doc) (m : Meta) :
  nonempty (current_user a) = Some u →
  truthy mid = true →
  map_files a !! (u, mid) = Some data →
  load_user_maps_index u a !! mid = Some m →
  m_created m = Some c →
  let a0 := load_map uuid4 now_str mid a in
  let a' := save_map uuid4 now_str reply a0 in
  load_user_maps_index u a'
  = <[mid := mkMeta (m_title m) (Some c) (Some (now_str (clock a0)))]>
      (load_user_maps_index u a)
  ∧ map_files a' = <[(u, mid) := serialize (canvas a0)]> (map_files a)
  ∧ (∀ u', u' ≠ u → index_files a' !! u' = index_files a !! u')
  ∧ canvas a' = canvas a0
  ∧ current_map_id a' = Some mid.
Proof.
  clear uuid4_truthy. intros Hu Ht Hfile Hidx Hc a0 a'.
  destruct (load_from_session data a) as ((S1 & S2 & _) & S4 & _).
  assert (H0 : current_user a0 = current_user a ∧ current_map_id a0 = Some mid
               ∧ current_map_meta a0 = Some m
               ∧ map_files a0 = map_files a ∧ index_files a0 = index_files a).
  { unfold a0, load_map. rewrite Hu. unfold load_map_file. rewrite Hfile. simpl.
    unfold load_user_maps_index in *. rewrite S2, Hidx. done. }
  destruct H0 as (U0 & I0 & M0 & F0 & X0).
  assert (Hp : save_map_prepare uuid4 now_str reply a0 = Some a0).
  { unfold save_map_prepare. rewrite I0. simpl. by rewrite Ht. }
  assert (Hu0 : nonempty (current_user a0) = Some u) by (by rewrite U0).
  destruct (save_map_files reply a0 a0 u Hu0 Hp) as (Hm & Hi & Ho & Hcv & _ & Hid).
  fold a' in Hm, Hi, Ho, Hcv, Hid. rewrite I0 in Hm, Hi, Hid. simpl in Hm, Hi.
  rewrite M0 in Hi. unfold load_user_maps_index in Hi |- *. rewrite X0, F0 in *.
  split_and!; try done.
  - assert (Hmt : meta_truthy m = true).
    { unfold meta_truthy. rewrite Hc. by destruct (m_title m). }
    rewrite Hi. f_equal. unfold meta_or_empty. rewrite Hmt. unfold stamp. by rewrite Hc.
Qed.

Lemma split_bar_head_no_bar (s : string) : has_bar (split_bar_head s) = false.
Proof.
  clear. induction s as [|ch s IH]; simpl; [done|].
  destruct (Ascii.eqb ch "|") eqn:E; simpl; [done|]. by rewrite E.
Qed.

(** X18.  Every map of the index of the logged-in user has its row in
    the refreshed listing, and the id that the handlers of the list read
    back from the row is the id of the map exactly when the id does not
    contain the separator ["|"]. *)
Theorem listed_row_names_map_iff_no_bar (a : App) (u mid : string) (m : Meta) :
  nonempty (current_user a) = Some u →
  load_user_maps_index u a !! mid = Some m →
  (∃ i, maps_list (refresh_maps_list a) !! i = Some (list_row (mid, m)))
  ∧ (split_bar_head (list_row (mid, m)) = mid ↔ has_bar mid = false).
Proof.
  clear. intros Hu Hm. split.
  - unfold refresh_maps_list. rewrite Hu. simpl.
    assert (Hin : (mid, m) ∈ list_maps u a).
    { unfold list_maps. rewrite sorted_desc_perm. by apply elem_of_map_to_list. }
    apply list_elem_of_lookup in Hin as [i Hi].
    exists i. by rewrite list_lookup_fmap, Hi.
  - split.
    + intros <-. apply split_bar_head_no_bar.
    + intros Hb. unfold list_row. simpl. by apply split_bar_head_row.
Qed.

(** X19.  Opening a file through the dialog loads its diagram and makes
    the base name of the file the map of the session, and no map file is
    written.  An entry that the index has for that name is kept as it is
    and nothing is written; without one, an entry titled by the name is
    added.  The metadata of the session are not set in either case, and a
    file that cannot be read changes nothing. *)
Theorem open_map_dialog_registers_map (path mid u : string) (data : Doc) (a : App) :
  nonempty (current_user a) = Some u →
  let a' := open_map_dialog uuid4 now_str (Some (path, mid, Some data)) a in
  let idx := load_user_maps_index u a in
  canvas a' = canvas (load_from uuid4 data a)
  ∧ current_map_id a' = Some mid
  ∧ current_map_meta a' = current_map_meta a
  ∧ map_files a' = map_files a
  ∧ (is_Some (idx !! mid) → index_files a' = index_files a ∧ fs_trace a' = fs_trace a)
  ∧ (idx !! mid = None →
       load_user_maps_index u a'
       = <[mid := mkMeta (Some mid) (Some (now_str (clock a)))
                         (Some (now_str (S (clock a))))]> idx)
  ∧ open_map_dialog uuid4 now_str (Some (path, mid, None)) a = a.
Proof.
  clear uuid4_truthy. intros Hu a' idx.
  destruct (load_from_session data a) as ((S1 & S2 & S3) & S4 & S5 & S6 & S7).
  assert (Hu' : nonempty (current_user (load_from uuid4 data a)) = Some u) by (by rewrite S4).
  subst a'. unfold open_map_dialog. rewrite Hu.
  unfold load_user_maps_index in *. simpl. rewrite S2. fold idx.
  destruct (idx !! mid) as [m|] eqn:E; simpl.
  - unfold refresh_maps_list. simpl. rewrite Hu'. simpl.
    by split_and!.
  - unfold refresh_maps_list. simpl. rewrite Hu'. simpl. rewrite S7.
    split_and!; try done.
    intros _. by rewrite lookup_insert_eq.
Qed.

End Runs.

(** * The accounts *)

Section Accounts.

Variable hash_password : string → string.
Variable strip : string → string.
Variable now_str : nat → string.

(** X20.  A registration that goes through adds the stripped name with
    the digest of the stripped password to the table and creates the index
    of the user.  Afterwards a login under that name is accepted exactly
    when the digest of the password as typed, which [do_login] does not
    strip, is the digest of the stripped password of the registration. *)
Theorem register_then_login (username password v : string) (s s' : Site) :
  do_register hash_password strip username password s = (Some v, s') →
  v = strip username ∧ truthy v = true
  ∧ load_users s !! v = None
  ∧ load_users s' = <[v := hash_password (strip password)]> (load_users s)
  ∧ is_Some (index_files (app s') !! v)
  ∧ ∀ username' password',
      strip username' = v →
      (do_login hash_password strip username' password' s' = Some v
       ↔ hash_password password' = hash_password (strip password)).
Proof.
  unfold do_register.
  destruct (truthy (strip username)) eqn:Tu; simpl; [|done].
  destruct (truthy (strip password)) eqn:Tp; simpl; [|done].
  destruct (load_users s !! strip username) eqn:E; [done|].
  intros [= <- <-]. split_and!; try done.
  - unfold ensure_user_folders. simpl.
    destruct (index_files (app s) !! strip username) eqn:Ei; simpl.
    + by rewrite Ei.
    + by rewrite lookup_insert_eq.
  - intros username' password' Hn. unfold do_login, load_users. simpl.
    rewrite Hn, lookup_insert_eq. case_decide as Hd; by split.
Qed.

(** X21.  A registration never changes an account that exists: every
    name of the table keeps its digest, so whoever could log in before the
    registration can log in after it, with the same result. *)
Theorem register_keeps_accounts (username password username' password' r : string)
    (s : Site) :
  do_login hash_password strip username' password' s = Some r →
  let s' := (do_register hash_password strip username password s).2 in
  do_login hash_password strip username' password' s' = Some r
  ∧ ∀ k h, load_users s !! k = Some h → load_users s' !! k = Some h.
Proof.
  intros Hlogin s'.
  assert (Hkeep : ∀ k h, load_users s !! k = Some h → load_users s' !! k = Some h).
  { intros k h Hk. unfold s', do_register.
    destruct (negb (truthy (strip username)) || negb (truthy (strip password))); [done|].
    destruct (load_users s !! strip username) eqn:E; [done|].
    unfold load_users at 1. simpl. rewrite lookup_insert_ne; [done|]. congruence. }
  split; [|done].
  unfold do_login in *.
  destruct (load_users s !! strip username') as [h|] eqn:E; [|done].
  by rewrite (Hkeep _ _ E).
Qed.

(** X22.  A login makes the user the user of the session and lists the
    maps of the index of the user; an index that exists is not replaced,
    and no map file is touched.  The canvas and the map of the session are
    not reset: they stay those of the session before the login. *)
Theorem login_keeps_index_and_canvas (u : string) (a : App) :
  let a' := login_user now_str u a in
  current_user a' = Some u
  ∧ load_user_maps_index u a' = load_user_maps_index u a
  ∧ is_Some (index_files a' !! u)
  ∧ (∀ u', u' ≠ u → index_files a' !! u' = index_files a !! u')
  ∧ map_files a' = map_files a
  ∧ (truthy u = true → maps_list a' = list_row <$> list_maps u a)
  ∧ canvas a' = canvas a
  ∧ current_map_id a' = current_map_id a
  ∧ current_map_meta a' = current_map_meta a.
Proof.
  intros a'. subst a'. unfold login_user.
  set (a1 := ensure_user_folders u (set_session (Some u) (current_map_id a) (current_map_meta a) a)).
  assert (H1 : current_user a1 = Some u
               ∧ load_user_maps_index u a1 = load_user_maps_index u a
               ∧ is_Some (index_files a1 !! u)
               ∧ (∀ u', u' ≠ u → index_files a1 !! u' = index_files a !! u')
               ∧ map_files a1 = map_files a ∧ canvas a1 = canvas a
               ∧ current_map_id a1 = current_map_id a
               ∧ current_map_meta a1 = current_map_meta a).
  { unfold a1, ensure_user_folders, load_user_maps_index. simpl.
    destruct (index_files a !! u) eqn:E; simpl.
    - rewrite E. by split_and!.
    - rewrite lookup_insert_eq. split_and!; try done.
      intros u' Hne. by rewrite lookup_insert_ne. }
  destruct H1 as (U1 & L1 & I1 & O1 & F1 & C1 & D1 & M1).
  unfold refresh_maps_list. simpl. rewrite U1. unfold nonempty.
  destruct (truthy u) eqn:Tu; simpl; split_and!; try done.
  intros _. unfold list_maps. f_equal. f_equal. f_equal. exact L1.
Qed.

End Accounts.

(** * Scenarios *)

(** C7.  User ["ann"] logs in, opens the file of her map ["m1"] through
    the file dialog and saves.  [open_map_dialog] sets [current_map_id]
    and leaves [current_map_meta] as it was ([None] after start), so
    [save_map] builds the entry from an empty dict: the entry of ["m1"],
    which was in the index before, gets the time of the save as [created]
    and loses its title. *)
Theorem save_after_open_dialog_overwrites_created :
  let a0 := open_map_dialog demo_uuid demo_now
              (Some ("data/ann/maps/m1.json", "m1", Some plan_doc))
              (login_user demo_now "ann" stored_app) in
  let a1 := save_map demo_uuid demo_now None a0 in
  load_user_maps_index "ann" a0 !! "m1" = Some plan_meta
  ∧ current_map_id a0 = Some "m1"
  ∧ current_map_meta a0 = None
  ∧ load_user_maps_index "ann" a1 !! "m1"
    = Some (mkMeta None (Some (demo_now 3)) (Some (demo_now 2)))
  ∧ m_created plan_meta ≠ Some (demo_now 3).
Proof. vm_compute. split_and!; done. Qed.

(** C5.  Loading a document whose only edge joins ["n1"] to itself puts
    that edge into the diagram: [load_from] tests that both endpoints
    resolve and nothing else. *)
Theorem load_from_accepts_self_loop :
  let a := load_from demo_uuid self_loop_doc init_app in
  edge_view (canvas a) = {["e1" := full_edge "e1" "n1" "n1"]}
  ∧ (∃ e, edges (canvas a) !! "e1" = Some e ∧ e_a e = e_b e)
  ∧ doc_edges (serialize (canvas a)) = Some [full_edge "e1" "n1" "n1"]
  ∧ ¬ distinct_endpoints (canvas a).
Proof.
  intros a. split_and!.
  - vm_compute. reflexivity.
  - exists (mkEdge "e1" 0 0 3). vm_compute. split; reflexivity.
  - vm_compute. reflexivity.
  - intros H.
    assert (Hl : edges (canvas a) !! "e1" = Some (mkEdge "e1" 0 0 3))
      by (vm_compute; reflexivity).
    apply (H "e1" _ Hl). vm_compute. reflexivity.
Qed.

(** C1.  A node of a loaded map is clicked, which selects it; the map is
    loaded again, which builds new node objects and leaves
    [selected_item] on the old object; "Connect" is chosen and the node
    with the same id is clicked.  [finish_connection] compares the objects,
    finds them different and creates an edge from ["n1"] to ["n1"].  When
    another map is loaded instead, the edge starts at ["n1"], which that
    diagram does not have. *)
Theorem stale_selection_creates_invalid_edges :
  let a1 := Node_on_click 0 (load_from demo_uuid two_nodes_doc init_app) in
  let a3 := follow_mouse (canvas_start_connection demo_now
                            (load_from demo_uuid two_nodes_doc a1)) in
  let a4 := finish_connection demo_uuid demo_now [5] a3 in
  let b3 := follow_mouse (canvas_start_connection demo_now
                            (load_from demo_uuid other_doc a1)) in
  let b4 := finish_connection demo_uuid demo_now [5] b3 in
  nodes (canvas a1) !! "n1" = Some 0
  ∧ selected_item (canvas a3) = Some 0
  ∧ nodes (canvas a3) !! "n1" = Some 2
  ∧ hit_target (canvas a3) [5] = Some 2
  ∧ edge_view (canvas a3) = ∅
  ∧ edge_view (canvas a4) = {["uuid-0" := full_edge "uuid-0" "n1" "n1"]}
  ∧ nodes (canvas b3) !! "n1" = None
  ∧ hit_target (canvas b3) [5] = nodes (canvas b3) !! "n3"
  ∧ edge_view (canvas b4) = {["uuid-0" := full_edge "uuid-0" "n1" "n3"]}
  ∧ nodes (canvas b4) !! "n1" = None.
Proof. vm_compute. split_and!; done. Qed.

(** C3.  A node of a loaded map is clicked, which selects it; a map
    that has a node of the same id, joined to another node by the edge
    ["e1"], is loaded, which leaves [selected_item] on the old object; the
    Delete key is pressed.  [delete_node] walks the [connections] of the
    old object, which are empty, and then removes the entry that [nodes]
    has under the id of the old object, which is the new node: the node
    ["n1"] leaves the diagram, its edge ["e1"] stays, still registered
    with the other endpoint and still serialized with the endpoint
    ["n1"], and the items of the removed node stay on the canvas.  The
    diagram was in order before the key was pressed. *)
Theorem stale_selection_delete_leaves_dangling_edge :
  let a1 := Node_on_click 0 (load_from demo_uuid two_nodes_doc init_app) in
  let a2 := load_from demo_uuid linked_doc a1 in
  let a3 := on_delete_key demo_now a2 in
  selected_item (canvas a2) = Some 0
  ∧ nodes (canvas a2) !! "n1" = Some 2
  ∧ n_id (deref (canvas a2) 0) = "n1"
  ∧ n_connections (deref (canvas a2) 0) = ∅
  ∧ edge_view (canvas a2) = {["e1" := full_edge "e1" "n1" "n2"]}
  ∧ resolvable (canvas a2) ∧ endpoints_live (canvas a2)
  ∧ nodes (canvas a3) = {["n2" := 3]}
  ∧ edges (canvas a3) = edges (canvas a2)
  ∧ edge_view (canvas a3) = {["e1" := full_edge "e1" "n1" "n2"]}
  ∧ "e1" ∈ n_connections (deref (canvas a3) 3)
  ∧ n_rect (deref (canvas a3) 2) ∈ items (canvas a3)
  ∧ ¬ resolvable (canvas a3)
  ∧ delete_selected_node demo_now a2 = a3.
Proof.
  intros a1 a2 a3.
  assert (He : edges (canvas a3) !! "e1" = Some (mkEdge "e1" 2 3 9))
    by (vm_compute; reflexivity).
  split_and!.
  - vm_compute. reflexivity.
  - vm_compute. reflexivity.
  - vm_compute. reflexivity.
  - vm_compute. reflexivity.
  - vm_compute. reflexivity.
  - unfold resolvable. apply (bool_decide_unpack _). vm_compute. exact I.
  - unfold endpoints_live. apply (bool_decide_unpack _). vm_compute. exact I.
  - vm_compute. reflexivity.
  - vm_compute. reflexivity.
  - vm_compute. reflexivity.
  - apply (bool_decide_unpack _). vm_compute. exact I.
  - apply (bool_decide_unpack _). vm_compute. exact I.
  - intros H. destruct (H "e1" _ He) as [[r Hr] _]. revert Hr. vm_compute. discriminate.
  - vm_compute. reflexivity.
Qed.

(** C6, where the specification has the drop logged.  The second edge of the document
    names a node that the document does not have.  It is dropped, and the
    log is as it was: nothing reports the drop. *)
Lemma dangling_edge_dropped_without_log :
  let a := load_from demo_uuid dangling_doc init_app in
  edges (canvas a) !! "e2" = None
  ∧ is_Some (edges (canvas a) !! "e1")
  ∧ log_text a = log_text init_app.
Proof. vm_compute. split_and!; [done| |done]. eexists; reflexivity. Qed.

(** * Instances of the theorems on the example diagrams *)

Lemma on_drag_moves_only_that_node_witness :
  nodes (canvas (Node_on_drag 0 (num 300) (num 100) chain_app)) = nodes (canvas chain_app)
  ∧ edges (canvas (Node_on_drag 0 (num 300) (num 100) chain_app)) = edges (canvas chain_app).
Proof.
  pose proof (on_drag_moves_only_that_node chain_app 0 (num 300) (num 100)
                (mkNode "n1" (num 10) (num 10) (num 160) (num 52) "A" 1 2 {["e1"]})) as H.
  destruct H as (_ & _ & Hn & He & _); [vm_compute; reflexivity|].
  split; [exact Hn|exact He].
Defined.


Lemma connecting_click_creates_edge_witness :
  let a := Node_on_click 0 (load_from demo_uuid two_nodes_doc init_app) in
  let a' := finish_connection demo_uuid demo_now [3]
              (Nat.iter 2 follow_mouse (start_connection demo_now a)) in
  size (edges (canvas a')) = S (size (edges (canvas a)))
  ∧ temp_line (canvas a') = None
  ∧ button1 (canvas a') = OnSingle.
Proof.
  intros a a'.
  pose proof (connecting_click_creates_edge demo_uuid demo_now a 2 [3] 0 1) as H.
  destruct H as (_ & _ & Hsize & _ & _ & Ht & _ & Hb & _);
    [vm_compute; reflexivity | vm_compute; reflexivity | lia |].
  split_and!; [apply Hsize; vm_compute; reflexivity | exact Ht | exact Hb].
Defined.

Lemma load_from_node_defaults_witness :
  ∃ n, heap (canvas (load_from demo_uuid sparse_doc init_app)) !! 1 = Some n
       ∧ Node_serialize n
         = mkNodeDoc (Some "uuid-0") (Some (num 5)) (Some (num 10)) (Some "B")
                     (Some (num 160)) (Some (num 30)).
Proof.
  pose proof (load_from_node_defaults demo_uuid sparse_doc init_app
                [mkNodeDoc (Some "n1") None None None None None] []
                (mkNodeDoc None (Some (num 5)) None (Some "B") None (Some (num 30)))) as H.
  destruct H as (Hn & _); [reflexivity|]. exact Hn.
Defined.

Lemma load_from_drops_unresolved_edge_witness :
  load_from demo_uuid dangling_doc init_app
  = load_from demo_uuid
      (mkDoc (doc_nodes dangling_doc) (Some [full_edge "e1" "n1" "n2"])) init_app
  ∧ log_text (load_from demo_uuid dangling_doc init_app) = log_text init_app.
Proof.
  pose proof (load_from_drops_unresolved_edge demo_uuid dangling_doc init_app
                [full_edge "e1" "n1" "n2"] [] (full_edge "e2" "n1" "ghost")) as H.
  destruct H as (Hd & Hl & _); [reflexivity | vm_compute; reflexivity |].
  split; [exact Hd|exact Hl].
Defined.


Lemma delete_node_cascades_witness :
  nodes (canvas (delete_node demo_now 1 chain_app)) = delete "n2" (nodes (canvas chain_app))
  ∧ edges (canvas (delete_node demo_now 1 chain_app)) !! "e1" = None
  ∧ edges (canvas (delete_node demo_now 1 chain_app)) !! "e2" = None.
Proof.
  pose proof (delete_node_cascades demo_now chain_app 1
                (mkNode "n2" (num 200) (num 10) (num 160) (num 52) "B" 3 4 {["e1"; "e2"]})) as H.
  destruct H as [H _].
  - vm_compute. reflexivity.
  - unfold diagram_invariant, endpoints_live, connections_complete, connections_sound.
    split_and!; apply (bool_decide_unpack _); vm_compute; exact I.
  - destruct H as (Hn & He & _); [vm_compute; reflexivity|].
    split_and!; [exact Hn | exact (He "e1") | exact (He "e2")].
Defined.

(** * Instances of the further properties *)

Lemma demo_uuid_truthy (i : nat) : truthy (demo_uuid i) = true.
Proof. done. Qed.

Lemma init_canvas_wf : canvas_wf init_canvas.
Proof.
  unfold canvas_wf, keyed_nodes, keyed_edges, connections_complete. simpl.
  split_and!; try apply map_Forall_empty; try done.
  intros r. rewrite lookup_empty. split; [by intros [? ?]|lia].
Qed.

Lemma chain_app_wf : canvas_wf (canvas chain_app).
Proof. apply load_from_wf; [exact demo_uuid_truthy|exact init_canvas_wf]. Qed.

Lemma run_foldl (uuid4 now_str : nat → string) (evs : list Event) (a : App) :
  events_ok uuid4 now_str a evs →
  run uuid4 now_str a evs (foldl (λ a ev, handle uuid4 now_str ev a) a evs).
Proof.
  revert a. induction evs as [|ev evs IH]; intros a; simpl.
  - intros _. apply run_nil.
  - intros [Hok Hrest]. apply run_cons; [done|]. by apply IH.
Qed.

Lemma reachable_canvas_wf_witness :
  canvas_wf (canvas (foldl (λ a ev, handle demo_uuid demo_now ev a) init_app drawing_events)).
Proof.
  apply (reachable_canvas_wf demo_uuid demo_now demo_uuid_truthy init_app _ drawing_events);
    [reflexivity|].
  apply run_foldl. vm_compute. repeat split; lia.
Defined.

Lemma delete_node_leaves_no_edge_at_node_witness :
  ∃ e, edges (canvas (delete_node demo_now 0 chain_app)) !! "e2" = Some e
       ∧ e_a e ≠ 0 ∧ e_b e ≠ 0 ∧ edges (canvas chain_app) !! "e2" = Some e.
Proof.
  destruct (edges (canvas (delete_node demo_now 0 chain_app)) !! "e2") as [e|] eqn:E.
  - exists e. split; [reflexivity|].
    exact (delete_node_leaves_no_edge_at_node demo_now chain_app 0 chain_app_wf "e2" e E).
  - exfalso. revert E. vm_compute. discriminate.
Defined.

Lemma serialize_entries_distinct_witness :
  ∃ nds eds, serialize (canvas chain_app) = mkDoc (Some nds) (Some eds)
             ∧ length nds = 3 ∧ length eds = 2
             ∧ NoDup (nd_id <$> nds) ∧ NoDup (ed_id <$> eds).
Proof.
  destruct (serialize_entries_distinct (canvas chain_app) chain_app_wf)
    as (nds & eds & Hs & Hn & He & _ & _ & Dn & De & _).
  exists nds, eds. split_and!; [exact Hs| | |exact Dn|exact De].
  - rewrite Hn. vm_compute. reflexivity.
  - rewrite He. vm_compute. reflexivity.
Defined.

Lemma connecting_click_elsewhere_aborts_witness :
  let a := Node_on_click 0 (load_from demo_uuid two_nodes_doc init_app) in
  let a' := finish_connection demo_uuid demo_now [1]
              (Nat.iter 2 follow_mouse (start_connection demo_now a)) in
  edges (canvas a') = edges (canvas a)
  ∧ temp_line (canvas a') = None
  ∧ button1 (canvas a') = OnSingle.
Proof.
  intros a a'.
  pose proof (connecting_click_elsewhere_aborts demo_uuid demo_now a 2 [1] 0) as H.
  destruct H as (He & _ & _ & _ & Ht & _ & Hb & _);
    [vm_compute; reflexivity | right; vm_compute; reflexivity |].
  split_and!; [exact He | exact Ht | exact Hb].
Defined.

Lemma follow_mouse_keeps_one_line_witness :
  let a := start_connection demo_now
             (Node_on_click 0 (load_from demo_uuid two_nodes_doc init_app)) in
  ∃ l, temp_line (canvas (Nat.iter 2 follow_mouse a)) = Some l
       ∧ (l ∉ items (canvas a)).
Proof.
  intros a.
  assert (Hb : set_Forall (λ i, (i < next_item (canvas a))%nat) (items (canvas a)))
    by (apply (bool_decide_unpack _); vm_compute; exact I).
  destruct (follow_mouse_keeps_one_line a 1 0) as (l & Ht & Hl & _);
    [vm_compute; reflexivity | exact Hb |].
  exists l. split; [exact Ht|exact Hl].
Defined.

Lemma finish_connection_live_selection_witness :
  let a := Node_on_click 0 (load_from demo_uuid two_nodes_doc init_app) in
  edges (canvas (finish_connection demo_uuid demo_now [3] a))
  = <["uuid-0" := mkEdge "uuid-0" 0 1 5]> (edges (canvas a)).
Proof.
  intros a.
  pose proof (finish_connection_live_selection demo_uuid demo_now [3] a 0) as H.
  assert (Hhit : hit_target (canvas a) [3] = Some 1) by (vm_compute; reflexivity).
  rewrite Hhit in H.
  destruct H as [_ H].
  - unfold keyed_nodes. apply (bool_decide_unpack _). vm_compute. exact I.
  - vm_compute. reflexivity.
  - vm_compute. reflexivity.
  - destruct (decide (n_id (deref (canvas a) 1) = n_id (deref (canvas a) 0))) as [Heq|_].
    + exfalso. revert Heq. vm_compute. discriminate.
    + exact H.
Defined.

Lemma load_from_keyed_witness :
  let c := canvas (load_from demo_uuid dangling_doc init_app) in
  keyed_nodes c ∧ keyed_edges c ∧ endpoints_live c ∧ resolvable c.
Proof. exact (load_from_keyed demo_uuid dangling_doc init_app demo_uuid_truthy). Defined.

Lemma on_double_adds_centred_node_witness :
  let a' := on_double demo_uuid demo_now (num 300) (num 200) chain_app in
  edge_view (canvas a') = edge_view (canvas chain_app)
  ∧ selected_item (canvas a') = selected_item (canvas chain_app).
Proof.
  intros a'.
  destruct (on_double_adds_centred_node demo_uuid demo_now (num 300) (num 200)
              chain_app chain_app_wf) as (_ & He & Hs & _).
  split; [exact He|exact Hs].
Defined.

Lemma right_click_renames_that_node_witness :
  let a' := Node_on_right_click demo_now 1 (Some "Beta") chain_app in
  node_view (canvas a') !! "n2"
  = Some (mkNodeDoc (Some "n2") (Some (num 200)) (Some (num 10)) (Some "Beta")
                    (Some (num 160)) (Some (num 52)))
  ∧ edge_view (canvas a') = edge_view (canvas chain_app).
Proof.
  intros a'.
  destruct (right_click_renames_that_node demo_now 1 "n2" "Beta" chain_app chain_app_wf)
    as (Hn & He & _); [vm_compute; reflexivity|].
  split; [|exact He].
  fold a' in Hn. rewrite Hn, lookup_insert_eq. reflexivity.
Defined.

Lemma editing_never_writes_store_witness :
  map_files (handle demo_uuid demo_now DeleteKey drawn_app) = map_files drawn_app
  ∧ index_files (handle demo_uuid demo_now DeleteKey drawn_app) = index_files drawn_app
  ∧ fs_trace (handle demo_uuid demo_now DeleteKey drawn_app) = fs_trace drawn_app.
Proof. exact (editing_never_writes_store demo_uuid demo_now DeleteKey drawn_app eq_refl). Defined.

Lemma logged_out_run_keeps_store_witness :
  let a' := foldl (λ a ev, handle demo_uuid demo_now ev a) stored_app logged_out_events in
  map_files a' = map_files stored_app ∧ index_files a' = index_files stored_app
  ∧ fs_trace a' = fs_trace stored_app ∧ current_user a' = None.
Proof.
  intros a'.
  apply (logged_out_run_keeps_store demo_uuid demo_now stored_app a' logged_out_events).
  - reflexivity.
  - unfold logged_out_events. repeat constructor.
  - unfold a', logged_out_events.
    repeat (eapply run_cons; [exact I|]).
    apply run_nil.
Defined.

Lemma new_map_is_listed_without_file_witness :
  current_map_id session_app = Some "uuid-0"
  ∧ map_files session_app = map_files (login_user demo_now "ann" stored_app)
  ∧ ∃ i, open_selected_map demo_uuid demo_now (Some i) session_app = session_app.
Proof.
  assert (H1 : nonempty (current_user (login_user demo_now "ann" stored_app)) = Some "ann")
    by (vm_compute; reflexivity).
  assert (H2 : has_bar (demo_uuid (uuid_calls (login_user demo_now "ann" stored_app))) = false)
    by (vm_compute; reflexivity).
  assert (H3 : map_files (login_user demo_now "ann" stored_app)
               !! ("ann", demo_uuid (uuid_calls (login_user demo_now "ann" stored_app))) = None)
    by (vm_compute; reflexivity).
  destruct (new_map_is_listed_without_file demo_uuid demo_now "Chain" "ann"
              (login_user demo_now "ann" stored_app) H1 H2 H3)
    as (Hid & _ & _ & Hf & _ & _ & _ & i & _ & Ho).
  split_and!; [exact Hid | exact Hf | exists i; exact Ho].
Defined.

Lemma save_then_load_restores_diagram_witness :
  let a' := save_map demo_uuid demo_now None drawn_app in
  let b' := load_map demo_uuid demo_now (default "" (current_map_id drawn_app)) a' in
  node_view (canvas b') = node_view (canvas drawn_app)
  ∧ edge_view (canvas b') = edge_view (canvas drawn_app).
Proof.
  intros a' b'.
  destruct (save_then_load_restores_diagram demo_uuid demo_now None drawn_app drawn_app a' "ann")
    as (Hn & He & _).
  - vm_compute. reflexivity.
  - vm_compute. reflexivity.
  - unfold keyed_nodes. apply (bool_decide_unpack _). vm_compute. exact I.
  - unfold keyed_edges. apply (bool_decide_unpack _). vm_compute. exact I.
  - unfold resolvable. apply (bool_decide_unpack _). vm_compute. exact I.
  - vm_compute. reflexivity.
  - reflexivity.
  - split; [exact Hn|exact He].
Defined.

Lemma save_after_load_keeps_title_and_created_witness :
  let a := login_user demo_now "ann" stored_app in
  let a0 := load_map demo_uuid demo_now "m1" a in
  let a' := save_map demo_uuid demo_now None a0 in
  load_user_maps_index "ann" a'
  = <["m1" := mkMeta (Some "Plan") (Some "2024-04-01 09:00:00") (Some (demo_now (clock a0)))]>
      (load_user_maps_index "ann" a).
Proof.
  intros a a0 a'.
  destruct (save_after_load_keeps_title_and_created demo_uuid demo_now None a
              "ann" "m1" "2024-04-01 09:00:00" plan_doc plan_meta) as (Hi & _).
  - vm_compute. reflexivity.
  - reflexivity.
  - vm_compute. reflexivity.
  - vm_compute. reflexivity.
  - reflexivity.
  - exact Hi.
Defined.

Lemma listed_row_names_map_iff_no_bar_witness :
  let a := login_user demo_now "ann" stored_app in
  (∃ i, maps_list (refresh_maps_list a) !! i = Some (list_row ("m1", plan_meta)))
  ∧ (split_bar_head (list_row ("m1", plan_meta)) = "m1" ↔ has_bar "m1" = false).
Proof.
  intros a. apply (listed_row_names_map_iff_no_bar a "ann" "m1" plan_meta).
  - vm_compute. reflexivity.
  - vm_compute. reflexivity.
Defined.

Lemma open_map_dialog_registers_map_witness :
  let a := login_user demo_now "ann" stored_app in
  let a' := open_map_dialog demo_uuid demo_now
              (Some ("/home/ann/ext.json", "ext", Some other_doc)) a in
  current_map_id a' = Some "ext"
  ∧ current_map_meta a' = current_map_meta a
  ∧ map_files a' = map_files a.
Proof.
  intros a a'.
  destruct (open_map_dialog_registers_map demo_uuid demo_now "/home/ann/ext.json" "ext" "ann"
              other_doc a) as (_ & Hid & Hm & Hf & _); [vm_compute; reflexivity|].
  split_and!; [exact Hid | exact Hm | exact Hf].
Defined.

Lemma register_then_login_witness :
  load_users bob_site !! "bob" = Some (demo_hash "secret")
  ∧ do_login demo_hash ascii_strip "bob " "secret" bob_site = Some "bob".
Proof.
  destruct (register_then_login demo_hash ascii_strip " bob" " secret " "bob"
              new_site bob_site) as (_ & _ & _ & Hu & _ & Hl); [vm_compute; reflexivity|].
  split.
  - rewrite Hu. apply lookup_insert_eq.
  - apply (Hl "bob " "secret"); vm_compute; reflexivity.
Defined.

Lemma register_keeps_accounts_witness :
  do_login demo_hash ascii_strip "bob" "secret"
    (do_register demo_hash ascii_strip "bob" "other" bob_site).2 = Some "bob".
Proof.
  destruct (register_keeps_accounts demo_hash ascii_strip "bob" "other" "bob" "secret" "bob"
              bob_site) as (Hl & _); [vm_compute; reflexivity|].
  exact Hl.
Defined.

Lemma save_map_writes_body_then_index_witness :
  let a' := save_map demo_uuid demo_now None drawn_app in
  map_files a' !! ("ann", default "" (current_map_id drawn_app))
  = Some (serialize (canvas drawn_app)).
Proof.
  intros a'.
  destruct (save_map_writes_body_then_index demo_uuid demo_now None drawn_app drawn_app "ann")
    as (_ & Hf & _).
  - vm_compute. reflexivity.
  - vm_compute. reflexivity.
  - exact Hf.
Defined.
